(** * The continuous-XOR classifier notebook: dataset, loader, training and
      evaluation loops

    A shallow embedding of the PyTorch introduction notebook: the
    [XORDataset] class, the [SimpleClassifier] module, [train_model] and
    [eval_model], together with the few PyTorch operations they call.

    Conventions.
    - float32 tensors are read as exact real numbers ([R]); rounding is
      not modelled.  A tensor of shape [n] is a [list R], a tensor of
      shape [n, m] is a list of n rows of m entries.  A list without rows
      records no width.
    - An operation that PyTorch refuses for the shapes of its arguments
      raises here as well: a linear layer on rows of another width, a loss
      on an input and a target of different sizes, a comparison of sizes
      that do not broadcast, an index past the last column.
    - Python exceptions are values of [exn]; fallible code returns
      [result].
    - Random draws are inputs: every function that draws takes the
      outcome of the draw as an argument. *)

From Stdlib Require Import String Reals Lra Lia ZArith Bool Arith List.
From Stdlib Require Import Permutation.
Import ListNotations.
Open Scope R_scope.

Set Implicit Arguments.

(** ** Python results *)

Inductive exn : Set :=
| RuntimeError
| ValueError
| IndexError
| ZeroDivisionError
| FileNotFoundError.

Inductive result (A : Type) : Type :=
| Ok (a : A)
| Raise (e : exn).

Arguments Ok {A} a.
Arguments Raise {A} e.

Definition vector := list R.
Definition matrix := list vector.

(** A tensor of one or of two dimensions, for the places where the code
    may hold either. *)
Inductive tensor (A : Type) : Type :=
| Tensor1 (v : list A)
| Tensor2 (m : list (list A)).

Arguments Tensor1 {A} v.
Arguments Tensor2 {A} m.

Definition Tensor : Type := tensor R.

(** An elementwise operation, given by what it does to a row. *)
Definition tensor_map {A B : Type} (f : list A -> list B) (t : tensor A)
  : tensor B :=
  match t with
  | Tensor1 v => Tensor1 (f v)
  | Tensor2 m => Tensor2 (map f m)
  end.

(** ** The random generator, as an oracle

    [randint_draw i j] is the outcome of [torch.randint(low=0, high=2)]
    at entry (i, j): an integer of [[0, 2)], hence a bit.  [randn_draw i j]
    is the outcome of [torch.randn] at entry (i, j). *)

Record rng : Type := {
  randint_draw : nat -> nat -> bool;
  randn_draw : nat -> nat -> R
}.

Module Torch.

(** [torch.randint(low=0, high=2, size=(n, 2), dtype=torch.float32)]:
    tensor creation fails on a negative dimension. *)
Definition bit_to_float (b : bool) : R := if b then 1 else 0.

Definition randint_0_2 (g : rng) (n : Z) : result matrix :=
  if (n <? 0)%Z then Raise RuntimeError
  else Ok (map (fun i => [bit_to_float (randint_draw g i 0);
                          bit_to_float (randint_draw g i 1)])
               (seq 0 (Z.to_nat n))).

(** [torch.randn(data.shape)], for a tensor of shape [n, 2]. *)
Definition randn_like (g : rng) (d : matrix) : matrix :=
  map (fun i => [randn_draw g i 0; randn_draw g i 1]) (seq 0 (length d)).

(** [t.sum(dim=1)] *)
Definition sum_dim1 (d : matrix) : vector :=
  map (fun row => fold_right Rplus 0 row) d.

(** [(t == 1).to(torch.long)] *)
Definition eq1_long (v : vector) : list Z :=
  map (fun s => if Req_dec_T s 1 then 1%Z else 0%Z) v.

(** [data += std * noise], elementwise on equal shapes. *)
Definition add_scaled (d : matrix) (std : R) (noise : matrix) : matrix :=
  map (fun rr => map (fun xe => fst xe + std * snd xe)
                     (combine (fst rr) (snd rr)))
      (combine d noise).

End Torch.

(** ** class XORDataset *)

Record XORDataset : Type := {
  size : Z;
  std : R;
  data : matrix;
  label : list Z
}.

(** [generate_continuous_xor]: the clean bits are drawn, the label is
    taken from them, then the noise is added to the features. *)
Definition generate_continuous_xor (size : Z) (std : R) (g : rng)
  : result XORDataset :=
  match Torch.randint_0_2 g size with
  | Raise e => Raise e
  | Ok data =>
      let label := Torch.eq1_long (Torch.sum_dim1 data) in
      let data := Torch.add_scaled data std (Torch.randn_like g data) in
      Ok {| size := size; std := std; data := data; label := label |}
  end.

(** [XORDataset.__init__(size, std=0.1)]: stores the two arguments and
    generates the samples. *)
Definition XORDataset_init (size : Z) (std : R) (g : rng) : result XORDataset :=
  generate_continuous_xor size std g.

(** [__len__] *)
Definition XORDataset_len (ds : XORDataset) : Z := size ds.

(** [__getitem__(idx)] for an index handed out by a sampler (a natural
    number); indexing past the end of a tensor raises [IndexError]. *)
Definition XORDataset_getitem (ds : XORDataset) (idx : nat)
  : result (vector * Z) :=
  match nth_error (data ds) idx, nth_error (label ds) idx with
  | Some data_point, Some data_label => Ok (data_point, data_label)
  | _, _ => Raise IndexError
  end.

(** ** torch.utils.data.DataLoader *)

Record DataLoader : Type := {
  dataset : XORDataset;
  batch_size : Z;
  shuffle : bool;
  drop_last : bool
}.

Module Loader.

(** Modelled from the spec: the body of [torch.utils.data.DataLoader] is
    PyTorch's and is not among the sources.  A batch size that is not
    positive is a configuration error, detected at construction. *)
Definition DataLoader_init (ds : XORDataset) (batch_size : Z)
           (shuffle drop_last : bool) : result DataLoader :=
  if (batch_size <=? 0)%Z then Raise ValueError
  else Ok {| dataset := ds; batch_size := batch_size;
             shuffle := shuffle; drop_last := drop_last |}.

(** Modelled from the spec: the traversal order of the sample indices,
    which PyTorch's samplers produce.  Without shuffling it is the natural
    order 0..size-1; with shuffling it is the permutation [perm] drawn for
    this traversal. *)
Definition index_order (dl : DataLoader) (perm : list nat) : list nat :=
  if shuffle dl then perm
  else seq 0 (Z.to_nat (XORDataset_len (dataset dl))).

(** Modelled from the spec: PyTorch's batch sampler, which slices the
    index order into consecutive chunks of the batch size.  [fuel] bounds
    the number of slices; the length of the order is always enough. *)
Fixpoint slices (fuel b : nat) (order : list nat) : list (list nat) :=
  match fuel with
  | O => []
  | S fuel' =>
      match order with
      | [] => []
      | _ :: _ => firstn b order :: slices fuel' b (skipn b order)
      end
  end.

(** Modelled from the spec: the final short chunk is discarded when
    drop-incomplete is set, and yielded as a shorter batch otherwise. *)
Definition index_batches (dl : DataLoader) (perm : list nat)
  : list (list nat) :=
  let b := Z.to_nat (batch_size dl) in
  let order := index_order dl perm in
  let chunks := slices (length order) b order in
  if drop_last dl then filter (fun c => length c =? b) chunks else chunks.

(** Modelled from the spec: a batch is two aligned sequences, the stacked
    feature rows and the stacked labels. *)
Definition collate (samples : list (vector * Z)) : matrix * list Z :=
  (map fst samples, map snd samples).

(** The samples of one batch are fetched with [__getitem__], in order. *)
Fixpoint fetch (ds : XORDataset) (idxs : list nat)
  : result (list (vector * Z)) :=
  match idxs with
  | [] => Ok []
  | idx :: rest =>
      match XORDataset_getitem ds idx with
      | Raise e => Raise e
      | Ok s =>
          match fetch ds rest with
          | Raise e => Raise e
          | Ok ss => Ok (s :: ss)
          end
      end
  end.

End Loader.

(** ** Elementwise tensor operations

    The in-place operations PyTorch applies to a parameter and its
    gradient, which always have one shape: [zeros_like], [a.add_(b)] and
    [p.add_(g, alpha=-lr)].  On lists the left operand gives the shape. *)

Class Elementwise (T : Type) : Type := {
  zeros_like : T -> T;
  add_ : T -> T -> T;
  sub_scaled_ : R -> T -> T -> T
}.

#[export] Instance Elementwise_R : Elementwise R := {|
  zeros_like := fun _ => 0;
  add_ := Rplus;
  sub_scaled_ := fun lr p g => p - lr * g
|}.

Fixpoint zip_left {T : Type} (f : T -> T -> T) (a b : list T) : list T :=
  match a, b with
  | x :: a', y :: b' => f x y :: zip_left f a' b'
  | _, _ => a
  end.

#[export] Instance Elementwise_list (T : Type) `{Elementwise T}
  : Elementwise (list T) := {|
  zeros_like := map zeros_like;
  add_ := zip_left add_;
  sub_scaled_ := fun lr => zip_left (sub_scaled_ lr)
|}.

(** ** torch.nn.Parameter: a tensor and its accumulated gradient

    [p_grad] is [None] until the first backward pass reaches the
    parameter. *)

Record Param (T : Type) : Type := {
  p_data : T;
  p_grad : option T
}.

Module Autograd.

(** Modelled from the spec: the engine behind [loss.backward()] is
    PyTorch's and is not among the sources.  A backward pass adds the
    new gradient to the one the parameter already holds (gradient
    accumulation, summing across calls, is the default). *)
Definition accumulate {T : Type} `{Elementwise T}
           (p : Param T) (g : T) : Param T :=
  {| p_data := p_data p;
     p_grad := Some (match p_grad p with
                     | None => g
                     | Some acc => add_ acc g
                     end) |}.

(** Modelled from the spec: [optimizer.zero_grad()] is PyTorch's and is
    not among the sources.  It resets the accumulated gradient to zero
    (a parameter that has no gradient yet is left alone). *)
Definition zero_ {T : Type} `{Elementwise T} (p : Param T)
  : Param T :=
  {| p_data := p_data p;
     p_grad := option_map zeros_like (p_grad p) |}.

(** Modelled from the spec: [optimizer.step()] of plain SGD is PyTorch's
    and is not among the sources: parameter -= learning_rate * gradient,
    in place, for every parameter that has a gradient. *)
Definition sgd_update {T : Type} `{Elementwise T} (lr : R)
           (p : Param T) : Param T :=
  match p_grad p with
  | None => p
  | Some g => {| p_data := sub_scaled_ lr (p_data p) g; p_grad := Some g |}
  end.

End Autograd.

(** ** torch.nn.Linear and class SimpleClassifier *)

Record Linear : Type := {
  weight : Param matrix;   (* shape [out_features, in_features] *)
  bias : Param vector      (* shape [out_features] *)
}.

Record SimpleClassifier : Type := {
  linear1 : Linear;
  linear2 : Linear;
  training : bool
}.

(** The initial values of a layer are random draws: [w0 j k] for the
    weight entry (j, k), [b0 j] for the bias entry j. *)
Record init_draw : Type := {
  w0 : nat -> nat -> R;
  b0 : nat -> R
}.

(** The sum of the products of the entries of two vectors of one length;
    [NN.Linear_forward] compares the lengths before it multiplies. *)
Definition dot (a b : vector) : R :=
  fold_right Rplus 0 (map (fun ab => fst ab * snd ab) (combine a b)).

Module NN.

(** [nn.Linear(in_features, out_features)] *)
Definition Linear_init (in_features out_features : nat) (d : init_draw)
  : Linear :=
  {| weight := {| p_data := map (fun j => map (w0 d j) (seq 0 in_features))
                                (seq 0 out_features);
                  p_grad := None |};
     bias := {| p_data := map (b0 d) (seq 0 out_features);
                p_grad := None |} |}.

(** [W x + b] for a row [x] that has the width of the rows of [W]. *)
Definition affine (W : matrix) (b : vector) (x : vector) : vector :=
  map (fun wb => dot (fst wb) x + snd wb) (combine W b).

(** What the matrix product asks of an input row: it has as many entries
    as every row of the weight, that is [in_features].  A weight without
    rows records no [in_features] and has nothing to compare. *)
Definition accepts (W : matrix) (x : vector) : bool :=
  forallb (fun w => (length w =? length x)%nat) W.

(** [Linear.forward] on a batch of rows: [F.linear(x, W, b)] raises
    [RuntimeError] when the width of the batch is not [in_features], or
    when the bias has not one entry per row of the weight. *)
Definition Linear_forward (l : Linear) (x : matrix) : result matrix :=
  if forallb (accepts (p_data (weight l))) x
     && (length (p_data (weight l)) =? length (p_data (bias l)))%nat
  then Ok (map (affine (p_data (weight l)) (p_data (bias l))) x)
  else Raise RuntimeError.

(** [nn.Tanh.forward] *)
Definition Tanh_forward (x : matrix) : matrix := map (map tanh) x.

Definition sigmoid (z : R) : R := 1 / (1 + exp (- z)).

End NN.

(** [SimpleClassifier.__init__(num_inputs, num_hidden, num_outputs)]; a
    new module is in training mode. *)
Definition SimpleClassifier_init (num_inputs num_hidden num_outputs : nat)
           (d1 d2 : init_draw) : SimpleClassifier :=
  {| linear1 := NN.Linear_init num_inputs num_hidden d1;
     linear2 := NN.Linear_init num_hidden num_outputs d2;
     training := true |}.

(** [SimpleClassifier.forward]: an error of a layer leaves the function. *)
Definition forward (self : SimpleClassifier) (x : matrix) : result matrix :=
  match NN.Linear_forward (linear1 self) x with
  | Raise e => Raise e
  | Ok x =>
      let x := NN.Tanh_forward x in
      match NN.Linear_forward (linear2 self) x with
      | Raise e => Raise e
      | Ok x => Ok x
      end
  end.

(** The same function applied to the four parameters of a classifier. *)
Definition Linear_map
           (f : forall T : Type, Elementwise T -> Param T -> Param T)
           (l : Linear) : Linear :=
  {| weight := f _ _ (weight l); bias := f _ _ (bias l) |}.

Definition parameters_map
           (f : forall T : Type, Elementwise T -> Param T -> Param T)
           (m : SimpleClassifier) : SimpleClassifier :=
  {| linear1 := Linear_map f (linear1 m);
     linear2 := Linear_map f (linear2 m);
     training := training m |}.

(** ** Loss modules *)

(** A loss module maps an input, of one or two dimensions, and the 1-D
    target of the labels to a scalar, or refuses them; [loss_backward] is
    the gradient of that scalar with respect to the input, of the shape of
    the input, which the backward pass propagates when the module has
    accepted the input. *)
Record LossModule : Type := {
  loss_forward : Tensor -> vector -> result R;
  loss_backward : Tensor -> vector -> Tensor
}.

Definition mean (v : vector) : R := fold_right Rplus 0 v / INR (length v).

Module Loss.

(** Binary cross entropy of one prediction [x] of [0, 1] against the
    label [y], as the notebook defines it. *)
Definition bce (x y : R) : R := - (y * ln x + (1 - y) * ln (1 - x)).

(** Modelled from the spec: the body of [nn.BCEWithLogitsLoss] is
    PyTorch's and is not among the sources.  The notebook describes it
    as a sigmoid layer combined with the BCE loss; the reduction over
    the batch is the mean.  The module raises [ValueError] unless the
    target has the size of the input: an input of two dimensions never
    has the size of the 1-D target, and an input of one dimension has it
    when the lengths agree.  No gradient is asked for an input that the
    module has refused; what [loss_backward] gives there is of no
    consequence. *)
Definition BCEWithLogitsLoss : LossModule := {|
  loss_forward := fun input target =>
    match input with
    | Tensor1 z =>
        if (length z =? length target)%nat
        then Ok (mean (map (fun zy => bce (NN.sigmoid (fst zy)) (snd zy))
                           (combine z target)))
        else Raise ValueError
    | Tensor2 _ => Raise ValueError
    end;
  loss_backward := fun input target =>
    match input with
    | Tensor1 z =>
        Tensor1 (map (fun zy => (NN.sigmoid (fst zy) - snd zy) / INR (length z))
                     (combine z target))
    | Tensor2 m => Tensor2 (zeros_like m)
    end
|}.

(** The numerically stable form of the specification, per sample and
    averaged over the batch. *)
Definition bce_with_logits_stable (z y : R) : R :=
  Rmax z 0 - z * y + ln (1 + exp (- Rabs z)).

Definition mean_bce_with_logits_stable (z y : vector) : R :=
  mean (map (fun zy => bce_with_logits_stable (fst zy) (snd zy))
            (combine z y)).

End Loss.

(** ** The backward pass through the classifier *)

Record Grads : Type := {
  g_linear1_weight : matrix;
  g_linear1_bias : vector;
  g_linear2_weight : matrix;
  g_linear2_bias : vector
}.

Module Backward.

Definition outer (g x : vector) : matrix :=
  map (fun gj => map (fun xk => gj * xk) x) g.

(** [W^T g], shaped like [x]. *)
Definition transpose_apply (W : matrix) (g : vector) (x : vector) : vector :=
  fold_left (fun acc gw => add_ acc (map (Rmult (fst gw)) (snd gw)))
            (combine g W) (zeros_like x).

(** The backward pass of [squeeze(dim=1)]: the gradient of a squeezed
    output gets its dimension 1 back, one row of one entry per sample; the
    gradient of an output that was not squeezed is passed on as it is. *)
Definition unsqueeze_dim1 (g : Tensor) : matrix :=
  match g with
  | Tensor1 u => map (fun ui => [ui]) u
  | Tensor2 G => G
  end.

(** Modelled from the spec: reverse-mode differentiation through the two
    affine layers and the tanh, in closed form, for one sample [x] whose
    row of outputs receives the gradient [g_out]. *)
Definition sample_grads (m : SimpleClassifier) (x : vector) (g_out : vector)
  : Grads :=
  let W1 := p_data (weight (linear1 m)) in
  let b1 := p_data (bias (linear1 m)) in
  let W2 := p_data (weight (linear2 m)) in
  let a := map tanh (NN.affine W1 b1 x) in
  let g_a := transpose_apply W2 g_out a in
  let g_h := map (fun ga => fst ga * (1 - snd ga * snd ga)) (combine g_a a) in
  {| g_linear1_weight := outer g_h x;
     g_linear1_bias := g_h;
     g_linear2_weight := outer g_out a;
     g_linear2_bias := g_out |}.

Definition grads_zero (m : SimpleClassifier) : Grads :=
  {| g_linear1_weight := zeros_like (p_data (weight (linear1 m)));
     g_linear1_bias := zeros_like (p_data (bias (linear1 m)));
     g_linear2_weight := zeros_like (p_data (weight (linear2 m)));
     g_linear2_bias := zeros_like (p_data (bias (linear2 m))) |}.

Definition grads_add (a b : Grads) : Grads :=
  {| g_linear1_weight := add_ (g_linear1_weight a) (g_linear1_weight b);
     g_linear1_bias := add_ (g_linear1_bias a) (g_linear1_bias b);
     g_linear2_weight := add_ (g_linear2_weight a) (g_linear2_weight b);
     g_linear2_bias := add_ (g_linear2_bias a) (g_linear2_bias b) |}.

(** The gradient of a batch is the sum of the gradients of its samples;
    it has the shapes of the parameters.  [g] holds one row of output
    gradients per sample. *)
Definition batch_grads (m : SimpleClassifier) (x : matrix) (g : matrix)
  : Grads :=
  fold_left (fun acc xg => grads_add acc (sample_grads m (fst xg) (snd xg)))
            (combine x g) (grads_zero m).

(** The gradients are added to the ones the parameters hold. *)
Definition accumulate_grads (g : Grads) (m : SimpleClassifier)
  : SimpleClassifier :=
  {| linear1 :=
       {| weight := Autograd.accumulate (weight (linear1 m)) (g_linear1_weight g);
          bias := Autograd.accumulate (bias (linear1 m)) (g_linear1_bias g) |};
     linear2 :=
       {| weight := Autograd.accumulate (weight (linear2 m)) (g_linear2_weight g);
          bias := Autograd.accumulate (bias (linear2 m)) (g_linear2_bias g) |};
     training := training m |}.

End Backward.

(** ** The state the loops act on

    [net] is the model object, shared by the caller, the optimizer (which
    was built from [model.parameters()]) and the autograd graph;
    [grad_enabled] is PyTorch's gradient mode; [trace] records the calls
    made and the values printed, oldest first. *)

(** The outcome of a float division: tensors divide by zero silently. *)
Inductive quotient : Type :=
| Finite (r : R)
| NaN
| Inf.

Inductive event : Type :=
| EvNextBatch (idxs : list nat)
| EvForward (x : matrix)
| EvLoss
| EvZeroGrad
| EvBackward
| EvStep
| EvPrint (acc : quotient).

Record World : Type := {
  net : SimpleClassifier;
  grad_enabled : bool;
  trace : list event
}.

Definition M (A : Type) : Type := World -> result A * World.

Definition ret {A : Type} (a : A) : M A := fun w => (Ok a, w).

Definition raise {A : Type} (e : exn) : M A := fun w => (Raise e, w).

Definition bind {A B : Type} (c : M A) (k : A -> M B) : M B :=
  fun w =>
    match c w with
    | (Ok a, w') => k a w'
    | (Raise e, w') => (Raise e, w')
    end.

Notation "x <- c ;; k" := (bind c (fun x => k))
  (at level 61, c at next level, right associativity).
Notation "c ;; k" := (bind c (fun _ => k))
  (at level 61, right associativity).

Definition lift {A : Type} (r : result A) : M A := fun w => (r, w).

Definition log (e : event) : M unit :=
  fun w => (Ok tt, {| net := net w; grad_enabled := grad_enabled w;
                      trace := trace w ++ [e] |}).

Definition update_net (f : SimpleClassifier -> SimpleClassifier) : M unit :=
  fun w => (Ok tt, {| net := f (net w); grad_enabled := grad_enabled w;
                      trace := trace w |}).

Definition set_grad_enabled (b : bool) (w : World) : World :=
  {| net := net w; grad_enabled := b; trace := trace w |}.

(** [for x in l: body(x)] *)
Fixpoint for_each {X : Type} (l : list X) (body : X -> M unit) : M unit :=
  match l with
  | [] => ret tt
  | x :: rest => body x ;; for_each rest body
  end.

(** [for x in l: s = body(s, x)], for a loop that updates local variables. *)
Fixpoint for_fold {X S : Type} (l : list X) (s : S) (body : S -> X -> M S)
  : M S :=
  match l with
  | [] => ret s
  | x :: rest => s' <- body s x ;; for_fold rest s' body
  end.

(** [with torch.no_grad(): body]: the gradient mode is switched off for the
    body and restored on exit, also when the body raises. *)
Definition with_no_grad {A : Type} (body : M A) : M A :=
  fun w =>
    let (r, w') := body (set_grad_enabled false w) in
    (r, set_grad_enabled (grad_enabled w) w').

(** What a forward call saves for the backward pass: the module with the
    parameter values it used, and the input. *)
Record ForwardGraph : Type := {
  saved_model : SimpleClassifier;
  saved_input : matrix
}.

Record Tracked (T : Type) : Type := {
  value : T;
  grad_fn : option ForwardGraph
}.

Record LossTensor : Type := {
  loss_value : R;
  loss_grad_fn : option (ForwardGraph * Tensor)
}.

Module Calls.

(** [model.train()] and [model.eval()] *)
Definition set_training (b : bool) (m : SimpleClassifier) : SimpleClassifier :=
  {| linear1 := linear1 m; linear2 := linear2 m; training := b |}.

Definition model_train : M unit := update_net (set_training true).
Definition model_eval : M unit := update_net (set_training false).

(** The next batch of a traversal: the samples at [idxs], stacked. *)
Definition next_batch (dl : DataLoader) (idxs : list nat)
  : M (matrix * list Z) :=
  log (EvNextBatch idxs) ;;
  samples <- lift (Loader.fetch (dataset dl) idxs) ;;
  ret (Loader.collate samples).

(** [model(data_inputs)]: the graph is recorded only in gradient mode; a
    shape error of the forward pass leaves the call. *)
Definition model_call (x : matrix) : M (Tracked matrix) :=
  log (EvForward x) ;;
  fun w =>
    match forward (net w) x with
    | Raise e => (Raise e, w)
    | Ok out =>
        (Ok {| value := out;
               grad_fn := if grad_enabled w
                          then Some {| saved_model := net w; saved_input := x |}
                          else None |}, w)
    end.

(** [preds.squeeze(dim=1)]: an output of shape [B, 1] becomes a tensor of
    shape [B]; an output of another width is returned as it is.  An
    output without rows records no width and is taken to have one
    column. *)
Definition squeeze_dim1 (preds : Tracked matrix) : Tracked Tensor :=
  {| value := if forallb (fun row => (length row =? 1)%nat) (value preds)
              then Tensor1 (map (fun row => nth 0 row 0) (value preds))
              else Tensor2 (value preds);
     grad_fn := grad_fn preds |}.

(** [loss_module(preds, target)]: an error of the module leaves the call. *)
Definition loss_call (loss_module : LossModule) (preds : Tracked Tensor)
           (target : vector) : M LossTensor :=
  log EvLoss ;;
  l <- lift (loss_forward loss_module (value preds) target) ;;
  ret {| loss_value := l;
         loss_grad_fn :=
           option_map (fun g => (g, loss_backward loss_module (value preds) target))
                      (grad_fn preds) |}.

(** [loss.backward()]: a tensor without a graph cannot be differentiated. *)
Definition backward (loss : LossTensor) : M unit :=
  log EvBackward ;;
  match loss_grad_fn loss with
  | None => raise RuntimeError
  | Some (g, u) =>
      update_net (Backward.accumulate_grads
                    (Backward.batch_grads (saved_model g) (saved_input g)
                                          (Backward.unsqueeze_dim1 u)))
  end.

End Calls.

(** ** torch.optim.SGD *)

Record SGD : Type := { lr : R }.

Module Optimizer.

Definition zero_grad (optimizer : SGD) : M unit :=
  log EvZeroGrad ;;
  update_net (parameters_map (fun T _ p => Autograd.zero_ p)).

Definition step (optimizer : SGD) : M unit :=
  log EvStep ;;
  update_net (parameters_map (fun T _ p => Autograd.sgd_update (lr optimizer) p)).

End Optimizer.

(** ** train_model *)

Definition train_step (optimizer : SGD) (data_loader : DataLoader)
           (loss_module : LossModule) (idxs : list nat) : M unit :=
  batch <- Calls.next_batch data_loader idxs ;;
  let data_inputs := fst batch in
  let data_labels := snd batch in
  preds <- Calls.model_call data_inputs ;;
  let preds := Calls.squeeze_dim1 preds in
  loss <- Calls.loss_call loss_module preds (map IZR data_labels) ;;
  Optimizer.zero_grad optimizer ;;
  Calls.backward loss ;;
  Optimizer.step optimizer.

(** [perms epoch] is the permutation drawn for the traversal of that epoch
    (used only by a shuffling loader). *)
Definition train_model (optimizer : SGD) (data_loader : DataLoader)
           (loss_module : LossModule) (num_epochs : Z)
           (perms : nat -> list nat) : M unit :=
  Calls.model_train ;;
  for_each (seq 0 (Z.to_nat num_epochs)) (fun epoch =>
    for_each (Loader.index_batches data_loader (perms epoch))
             (train_step optimizer data_loader loss_module)).

(** ** eval_model *)

(** A Python float, or a tensor holding one number: [true_preds] starts as
    the former and becomes the latter at the first [+=] of a tensor. *)
Inductive scalar : Type :=
| PyFloat (r : R)
| Tensor0 (r : R).

Definition scalar_value (s : scalar) : R :=
  match s with PyFloat r => r | Tensor0 r => r end.

(** [s + t] for a tensor [t]: the sum is a tensor. *)
Definition add_tensor (s : scalar) (t : R) : scalar :=
  Tensor0 (scalar_value s + t).

(** [true_preds / num_preds], where [num_preds] is a Python float. *)
Definition true_divide (true_preds : scalar) (num_preds : R) : result quotient :=
  match true_preds with
  | PyFloat t =>
      if Req_dec_T num_preds 0 then Raise ZeroDivisionError
      else Ok (Finite (t / num_preds))
  | Tensor0 t =>
      if Req_dec_T num_preds 0
      then Ok (if Req_dec_T t 0 then NaN else Inf)
      else Ok (Finite (t / num_preds))
  end.

(** [(preds >= 0.5).long()], on a row. *)
Definition binarize (preds : vector) : list Z :=
  map (fun p => if Rge_dec p (1 / 2) then 1%Z else 0%Z) preds.

(** [(a == b).sum()] for 1-D tensors: the comparison is entry by entry
    when the sizes agree; a tensor of size 1 is broadcast over the other;
    other sizes raise [RuntimeError]. *)
Definition count_equal (a b : list Z) : result nat :=
  if (length a =? length b)%nat
  then Ok (length (filter (fun ab => Z.eqb (fst ab) (snd ab)) (combine a b)))
  else if (length b =? 1)%nat
  then Ok (length (filter (fun ai => Z.eqb ai (hd 0%Z b)) a))
  else if (length a =? 1)%nat
  then Ok (length (filter (fun bi => Z.eqb (hd 0%Z a) bi) b))
  else Raise RuntimeError.

(** The same for a tensor [a] of two dimensions: the 1-D tensor [b] is
    broadcast along the rows of [a], and every row is compared with it. *)
Fixpoint count_equal_rows (a : list (list Z)) (b : list Z) : result nat :=
  match a with
  | [] => Ok 0%nat
  | row :: rest =>
      match count_equal row b with
      | Raise e => Raise e
      | Ok n =>
          match count_equal_rows rest b with
          | Raise e => Raise e
          | Ok k => Ok (n + k)%nat
          end
      end
  end.

(** [(pred_labels == data_labels).sum()] *)
Definition eq_sum (pred_labels : tensor Z) (data_labels : list Z)
  : result nat :=
  match pred_labels with
  | Tensor1 v => count_equal v data_labels
  | Tensor2 m => count_equal_rows m data_labels
  end.

Definition eval_batch (data_loader : DataLoader) (counts : scalar * R)
           (idxs : list nat) : M (scalar * R) :=
  let true_preds := fst counts in
  let num_preds := snd counts in
  batch <- Calls.next_batch data_loader idxs ;;
  let data_inputs := fst batch in
  let data_labels := snd batch in
  preds <- Calls.model_call data_inputs ;;
  let preds := Calls.squeeze_dim1 preds in
  let preds := tensor_map (map NN.sigmoid) (value preds) in
  let pred_labels := tensor_map binarize preds in
  matches <- lift (eq_sum pred_labels data_labels) ;;
  let true_preds := add_tensor true_preds (INR matches) in
  let num_preds := num_preds + INR (length data_labels) in
  ret (true_preds, num_preds).

(** [print(f"Accuracy of the model: {100.0*acc:4.2f}%")]: the event
    carries [acc]; the text shows it as a percentage. *)
Definition print_accuracy (acc : quotient) : M unit := log (EvPrint acc).

(** The function computes [acc], prints it and returns nothing.  [perm] is
    the permutation drawn for the traversal (used only by a shuffling
    loader). *)
Definition eval_model (data_loader : DataLoader) (perm : list nat) : M unit :=
  Calls.model_eval ;;
  counts <- with_no_grad
              (for_fold (Loader.index_batches data_loader perm)
                        (PyFloat 0, 0) (eval_batch data_loader)) ;;
  acc <- lift (true_divide (fst counts) (snd counts)) ;;
  print_accuracy acc.

(** ** state_dict, load_state_dict, torch.save and torch.load *)

(** The shape of a tensor; a matrix without rows records no width. *)
Definition shape (t : Tensor) : list nat :=
  match t with
  | Tensor1 v => [length v]
  | Tensor2 m => [length m; length (hd [] m)]
  end.

Definition OrderedDict : Type := list (string * Tensor).

Module Persist.

Definition shape_eqb (a b : list nat) : bool :=
  if list_eq_dec Nat.eq_dec a b then true else false.

Fixpoint lookup (key : string) (d : OrderedDict) : option Tensor :=
  match d with
  | [] => None
  | (k, t) :: rest => if String.eqb key k then Some t else lookup key rest
  end.

(** Modelled from the spec: [Module.state_dict] is PyTorch's and is not
    among the sources.  It is the named mapping from the names of the
    parameter tensors to their contents and shapes, in registration order. *)
Definition state_dict (m : SimpleClassifier) : OrderedDict :=
  [ ("linear1.weight"%string, Tensor2 (p_data (weight (linear1 m))));
    ("linear1.bias"%string, Tensor1 (p_data (bias (linear1 m))));
    ("linear2.weight"%string, Tensor2 (p_data (weight (linear2 m))));
    ("linear2.bias"%string, Tensor1 (p_data (bias (linear2 m)))) ].

Definition keys : list string :=
  [ "linear1.weight"%string; "linear1.bias"%string;
    "linear2.weight"%string; "linear2.bias"%string ].

(** [param.copy_(input)]: the contents are overwritten, the gradient is
    kept. *)
Definition copy_ {T : Type} (p : Param T) (input : T) : Param T :=
  {| p_data := input; p_grad := p_grad p |}.

Definition load_matrix (key : string) (p : Param matrix) (d : OrderedDict)
  : result (Param matrix) :=
  match lookup key d with
  | Some (Tensor2 input) =>
      if shape_eqb (shape (Tensor2 input)) (shape (Tensor2 (p_data p)))
      then Ok (copy_ p input) else Raise RuntimeError
  | _ => Raise RuntimeError
  end.

Definition load_vector (key : string) (p : Param vector) (d : OrderedDict)
  : result (Param vector) :=
  match lookup key d with
  | Some (Tensor1 input) =>
      if shape_eqb (shape (Tensor1 input)) (shape (Tensor1 (p_data p)))
      then Ok (copy_ p input) else Raise RuntimeError
  | _ => Raise RuntimeError
  end.

(** Modelled from the spec: [Module.load_state_dict] is PyTorch's and is
    not among the sources.  It overwrites the parameters of the module
    with the values of the mapping; a missing name, an unexpected name or
    a tensor of another shape is an error. *)
Definition load_state_dict (self : SimpleClassifier) (d : OrderedDict)
  : result SimpleClassifier :=
  if negb (forallb (fun kt => existsb (String.eqb (fst kt)) keys) d)
  then Raise RuntimeError
  else
    match load_matrix "linear1.weight" (weight (linear1 self)) d,
          load_vector "linear1.bias" (bias (linear1 self)) d,
          load_matrix "linear2.weight" (weight (linear2 self)) d,
          load_vector "linear2.bias" (bias (linear2 self)) d with
    | Ok w1, Ok b1, Ok w2, Ok b2 =>
        Ok {| linear1 := {| weight := w1; bias := b1 |};
              linear2 := {| weight := w2; bias := b2 |};
              training := training self |}
    | _, _, _, _ => Raise RuntimeError
    end.

(** The files written by [torch.save]: the object stored under each
    name, latest first. *)
Definition files : Type := list (string * OrderedDict).

Definition torch_save (obj : OrderedDict) (filename : string) (fs : files)
  : files := (filename, obj) :: fs.

Fixpoint torch_load (filename : string) (fs : files) : result OrderedDict :=
  match fs with
  | [] => Raise FileNotFoundError
  | (name, obj) :: rest =>
      if String.eqb filename name then Ok obj else torch_load filename rest
  end.

End Persist.

(** ** Vocabulary of the statements *)

(** The clean bit (i, j), as the float the generator stores. *)
Definition clean_bit (g : rng) (i j : nat) : R :=
  Torch.bit_to_float (randint_draw g i j).

Definition xor_label (b0 b1 : bool) : Z := if xorb b0 b1 then 1%Z else 0%Z.

(** A generator whose first sample has the clean bits (0, 1) and whose
    second sample has the clean bits (1, 1). *)
Definition rng_example : rng := {|
  randint_draw := fun i j => match i, j with
                             | 0%nat, 0%nat => false
                             | _, _ => true
                             end;
  randn_draw := fun _ _ => 1 / 4
|}.

(** A dataset of ten samples, all with the clean bits (0, 0) and no noise. *)
Definition dataset_example : XORDataset := {|
  size := 10;
  std := 0;
  data := repeat [0; 0] 10;
  label := repeat 0%Z 10
|}.

(** The number of slices of a sequence of length [n]. *)
Definition ceil_div (b n : nat) : nat := ((n + b - 1) / b)%nat.

(** One forward pass, its loss and the backward pass: steps 2 to 4 of the
    training loop without the reset of the gradients. *)
Definition forward_backward (loss_module : LossModule) (x : matrix)
           (y : vector) : M unit :=
  preds <- Calls.model_call x ;;
  let preds := Calls.squeeze_dim1 preds in
  loss <- Calls.loss_call loss_module preds y ;;
  Calls.backward loss.

(** The gradients the four parameters hold. *)
Definition grads_of (m : SimpleClassifier)
  : option matrix * option vector * option matrix * option vector :=
  (p_grad (weight (linear1 m)), p_grad (bias (linear1 m)),
   p_grad (weight (linear2 m)), p_grad (bias (linear2 m))).

Definition some_grads (g : Grads)
  : option matrix * option vector * option matrix * option vector :=
  (Some (g_linear1_weight g), Some (g_linear1_bias g),
   Some (g_linear2_weight g), Some (g_linear2_bias g)).

(** The values of the four parameters. *)
Definition values_of (m : SimpleClassifier)
  : matrix * vector * matrix * vector :=
  (p_data (weight (linear1 m)), p_data (bias (linear1 m)),
   p_data (weight (linear2 m)), p_data (bias (linear2 m))).

(** A parameter whose gradient is cleared: it has none yet, or it holds
    zeros of its own shape. *)
Definition cleared {T : Type} `{Elementwise T} (p : Param T) : Prop :=
  p_grad p = None \/ p_grad p = Some (zeros_like (p_data p)).

Definition grads_cleared (m : SimpleClassifier) : Prop :=
  cleared (weight (linear1 m)) /\ cleared (bias (linear1 m)) /\
  cleared (weight (linear2 m)) /\ cleared (bias (linear2 m)).

(** The row of outputs of one sample, and its logit: the single output of
    a classifier that has one. *)
Definition output_of (m : SimpleClassifier) (x : vector) : vector :=
  NN.affine (p_data (weight (linear2 m))) (p_data (bias (linear2 m)))
            (map tanh (NN.affine (p_data (weight (linear1 m)))
                                 (p_data (bias (linear1 m))) x)).

Definition logit_of (m : SimpleClassifier) (x : vector) : R :=
  nth 0 (output_of m x) 0.

(** The gradient one backward pass computes for the batch [x], [y] at the
    parameter values of [m], for a classifier with one output. *)
Definition pass_grads (loss_module : LossModule) (m : SimpleClassifier)
           (x : matrix) (y : vector) : Grads :=
  let logits := map (logit_of m) x in
  Backward.batch_grads m x
    (Backward.unsqueeze_dim1 (loss_backward loss_module (Tensor1 logits) y)).

(** A layer whose parameters have the shapes [nn.Linear(i, o)] gives them:
    a weight of [o] rows of [i] entries and a bias of [o] entries. *)
Definition Linear_shaped (i o : nat) (l : Linear) : Prop :=
  length (p_data (weight l)) = o /\
  Forall (fun row => length row = i) (p_data (weight l)) /\
  length (p_data (bias l)) = o.

(** A classifier with the shapes of [SimpleClassifier(i, h, o)]. *)
Definition classifier_shaped (i h o : nat) (m : SimpleClassifier) : Prop :=
  Linear_shaped i h (linear1 m) /\ Linear_shaped h o (linear2 m).

(** A dataset whose points have [i] features. *)
Definition features_width (i : nat) (ds : XORDataset) : Prop :=
  Forall (fun row => length row = i) (data ds).

(** A loss module that accepts a 1-D input with a target of its size. *)
Definition accepts_equal_sizes (loss_module : LossModule) : Prop :=
  forall z y : vector,
    length z = length y ->
    exists l : R, loss_forward loss_module (Tensor1 z) y = Ok l.

(** A freshly constructed classifier with two inputs, two hidden units and
    one output, and the world in which it is about to be trained. *)
Definition init_example_1 : init_draw := {|
  w0 := fun j k => if Nat.eqb j k then 1 else 0;
  b0 := fun _ => 0
|}.

Definition init_example_2 : init_draw := {|
  w0 := fun _ _ => 1;
  b0 := fun _ => 0
|}.

Definition classifier_example : SimpleClassifier :=
  SimpleClassifier_init 2 2 1 init_example_1 init_example_2.

Definition world_example : World := {|
  net := classifier_example;
  grad_enabled := true;
  trace := []
|}.

(** The batch at the indices [idxs] of a dataset that holds them all. *)
Definition batch_of (ds : XORDataset) (idxs : list nat) : matrix * list Z :=
  Loader.collate (map (fun i => (nth i (data ds) [], nth i (label ds) 0%Z)) idxs).

(** Every index the loader hands out in a traversal is in the dataset. *)
Definition loader_in_range (dl : DataLoader) (perm : list nat) : Prop :=
  Forall (Forall (fun i => (i < length (data (dataset dl)))%nat /\
                           (i < length (label (dataset dl)))%nat))
         (Loader.index_batches dl perm).

(** The calls of one training step on the batch at [idxs], in order. *)
Definition step_events (ds : XORDataset) (idxs : list nat) : list event :=
  [EvNextBatch idxs; EvForward (fst (batch_of ds idxs)); EvLoss;
   EvZeroGrad; EvBackward; EvStep].

(** The effect of one training step on the model: the gradient of the
    loss at the current values, taken after the old gradients are zeroed,
    then the SGD update. *)
Definition step_net (optimizer : SGD) (loss_module : LossModule)
           (ds : XORDataset) (m : SimpleClassifier) (idxs : list nat)
  : SimpleClassifier :=
  let batch := batch_of ds idxs in
  let g := pass_grads loss_module m (fst batch) (map IZR (snd batch)) in
  let m := parameters_map (fun T _ p => Autograd.zero_ p) m in
  let m := Backward.accumulate_grads g m in
  parameters_map (fun T _ p => Autograd.sgd_update (lr optimizer) p) m.

Definition step_world (optimizer : SGD) (loss_module : LossModule)
           (ds : XORDataset) (w : World) (idxs : list nat) : World :=
  {| net := step_net optimizer loss_module ds (net w) idxs;
     grad_enabled := grad_enabled w;
     trace := trace w ++ step_events ds idxs |}.

(** A parameter whose gradient, if it has one, has the shape of its
    value. *)
Definition shaped_vector (p : Param vector) : Prop :=
  match p_grad p with
  | None => True
  | Some a => length a = length (p_data p)
  end.

Definition shaped_matrix (p : Param matrix) : Prop :=
  match p_grad p with
  | None => True
  | Some a => map (@length R) a = map (@length R) (p_data p)
  end.

Definition grads_shaped (m : SimpleClassifier) : Prop :=
  shaped_matrix (weight (linear1 m)) /\ shaped_vector (bias (linear1 m)) /\
  shaped_matrix (weight (linear2 m)) /\ shaped_vector (bias (linear2 m)).

(** parameter -= learning_rate * gradient, on the four values. *)
Definition sgd_values (lr : R) (m : SimpleClassifier) (g : Grads)
  : matrix * vector * matrix * vector :=
  (sub_scaled_ lr (p_data (weight (linear1 m))) (g_linear1_weight g),
   sub_scaled_ lr (p_data (bias (linear1 m))) (g_linear1_bias g),
   sub_scaled_ lr (p_data (weight (linear2 m))) (g_linear2_weight g),
   sub_scaled_ lr (p_data (bias (linear2 m))) (g_linear2_bias g)).

(** A loader over the ten samples, four per batch, in natural order. *)
Definition loader_example : DataLoader := {|
  dataset := dataset_example;
  batch_size := 4;
  shuffle := false;
  drop_last := false
|}.

(** The dataset without samples and a loader over it. *)
Definition dataset_empty : XORDataset := {|
  size := 0;
  std := 1 / 10;
  data := [];
  label := []
|}.

Definition loader_empty : DataLoader := {|
  dataset := dataset_empty;
  batch_size := 128;
  shuffle := false;
  drop_last := false
|}.

(** The predicted class of one sample (the sigmoid of its logit
    thresholded at 0.5), and whether the prediction for the sample at index
    [i] equals its label. *)
Definition predict (m : SimpleClassifier) (x : vector) : Z :=
  if Rge_dec (NN.sigmoid (logit_of m x)) (1 / 2) then 1%Z else 0%Z.

Definition correct_at (m : SimpleClassifier) (ds : XORDataset) (i : nat) : bool :=
  Z.eqb (predict m (nth i (data ds) [])) (nth i (label ds) 0%Z).

(** The calls an evaluation makes. *)
Definition eval_events (ds : XORDataset) (idxs : list nat) : list event :=
  [EvNextBatch idxs; EvForward (fst (batch_of ds idxs))].

(** The events of reading: fetching a batch, running the forward pass and
    printing. *)
Definition is_read_event (e : event) : Prop :=
  match e with
  | EvNextBatch _ | EvForward _ | EvPrint _ => True
  | _ => False
  end.

(** [w'] differs from [w] by read events only: the two layers, with the
    values and the gradients of their parameters, are the same. *)
Definition read_only (w w' : World) : Prop :=
  linear1 (net w') = linear1 (net w) /\
  linear2 (net w') = linear2 (net w) /\
  exists evs : list event,
    trace w' = trace w ++ evs /\ Forall is_read_event evs.

(** The local variables of the evaluation loop, and the world, after one
    more batch. *)
Definition eval_counts (m : SimpleClassifier) (ds : XORDataset)
           (counts : scalar * R) (idxs : list nat) : scalar * R :=
  (add_tensor (fst counts) (INR (length (filter (correct_at m ds) idxs))),
   snd counts + INR (length idxs)).

Definition eval_world (ds : XORDataset) (w : World) (idxs : list nat) : World :=
  {| net := net w; grad_enabled := grad_enabled w;
     trace := trace w ++ eval_events ds idxs |}.

(** The names and shapes of the parameters of a classifier: its
    architecture. *)
Definition parameter_shapes (m : SimpleClassifier) : list (string * list nat) :=
  map (fun kt => (fst kt, shape (snd kt))) (Persist.state_dict m).

(** A second draw of initial values. *)
Definition init_example_3 : init_draw := {|
  w0 := fun j k => INR (j + k);
  b0 := fun _ => 1
|}.

(** The classifier with one input, one hidden unit and one output. *)
Definition classifier_1_1_1 (w1 c1 w2 c2 : R) : SimpleClassifier := {|
  linear1 := {| weight := {| p_data := [[w1]]; p_grad := None |};
                bias := {| p_data := [c1]; p_grad := None |} |};
  linear2 := {| weight := {| p_data := [[w2]]; p_grad := None |};
                bias := {| p_data := [c2]; p_grad := None |} |};
  training := true
|}.

(** ** visualize_samples *)



(** The calls made to the plotting library. *)
Inductive plot_event : Type :=
| PltFigure
| PltScatter (xs ys : vector) (legend_label : string)
| PltTitle (s : string)
| PltYlabel (s : string)
| PltXlabel (s : string)
| PltLegend.



(** The points a list of plotting calls puts on the figure. *)
Definition scattered (evs : list plot_event) : list (R * R) :=
  flat_map (fun e => match e with
                     | PltScatter xs ys _ => combine xs ys
                     | _ => []
                     end) evs.


(** ** The computation graph of the introduction

    [a = x + 2; b = a ** 2; c = b + 3; y = c.mean()] *)
Definition graph_example (x : vector) : R :=
  let a := map (fun t => t + 2) x in
  let b := map (fun t => t ^ 2) a in
  let c := map (fun t => t + 3) b in
  mean c.

(** [x] with its entry [i] set to [t]. *)
Definition set_entry (i : nat) (t : R) (x : vector) : vector :=
  firstn i x ++ t :: skipn (S i) x.

(** ** The download of the pretrained files *)

Definition CHECKPOINT_PATH : string := "../saved_models/activation".

Definition base_url : string :=
  "https://raw.githubusercontent.com/phlippe/saved_models/main/tutorial3/".

Definition pretrained_files : list string :=
  ["FashionMNIST_elu.config"; "FashionMNIST_elu.tar";
   "FashionMNIST_leakyrelu.config"; "FashionMNIST_leakyrelu.tar";
   "FashionMNIST_relu.config"; "FashionMNIST_relu.tar";
   "FashionMNIST_sigmoid.config"; "FashionMNIST_sigmoid.tar";
   "FashionMNIST_swish.config"; "FashionMNIST_swish.tar";
   "FashionMNIST_tanh.config"; "FashionMNIST_tanh.tar"]%string.

(** [os.path.join(dir, name)] for a relative [name] and a [dir] that does
    not end with a separator. *)
Definition path_join (dir name : string) : string :=
  (dir ++ "/" ++ name)%string.

(** What [urllib.request.urlretrieve] does with a URL: it stores the file,
    raises [HTTPError], or raises another error, which the loop does not
    catch. *)
Inductive retrieve_outcome : Type :=
| Retrieved
| HTTPError
| OtherError.

(** The files that exist, and what was printed. *)
Inductive download_output : Type :=
| Downloading (file_url : string)
| WentWrong (file_url : string).

Record Disk : Type := {
  files_on_disk : list string;
  printed : list download_output
}.

Definition isfile (d : Disk) (path : string) : bool :=
  existsb (String.eqb path) (files_on_disk d).

(** The body of the loop for one file name; [None] when an error that is
    not caught leaves the loop. *)
Definition download_one (urlretrieve : string -> retrieve_outcome)
           (d : Disk) (file_name : string) : option Disk :=
  let file_path := path_join CHECKPOINT_PATH file_name in
  if negb (isfile d file_path) then
    let file_url := (base_url ++ file_name)%string in
    let d := {| files_on_disk := files_on_disk d;
                printed := printed d ++ [Downloading file_url] |} in
    match urlretrieve file_url with
    | Retrieved => Some {| files_on_disk := file_path :: files_on_disk d;
                           printed := printed d |}
    | HTTPError => Some {| files_on_disk := files_on_disk d;
                           printed := printed d ++ [WentWrong file_url] |}
    | OtherError => None
    end
  else Some d.

(** [for file_name in names: ...] *)
Fixpoint download_all (urlretrieve : string -> retrieve_outcome)
         (names : list string) (d : Disk) : option Disk :=
  match names with
  | [] => Some d
  | file_name :: rest =>
      match download_one urlretrieve d file_name with
      | None => None
      | Some d' => download_all urlretrieve rest d'
      end
  end.

Definition download_pretrained (urlretrieve : string -> retrieve_outcome)
           (d : Disk) : option Disk :=
  download_all urlretrieve pretrained_files d.

(** ** Vocabulary of the further properties *)

(** The world after one epoch of training steps, and after all of them. *)
Definition epoch_world (optimizer : SGD) (loss_module : LossModule)
           (dl : DataLoader) (perms : nat -> list nat)
           (w : World) (epoch : nat) : World :=
  fold_left (step_world optimizer loss_module (dataset dl))
            (Loader.index_batches dl (perms epoch)) w.

Definition train_world (optimizer : SGD) (loss_module : LossModule)
           (dl : DataLoader) (num_epochs : Z) (perms : nat -> list nat)
           (w : World) : World :=
  fold_left (epoch_world optimizer loss_module dl perms)
            (seq 0 (Z.to_nat num_epochs))
            {| net := Calls.set_training true (net w);
               grad_enabled := grad_enabled w; trace := trace w |}.

(** A property of the model that a computation keeps, whether it returns
    or raises. *)
Definition keeps (I : SimpleClassifier -> Prop) {A : Type} (c : M A) : Prop :=
  forall w, I (net w) -> I (net (snd (c w))).

(** The number of events of a trace that satisfy a test. *)
Definition count_events (p : event -> bool) (evs : list event) : nat :=
  length (filter p evs).

Definition is_zero_grad (e : event) : bool :=
  match e with EvZeroGrad => true | _ => false end.

Definition is_backward (e : event) : bool :=
  match e with EvBackward => true | _ => false end.

Definition is_step (e : event) : bool :=
  match e with EvStep => true | _ => false end.

(** The accuracy of a model on the samples at the indices [seen]. *)
Definition accuracy (m : SimpleClassifier) (ds : XORDataset)
           (seen : list nat) : R :=
  INR (length (filter (correct_at m ds) seen)) / INR (length seen).

(** A world with more events in its trace. *)
Definition add_events (evs : list event) (w : World) : World :=
  {| net := net w; grad_enabled := grad_enabled w; trace := trace w ++ evs |}.

(** A shuffling loader over the ten samples, three per batch. *)
Definition loader_shuffled_example : DataLoader := {|
  dataset := dataset_example;
  batch_size := 3;
  shuffle := true;
  drop_last := false
|}.

(** A classifier with two outputs, all of whose parameters are zero, and a
    loader over a dataset of one sample, the point (0, 1) with the label
    1. *)
Definition init_zero : init_draw := {|
  w0 := fun _ _ => 0;
  b0 := fun _ => 0
|}.

Definition classifier_two_outputs : SimpleClassifier :=
  SimpleClassifier_init 2 2 2 init_zero init_zero.

Definition dataset_one : XORDataset := {|
  size := 1;
  std := 0;
  data := [[0; 1]];
  label := [1%Z]
|}.

Definition loader_one : DataLoader := {|
  dataset := dataset_one;
  batch_size := 1;
  shuffle := false;
  drop_last := false
|}.

(** A disk without files, and the disk after a run of the download loop in
    which every retrieval succeeds. *)
Definition disk_empty : Disk := {| files_on_disk := []; printed := [] |}.

Definition disk_downloaded : Disk :=
  Eval vm_compute in
    match download_pretrained (fun _ => Retrieved) disk_empty with
    | Some d => d
    | None => disk_empty
    end.

(** * Properties *)

Unset Implicit Arguments.

(** ** Lists *)

Lemma nth_error_map_seq (A : Type) (f : nat -> A) (n i : nat) :
  nth_error (map f (seq 0 n)) i = if i <? n then Some (f i) else None.
Proof.
  destruct (Nat.ltb_spec i n) as [Hlt | Hge].
  - rewrite nth_error_map, nth_error_seq.
    apply Nat.ltb_lt in Hlt. now rewrite Hlt.
  - apply nth_error_None. now rewrite length_map, length_seq.
Qed.

Lemma combine_map_same (A B C : Type) (f : A -> B) (g : A -> C) (l : list A) :
  combine (map f l) (map g l) = map (fun a => (f a, g a)) l.
Proof. induction l as [| a l IH]; simpl; [reflexivity | now rewrite IH]. Qed.

(** ** The dataset generator *)

Lemma generated_fields (size : Z) (std : R) (g : rng) (ds : XORDataset) :
  XORDataset_init size std g = Ok ds ->
  (0 <= size)%Z /\
  label ds = map (fun i => xor_label (randint_draw g i 0) (randint_draw g i 1))
                 (seq 0 (Z.to_nat size)) /\
  data ds = map (fun i => [clean_bit g i 0 + std * randn_draw g i 0;
                           clean_bit g i 1 + std * randn_draw g i 1])
                (seq 0 (Z.to_nat size)) /\
  XORDataset_len ds = size.
Proof.
  unfold XORDataset_init, generate_continuous_xor, Torch.randint_0_2.
  destruct (Z.ltb_spec size 0) as [Hneg | Hpos]; [discriminate |].
  intros H. injection H as <-. simpl.
  split; [exact Hpos |]. split; [| split; [| reflexivity]].
  - unfold Torch.eq1_long, Torch.sum_dim1. rewrite !map_map.
    apply map_ext. intros i. simpl.
    unfold xor_label, Torch.bit_to_float.
    destruct (randint_draw g i 0), (randint_draw g i 1); simpl;
      destruct (Req_dec_T _ 1) as [He | Hne]; try reflexivity; exfalso; lra.
  - unfold Torch.add_scaled, Torch.randn_like.
    rewrite length_map, length_seq, combine_map_same, map_map.
    apply map_ext. intros i. reflexivity.
Qed.

(** C1.  Every sample of a generated dataset carries the XOR of its two
    clean bits as label: the label is 1 exactly when the clean bits sum to
    1, that is when exactly one of them is 1, and 0 exactly when they are
    equal.  The label is taken before the noise is added: a dataset
    generated from the same bits with any other noise and any other
    standard deviation has the same labels. *)
Theorem label_is_xor_of_clean_bits
        (size : Z) (std : R) (g : rng) (ds : XORDataset)
        (idx : nat) (data_point : vector) (data_label : Z) :
  XORDataset_init size std g = Ok ds ->
  XORDataset_getitem ds idx = Ok (data_point, data_label) ->
  let b0 := randint_draw g idx 0 in
  let b1 := randint_draw g idx 1 in
  data_label = xor_label b0 b1 /\
  (data_label = 1%Z <-> clean_bit g idx 0 + clean_bit g idx 1 = 1) /\
  (data_label = 1%Z <->
     (b0 = true /\ b1 = false) \/ (b0 = false /\ b1 = true)) /\
  (data_label = 0%Z <-> b0 = b1) /\
  data_point = [clean_bit g idx 0 + std * randn_draw g idx 0;
                clean_bit g idx 1 + std * randn_draw g idx 1] /\
  (forall (std' : R) (g' : rng) (ds' : XORDataset),
      (forall i j, randint_draw g' i j = randint_draw g i j) ->
      XORDataset_init size std' g' = Ok ds' ->
      label ds' = label ds).
Proof.
  intros Hinit Hget b0 b1.
  destruct (generated_fields _ _ _ _ Hinit) as (_ & Hlabel & Hdata & _).
  unfold XORDataset_getitem in Hget.
  rewrite Hlabel, Hdata, !nth_error_map_seq in Hget.
  destruct (idx <? Z.to_nat size); [| discriminate].
  injection Hget as <- <-. fold b0 b1.
  split; [reflexivity |].
  unfold clean_bit, Torch.bit_to_float. fold b0 b1.
  repeat split.
  - destruct b0, b1; simpl; intros; try discriminate; lra.
  - destruct b0, b1; simpl; intros; try reflexivity; exfalso; lra.
  - destruct b0, b1; simpl; intros; try discriminate; auto.
  - destruct b0, b1; simpl; intros [[? ?] | [? ?]]; try discriminate; reflexivity.
  - destruct b0, b1; simpl; intros; try discriminate; reflexivity.
  - destruct b0, b1; simpl; intros; try discriminate; reflexivity.
  - intros std' g' ds' Hsame Hinit'.
    destruct (generated_fields _ _ _ _ Hinit') as (_ & Hlabel' & _).
    rewrite Hlabel', Hlabel. apply map_ext. intros i.
    now rewrite !Hsame.
Qed.

Lemma label_is_xor_of_clean_bits_witness :
  exists (ds : XORDataset) (data_point : vector) (data_label : Z),
    XORDataset_init 2 (1 / 10) rng_example = Ok ds /\
    XORDataset_getitem ds 0 = Ok (data_point, data_label) /\
    data_label = 1%Z.
Proof.
  eexists. eexists. eexists.
  split; [reflexivity |]. split; [reflexivity |].
  exact (proj1 (label_is_xor_of_clean_bits 2 (1 / 10) rng_example _ 0%nat _ _
                  eq_refl eq_refl)).
Defined.

(** C2, as amended.  The constructor validates neither argument: a negative
    size fails at construction with the runtime error of tensor creation;
    every size >= 0, zero included, and every standard deviation, negative
    included, gives a dataset of exactly [size] samples. *)
Theorem constructor_fails_only_on_negative_size (n : Z) (sigma : R) (g : rng) :
  ((n < 0)%Z /\ XORDataset_init n sigma g = Raise RuntimeError) \/
  ((0 <= n)%Z /\
   exists ds : XORDataset,
     XORDataset_init n sigma g = Ok ds /\
     XORDataset_len ds = n /\
     std ds = sigma /\
     length (data ds) = Z.to_nat n /\
     length (label ds) = Z.to_nat n).
Proof.
  destruct (Z.ltb_spec n 0) as [Hneg | Hpos].
  - left. split; [exact Hneg |].
    unfold XORDataset_init, generate_continuous_xor, Torch.randint_0_2.
    apply Z.ltb_lt in Hneg. now rewrite Hneg.
  - right. split; [exact Hpos |].
    assert (Hex : exists ds, XORDataset_init n sigma g = Ok ds).
    { unfold XORDataset_init, generate_continuous_xor, Torch.randint_0_2.
      apply Z.ltb_ge in Hpos. rewrite Hpos. eexists. reflexivity. }
    destruct Hex as [ds Hds]. exists ds.
    destruct (generated_fields _ _ _ _ Hds) as (_ & Hlabel & Hdata & Hlen).
    repeat split; try assumption.
    + unfold XORDataset_init, generate_continuous_xor, Torch.randint_0_2 in Hds.
      destruct (n <? 0)%Z; [discriminate |]. now injection Hds as <-.
    + now rewrite Hdata, length_map, length_seq.
    + now rewrite Hlabel, length_map, length_seq.
Qed.

(** C2 fails as stated: the size 0 gives an empty dataset, and the standard
    deviation -1 is accepted. *)
Lemma constructor_accepts_zero_size_and_negative_std :
  XORDataset_init 0 (1 / 10) rng_example
  = Ok {| size := 0; std := 1 / 10; data := []; label := [] |} /\
  (-1 < 0 /\ exists ds : XORDataset,
      XORDataset_init 1 (-1) rng_example = Ok ds /\ length (data ds) = 1%nat) /\
  ~ (forall (size : Z) (std : R) (g : rng),
        (size <= 0)%Z \/ std < 0 ->
        exists e : exn, XORDataset_init size std g = Raise e).
Proof.
  split; [reflexivity |]. split.
  - split; [lra |]. eexists. split; reflexivity.
  - intros Hclaim.
    destruct (Hclaim 0%Z (1 / 10) rng_example) as [e He]; [left; lia |].
    discriminate He.
Qed.

(** ** The loader *)

Local Open Scope nat_scope.

Lemma firstn_seq (k start len : nat) :
  firstn k (seq start len) = seq start (Nat.min k len).
Proof.
  revert start len. induction k as [| k IH]; intros start [| len]; simpl;
    try reflexivity.
  now rewrite IH.
Qed.

Lemma filter_ltb_seq (k c : nat) :
  filter (fun i => i <? k) (seq 0 c) = seq 0 (Nat.min k c).
Proof.
  induction c as [| c IH]; [now rewrite Nat.min_0_r |].
  rewrite seq_S, filter_app, IH. simpl.
  destruct (Nat.ltb_spec c k) as [Hlt | Hge].
  - replace (Nat.min k (S c)) with (S c) by lia.
    replace (Nat.min k c) with c by lia. now rewrite seq_S.
  - replace (Nat.min k (S c)) with k by lia.
    replace (Nat.min k c) with k by lia. now rewrite app_nil_r.
Qed.

Section Slices.

Variable b : nat.
Hypothesis b_pos : 0 < b.

Lemma ceil_div_0 : ceil_div b 0 = 0.
Proof. unfold ceil_div. apply Nat.div_small. lia. Qed.

Lemma ceil_div_step (n : nat) : 0 < n -> ceil_div b n = S (ceil_div b (n - b)).
Proof.
  intros Hn. unfold ceil_div.
  destruct (Nat.le_gt_cases b n) as [Hle | Hlt].
  - replace (n + b - 1)%nat with ((n - b + b - 1) + 1 * b)%nat by lia.
    rewrite Nat.div_add by lia. lia.
  - replace (n - b)%nat with 0%nat by lia.
    replace (n + b - 1)%nat with ((n - 1) + 1 * b)%nat by lia.
    rewrite Nat.div_add by lia.
    rewrite (Nat.div_small (n - 1)) by lia.
    rewrite (Nat.div_small (0 + b - 1)) by lia. reflexivity.
Qed.

Lemma floor_le_ceil (n : nat) : n / b <= ceil_div b n.
Proof. unfold ceil_div. apply Nat.Div0.div_le_mono. lia. Qed.

Lemma full_chunk_iff (n i : nat) :
  (Nat.min b (n - i * b) =? b) = (i <? n / b).
Proof.
  destruct (Nat.ltb_spec i (n / b)) as [Hlt | Hge].
  - apply Nat.eqb_eq.
    assert (b * S i <= n).
    { transitivity (b * (n / b))%nat.
      - apply Nat.mul_le_mono_l. lia.
      - apply Nat.Div0.mul_div_le. }
    lia.
  - apply Nat.eqb_neq. intros Hmin.
    assert (Hfull : b * S i <= n) by lia.
    apply (Nat.div_le_lower_bound n b (S i)) in Hfull; lia.
Qed.

Lemma concat_slices (fuel : nat) (order : list nat) :
  length order <= fuel -> concat (Loader.slices fuel b order) = order.
Proof.
  revert order. induction fuel as [| fuel IH]; intros order Hlen.
  - destruct order; [reflexivity | simpl in Hlen; lia].
  - destruct order as [| x rest]; [reflexivity |].
    cbn [Loader.slices concat]. rewrite IH.
    + apply firstn_skipn.
    + rewrite length_skipn. cbn [length] in *. lia.
Qed.

Lemma slices_closed_form (fuel : nat) (order : list nat) :
  length order <= fuel ->
  Loader.slices fuel b order
  = map (fun i => firstn b (skipn (i * b) order))
        (seq 0 (ceil_div b (length order))).
Proof.
  revert order. induction fuel as [| fuel IH]; intros order Hlen.
  - destruct order; [| simpl in Hlen; lia].
    simpl. now rewrite ceil_div_0.
  - destruct order as [| x rest]; [simpl; now rewrite ceil_div_0 |].
    cbn [Loader.slices].
    rewrite (ceil_div_step (length (x :: rest))) by (cbn [length]; lia).
    cbn [seq map]. rewrite <- seq_shift, map_map.
    f_equal. rewrite IH by (rewrite length_skipn; cbn [length] in *; lia).
    rewrite length_skipn. apply map_ext. intros i.
    rewrite skipn_skipn. do 2 f_equal. lia.
Qed.

Lemma slices_of_range (n : nat) :
  Loader.slices n b (seq 0 n)
  = map (fun i => seq (i * b) (Nat.min b (n - i * b))) (seq 0 (ceil_div b n)).
Proof.
  rewrite slices_closed_form by now rewrite length_seq.
  rewrite length_seq. apply map_ext. intros i.
  now rewrite skipn_seq, firstn_seq.
Qed.

Lemma full_slices_of_range (n : nat) :
  filter (fun c => length c =? b) (Loader.slices n b (seq 0 n))
  = map (fun i => seq (i * b) (Nat.min b (n - i * b))) (seq 0 (n / b)).
Proof.
  rewrite slices_of_range, filter_map_swap.
  f_equal.
  rewrite (filter_ext _ (fun i => i <? n / b)).
  - rewrite filter_ltb_seq. f_equal. pose proof (floor_le_ceil n). lia.
  - intros i. rewrite length_seq. apply full_chunk_iff.
Qed.

Lemma concat_full_chunks (k : nat) :
  concat (map (fun i => seq (i * b) b) (seq 0 k)) = seq 0 (k * b).
Proof.
  induction k as [| k IH]; [reflexivity |].
  rewrite seq_S, map_app, concat_app, IH. simpl.
  rewrite app_nil_r, <- seq_app. f_equal. lia.
Qed.

End Slices.

Lemma DataLoader_init_fields (ds : XORDataset) (b : Z) (sh drop : bool)
      (dl : DataLoader) :
  Loader.DataLoader_init ds b sh drop = Ok dl ->
  (0 < b)%Z /\ dataset dl = ds /\ batch_size dl = b /\
  shuffle dl = sh /\ drop_last dl = drop.
Proof.
  unfold Loader.DataLoader_init.
  destruct (Z.leb_spec b 0) as [Hle | Hgt]; [discriminate |].
  intros H. injection H as <-. simpl. repeat split. exact Hgt.
Qed.

(** C3.  A loader that does not shuffle slices the indices 0..n-1, in
    their natural order, into consecutive chunks of the batch size b: batch
    i is the range starting at i*b, of length b or, for the last one, of
    what is left.  Without drop-incomplete the batches cover 0..n-1 exactly
    once, in order, and only the last may be short; with drop-incomplete
    the short chunk is discarded and every batch has b indices.  For n = 10
    and b = 4 without drop the sizes are 4, 4, 2. *)
Theorem sequential_loader_batches
        (ds : XORDataset) (b : Z) (drop : bool) (dl : DataLoader)
        (perm : list nat) :
  Loader.DataLoader_init ds b false drop = Ok dl ->
  let n := Z.to_nat (XORDataset_len ds) in
  let bn := Z.to_nat b in
  let batches := Loader.index_batches dl perm in
  batches = map (fun i => seq (i * bn) (Nat.min bn (n - i * bn)))
                (seq 0 (if drop then n / bn else ceil_div bn n)) /\
  concat batches = seq 0 (if drop then n / bn * bn else n) /\
  Forall (fun c => 0 < length c /\ length c <= bn) batches /\
  (forall i, S i < length batches -> length (nth i batches []) = bn) /\
  (drop = true -> Forall (fun c => length c = bn) batches) /\
  (drop = false -> n mod bn <> 0 ->
   length (last batches []) = n mod bn) /\
  (n = 10 -> bn = 4 -> drop = false ->
   map (@length nat) batches = [4; 4; 2] /\ concat batches = seq 0 10).
Proof.
  intros Hinit n bn batches.
  destruct (DataLoader_init_fields _ _ _ _ _ Hinit)
    as (Hb & Hds & Hbs & Hsh & Hdrop).
  assert (Hbn : 0 < bn) by (unfold bn; lia).
  assert (Hform : batches
                  = map (fun i => seq (i * bn) (Nat.min bn (n - i * bn)))
                        (seq 0 (if drop then n / bn else ceil_div bn n))).
  { unfold batches, Loader.index_batches, Loader.index_order.
    rewrite Hsh, Hds, Hbs, Hdrop, length_seq. fold n bn.
    destruct drop.
    - now apply full_slices_of_range.
    - now apply slices_of_range. }
  assert (Hconcat : concat batches = seq 0 (if drop then n / bn * bn else n)).
  { destruct drop.
    - rewrite Hform.
      rewrite (map_ext_in _ (fun i => seq (i * bn) bn)).
      + now apply concat_full_chunks.
      + intros i Hi. apply in_seq in Hi. f_equal.
        pose proof (full_chunk_iff bn Hbn n i) as Hfull.
        destruct (Nat.ltb_spec i (n / bn)); [| lia].
        now apply Nat.eqb_eq in Hfull.
    - unfold batches, Loader.index_batches, Loader.index_order.
      rewrite Hsh, Hds, Hdrop, Hbs, length_seq. fold n bn.
      apply concat_slices; [exact Hbn | now rewrite length_seq]. }
  assert (Hcount : forall i,
             i < (if drop then n / bn else ceil_div bn n) -> i * bn < n).
  { intros i Hi.
    assert (Hceil : ceil_div bn n * bn < n + bn).
    { unfold ceil_div. pose proof (Nat.Div0.mul_div_le (n + bn - 1) bn). lia. }
    assert (Hfloor : n / bn * bn <= n).
    { pose proof (Nat.Div0.mul_div_le n bn). lia. }
    destruct drop; nia. }
  split; [exact Hform |]. split; [exact Hconcat |].
  split; [| split; [| split; [| split]]].
  - rewrite Hform. apply Forall_forall. intros c Hc.
    apply in_map_iff in Hc. destruct Hc as (i & <- & Hi).
    apply in_seq in Hi. rewrite length_seq.
    pose proof (Hcount i ltac:(lia)). lia.
  - intros i Hi. rewrite Hform in *.
    rewrite length_map, length_seq in Hi.
    rewrite (nth_indep _ [] (seq (0 * bn) (Nat.min bn (n - 0 * bn))))
      by (rewrite length_map, length_seq; lia).
    rewrite (map_nth (fun i => seq (i * bn) (Nat.min bn (n - i * bn)))).
    rewrite seq_nth by lia. rewrite length_seq. simpl.
    pose proof (Hcount (S i) Hi). simpl in *. lia.
  - intros ->. rewrite Hform. apply Forall_forall. intros c Hc.
    apply in_map_iff in Hc. destruct Hc as (i & <- & Hi).
    apply in_seq in Hi. rewrite length_seq.
    pose proof (full_chunk_iff bn Hbn n i) as Hfull.
    destruct (Nat.ltb_spec i (n / bn)); [| lia].
    now apply Nat.eqb_eq in Hfull.
  - intros -> Hmod. rewrite Hform.
    assert (Hk : ceil_div bn n = S (n / bn)).
    { unfold ceil_div.
      pose proof (Nat.div_mod_eq n bn) as Hdm.
      pose proof (Nat.mod_upper_bound n bn ltac:(lia)) as Hub.
      replace (n + bn - 1) with ((n mod bn - 1) + (S (n / bn)) * bn) by lia.
      rewrite Nat.div_add by lia.
      rewrite (Nat.div_small (n mod bn - 1)) by lia. reflexivity. }
    rewrite Hk, seq_S, map_app. simpl. rewrite last_last, length_seq.
    pose proof (Nat.div_mod_eq n bn). pose proof (Nat.mod_upper_bound n bn).
    lia.
  - intros Hn Hb4 ->. rewrite Hconcat, Hform, Hn, Hb4. split; reflexivity.
Qed.

Lemma sequential_loader_batches_witness :
  exists dl : DataLoader,
    Loader.DataLoader_init dataset_example 4 false false = Ok dl /\
    map (@length nat) (Loader.index_batches dl []) = [4; 4; 2] /\
    concat (Loader.index_batches dl []) = seq 0 10.
Proof.
  eexists. split; [reflexivity |].
  exact (proj2 (proj2 (proj2 (proj2 (proj2 (proj2
           (sequential_loader_batches dataset_example 4 false _ [] eq_refl))))))
               eq_refl eq_refl eq_refl).
Defined.

Local Close Scope nat_scope.

(** ** The loss *)

Lemma ln_sigmoid (z : R) : ln (NN.sigmoid z) = - ln (1 + exp (- z)).
Proof.
  unfold NN.sigmoid. pose proof (exp_pos (- z)).
  replace (1 / (1 + exp (- z))) with (/ (1 + exp (- z))) by (field; lra).
  apply ln_Rinv. lra.
Qed.

Lemma ln_one_minus_sigmoid (z : R) :
  ln (1 - NN.sigmoid z) = - z - ln (1 + exp (- z)).
Proof.
  unfold NN.sigmoid. pose proof (exp_pos (- z)) as He.
  replace (1 - 1 / (1 + exp (- z))) with (exp (- z) * / (1 + exp (- z)))
    by (field; lra).
  rewrite ln_mult; [| exact He | apply Rinv_0_lt_compat; lra].
  rewrite ln_exp, ln_Rinv by lra. ring.
Qed.

Lemma ln_one_plus_exp (z : R) : ln (1 + exp z) = z + ln (1 + exp (- z)).
Proof.
  pose proof (exp_pos z) as He. pose proof (exp_pos (- z)) as He'.
  replace (1 + exp z) with (exp z * (1 + exp (- z))).
  - rewrite ln_mult by lra. now rewrite ln_exp.
  - rewrite Rmult_plus_distr_l, <- exp_plus.
    replace (z + - z) with 0 by ring. rewrite exp_0. ring.
Qed.

Lemma bce_sigmoid_is_stable_form (z y : R) :
  Loss.bce (NN.sigmoid z) y = Loss.bce_with_logits_stable z y.
Proof.
  unfold Loss.bce, Loss.bce_with_logits_stable.
  rewrite ln_sigmoid, ln_one_minus_sigmoid.
  destruct (Rle_lt_dec 0 z) as [Hpos | Hneg].
  - rewrite Rmax_left, Rabs_pos_eq by lra. ring.
  - rewrite Rmax_right, Rabs_left by lra.
    rewrite Ropp_involutive, (ln_one_plus_exp z). ring.
Qed.

(** The gradient the loss module hands to the backward pass is the
    derivative of the per-sample loss with respect to the logit. *)
Lemma bce_with_logits_derivative (y z : R) :
  derivable_pt_lim (fun t => Loss.bce (NN.sigmoid t) y) z (NN.sigmoid z - y).
Proof.
  pose proof (exp_pos (- z)) as He.
  apply (derivable_pt_lim_ext
           (plus_fct (comp ln (plus_fct (fct_cte 1) (comp exp (opp_fct id))))
                     (mult_real_fct (1 - y) id))).
  - intros t. unfold plus_fct, comp, fct_cte, opp_fct, mult_real_fct, id,
      Loss.bce.
    rewrite ln_sigmoid, ln_one_minus_sigmoid. ring.
  - replace (NN.sigmoid z - y)
      with (/ (1 + exp (- z)) * (0 + exp (- z) * - 1) + (1 - y) * 1)
      by (unfold NN.sigmoid; field; lra).
    apply derivable_pt_lim_plus.
    + apply derivable_pt_lim_comp.
      * apply derivable_pt_lim_plus; [apply derivable_pt_lim_const |].
        apply derivable_pt_lim_comp.
        -- apply derivable_pt_lim_opp, derivable_pt_lim_id.
        -- apply derivable_pt_lim_exp.
      * apply derivable_pt_lim_ln.
        unfold plus_fct, comp, fct_cte, opp_fct, id. lra.
    + apply derivable_pt_lim_scal, derivable_pt_lim_id.
Qed.

(** C4.  For every batch of logits, of at least one sample, and as many
    labels the loss module returns the binary cross entropy with logits in
    its stable form, max(z,0) - z*y + log(1 + exp(-|z|)) per sample,
    averaged over the batch; the loss the training step computes is this
    very value.  An input of another size than the target, or of two
    dimensions, is refused with [ValueError]. *)
Theorem loss_is_mean_stable_bce_with_logits
        (z y : vector) (preds : Tracked Tensor) (w : World) :
  z <> [] ->
  length z = length y ->
  value preds = Tensor1 z ->
  loss_forward Loss.BCEWithLogitsLoss (Tensor1 z) y
  = Ok (mean (map (fun zy => Rmax (fst zy) 0 - fst zy * snd zy
                             + ln (1 + exp (- Rabs (fst zy))))
                  (combine z y))) /\
  loss_forward Loss.BCEWithLogitsLoss (Tensor1 z) y
  = Ok (Loss.mean_bce_with_logits_stable z y) /\
  (exists (l : LossTensor) (w' : World),
      Calls.loss_call Loss.BCEWithLogitsLoss preds y w = (Ok l, w') /\
      loss_value l = Loss.mean_bce_with_logits_stable z y) /\
  (forall z' : vector,
      length z' <> length y ->
      loss_forward Loss.BCEWithLogitsLoss (Tensor1 z') y = Raise ValueError) /\
  (forall m : matrix,
      loss_forward Loss.BCEWithLogitsLoss (Tensor2 m) y = Raise ValueError).
Proof.
  intros _ Hlen Hpreds.
  assert (Heq : loss_forward Loss.BCEWithLogitsLoss (Tensor1 z) y
                = Ok (Loss.mean_bce_with_logits_stable z y)).
  { cbn [loss_forward Loss.BCEWithLogitsLoss].
    rewrite Hlen, Nat.eqb_refl. unfold Loss.mean_bce_with_logits_stable.
    do 2 f_equal. apply map_ext. intros zy. apply bce_sigmoid_is_stable_form. }
  split; [exact Heq |]. split; [exact Heq |]. split; [| split].
  - unfold Calls.loss_call, bind, log, lift, ret. rewrite Hpreds, Heq.
    eexists. eexists. split; reflexivity.
  - intros z' Hne. cbn [loss_forward Loss.BCEWithLogitsLoss].
    apply Nat.eqb_neq in Hne. now rewrite Hne.
  - intros m. reflexivity.
Qed.

Lemma loss_is_mean_stable_bce_with_logits_witness :
  [3; -2] <> [] /\
  length [3; -2] = length [1; 0] /\
  loss_forward Loss.BCEWithLogitsLoss (Tensor1 [3; -2]) [1; 0]
  = Ok (Loss.mean_bce_with_logits_stable [3; -2] [1; 0]) /\
  loss_forward Loss.BCEWithLogitsLoss (Tensor1 [3; -2; 1]) [1; 0]
  = Raise ValueError.
Proof.
  pose proof (loss_is_mean_stable_bce_with_logits
                [3; -2] [1; 0] {| value := Tensor1 [3; -2]; grad_fn := None |}
                world_example ltac:(discriminate) eq_refl eq_refl)
    as (_ & Heq & _ & Hsize & _).
  split; [discriminate |]. split; [reflexivity |]. split; [exact Heq |].
  apply Hsize. discriminate.
Defined.

(** ** The backward pass on the smallest classifier

    With one input, one hidden unit and one output the logit is
    w2 * tanh (w1 * x + c1) + c2; the four gradients of the backward pass
    are its partial derivatives, scaled by the gradient [u] that reaches
    the logit. *)

Lemma cosh_pos (x : R) : 0 < cosh x.
Proof.
  unfold cosh. pose proof (exp_pos x). pose proof (exp_pos (- x)). lra.
Qed.

Lemma tanh_derivative (x : R) :
  derivable_pt_lim tanh x (1 - tanh x * tanh x).
Proof.
  pose proof (cosh_pos x) as Hc.
  replace (1 - tanh x * tanh x)
    with ((cosh x * cosh x - sinh x * sinh x) / Rsqr (cosh x))
    by (unfold tanh, Rsqr; field; lra).
  apply (derivable_pt_lim_div sinh cosh).
  - apply derivable_pt_lim_sinh.
  - apply derivable_pt_lim_cosh.
  - lra.
Qed.

Lemma logit_1_1_1 (w1 c1 w2 c2 x : R) :
  logit_of (classifier_1_1_1 w1 c1 w2 c2) [x] = w2 * tanh (w1 * x + c1) + c2.
Proof.
  unfold logit_of, NN.affine, dot. cbn.
  replace (w1 * x + 0 + c1) with (w1 * x + c1) by ring. ring.
Qed.

(** The derivative of [t |-> k * tanh (a * t + b) + c]. *)
Lemma affine_tanh_derivative (k a b c t : R) :
  derivable_pt_lim (fun s => k * tanh (a * s + b) + c) t
                   (k * ((1 - tanh (a * t + b) * tanh (a * t + b)) * a)).
Proof.
  apply (derivable_pt_lim_ext
           (plus_fct (mult_real_fct k
                        (comp tanh (plus_fct (mult_real_fct a id) (fct_cte b))))
                     (fct_cte c))).
  - intros s. reflexivity.
  - replace (k * ((1 - tanh (a * t + b) * tanh (a * t + b)) * a))
      with (k * ((1 - tanh (a * t + b) * tanh (a * t + b)) * (a * 1 + 0)) + 0)
      by ring.
    apply derivable_pt_lim_plus; [| apply derivable_pt_lim_const].
    apply derivable_pt_lim_scal.
    apply derivable_pt_lim_comp.
    + apply derivable_pt_lim_plus; [| apply derivable_pt_lim_const].
      apply derivable_pt_lim_scal, derivable_pt_lim_id.
    + apply tanh_derivative.
Qed.

Lemma sample_grads_are_partial_derivatives (w1 c1 w2 c2 x u : R) :
  exists g_w1 g_c1 g_w2 g_c2 : R,
    Backward.sample_grads (classifier_1_1_1 w1 c1 w2 c2) [x] [u]
    = {| g_linear1_weight := [[g_w1]]; g_linear1_bias := [g_c1];
         g_linear2_weight := [[g_w2]]; g_linear2_bias := [g_c2] |} /\
    derivable_pt_lim
      (fun t => u * logit_of (classifier_1_1_1 t c1 w2 c2) [x]) w1 g_w1 /\
    derivable_pt_lim
      (fun t => u * logit_of (classifier_1_1_1 w1 t w2 c2) [x]) c1 g_c1 /\
    derivable_pt_lim
      (fun t => u * logit_of (classifier_1_1_1 w1 c1 t c2) [x]) w2 g_w2 /\
    derivable_pt_lim
      (fun t => u * logit_of (classifier_1_1_1 w1 c1 w2 t) [x]) c2 g_c2.
Proof.
  eexists. eexists. eexists. eexists.
  split; [reflexivity |].
  cbn -[tanh Rmult Rplus Rminus logit_of classifier_1_1_1].
  replace (w1 * x + 0 + c1) with (w1 * x + c1) by ring.
  set (a := tanh (w1 * x + c1)).
  repeat split.
  - apply (derivable_pt_lim_ext
             (mult_real_fct u (fun t => w2 * tanh (x * t + c1) + c2))).
    + intros t. unfold mult_real_fct. rewrite logit_1_1_1.
      now rewrite (Rmult_comm x t).
    + replace ((0 + u * w2) * (1 - a * a) * x)
        with (u * (w2 * ((1 - tanh (x * w1 + c1) * tanh (x * w1 + c1)) * x)))
        by (unfold a; rewrite (Rmult_comm x w1); ring).
      apply derivable_pt_lim_scal, affine_tanh_derivative.
  - apply (derivable_pt_lim_ext
             (mult_real_fct u (fun t => w2 * tanh (1 * t + w1 * x) + c2))).
    + intros t. unfold mult_real_fct. rewrite logit_1_1_1.
      now replace (1 * t + w1 * x) with (w1 * x + t) by ring.
    + replace ((0 + u * w2) * (1 - a * a))
        with (u * (w2 * ((1 - tanh (1 * c1 + w1 * x) * tanh (1 * c1 + w1 * x))
                         * 1)))
        by (unfold a; replace (1 * c1 + w1 * x) with (w1 * x + c1) by ring;
            ring).
      apply derivable_pt_lim_scal, affine_tanh_derivative.
  - apply (derivable_pt_lim_ext
             (mult_real_fct u (plus_fct (mult_real_fct a id) (fct_cte c2)))).
    + intros t. unfold mult_real_fct, plus_fct, fct_cte, id.
      rewrite logit_1_1_1. fold a. ring.
    + replace (u * a) with (u * (a * 1 + 0)) by ring.
      apply derivable_pt_lim_scal, derivable_pt_lim_plus;
        [| apply derivable_pt_lim_const].
      apply derivable_pt_lim_scal, derivable_pt_lim_id.
  - apply (derivable_pt_lim_ext
             (mult_real_fct u (plus_fct (fct_cte (w2 * a)) id))).
    + intros t. unfold mult_real_fct, plus_fct, fct_cte, id.
      rewrite logit_1_1_1. fold a. ring.
    + replace u with (u * (0 + 1)) at 2 by ring.
      apply derivable_pt_lim_scal, derivable_pt_lim_plus;
        [apply derivable_pt_lim_const | apply derivable_pt_lim_id].
Qed.

(** ** Gradient accumulation *)

Lemma zip_left_length (T : Type) (f : T -> T -> T) (a b : list T) :
  length (zip_left f a b) = length a.
Proof.
  revert b. induction a as [| x a IH]; intros [| y b]; simpl; try reflexivity.
  now rewrite IH.
Qed.

Lemma zip_left_shape (T S : Type) (sh : T -> S) (f : T -> T -> T) :
  (forall x y, sh (f x y) = sh x) ->
  forall a b, map sh (zip_left f a b) = map sh a.
Proof.
  intros Hf a. induction a as [| x a IH]; intros [| y b]; simpl;
    try reflexivity.
  now rewrite Hf, IH.
Qed.

Lemma zip_left_zeros (T S : Type) (sh : T -> S) (zero : T -> T)
      (f : T -> T -> T) :
  (forall x y, sh x = sh y -> f (zero x) y = y) ->
  forall a b, map sh a = map sh b -> zip_left f (map zero a) b = b.
Proof.
  intros Hf a. induction a as [| x a IH]; intros [| y b] Hsh; simpl in *;
    try reflexivity; try discriminate.
  injection Hsh as Hxy Hab. now rewrite Hf, IH.
Qed.

Lemma add_zeros_vector (a b : vector) :
  length a = length b -> add_ (zeros_like a) b = b.
Proof.
  intros Hlen. simpl.
  apply (zip_left_zeros _ _ (fun _ : R => tt)).
  - intros x y _. apply Rplus_0_l.
  - revert b Hlen. induction a as [| x a IH]; intros [| y b] Hlen;
      simpl in *; try reflexivity; try discriminate.
    f_equal. apply IH. lia.
Qed.

Lemma add_zeros_matrix (a b : matrix) :
  map (@length R) a = map (@length R) b -> add_ (zeros_like a) b = b.
Proof.
  intros Hsh. simpl.
  apply (zip_left_zeros _ _ (@length R)); [| exact Hsh].
  intros x y Hxy. now apply add_zeros_vector.
Qed.

Lemma add_shape_vector (a b : vector) : length (add_ a b) = length a.
Proof. apply zip_left_length. Qed.

Lemma add_shape_matrix (a b : matrix) :
  map (@length R) (add_ a b) = map (@length R) a.
Proof. apply zip_left_shape. intros x y. apply zip_left_length. Qed.

Lemma zeros_shape_vector (a : vector) : length (zeros_like a) = length a.
Proof. apply length_map. Qed.

Lemma zeros_shape_matrix (a : matrix) :
  map (@length R) (zeros_like a) = map (@length R) a.
Proof.
  simpl. rewrite map_map. apply map_ext. intros x. apply length_map.
Qed.

(** ** Shapes *)

Lemma accepts_true (W : matrix) (x : vector) :
  Forall (fun w => length w = length x) W -> NN.accepts W x = true.
Proof.
  intros HW. unfold NN.accepts. apply forallb_forall. intros w Hw.
  rewrite Forall_forall in HW. apply Nat.eqb_eq. now apply HW.
Qed.

Lemma affine_length (W : matrix) (b x : vector) :
  length W = length b -> length (NN.affine W b x) = length W.
Proof.
  intros Hlen. unfold NN.affine.
  rewrite length_map, length_combine, Hlen. apply Nat.min_id.
Qed.

Lemma Linear_forward_ok (i o : nat) (l : Linear) (x : matrix) :
  Linear_shaped i o l ->
  Forall (fun row => length row = i) x ->
  NN.Linear_forward l x
  = Ok (map (NN.affine (p_data (weight l)) (p_data (bias l))) x).
Proof.
  intros (Ho & HW & Hb) Hx. unfold NN.Linear_forward.
  replace (length (p_data (weight l)) =? length (p_data (bias l)))%nat
    with true by (symmetry; apply Nat.eqb_eq; congruence).
  replace (forallb (NN.accepts (p_data (weight l))) x) with true;
    [reflexivity |].
  symmetry. apply forallb_forall. intros row Hrow.
  rewrite Forall_forall in Hx. apply accepts_true.
  eapply Forall_impl; [| exact HW].
  intros w' Hw'. cbv beta in Hw'. rewrite Hw'. symmetry. now apply Hx.
Qed.

Lemma Linear_forward_rejects (i o : nat) (l : Linear) (x : matrix) :
  Linear_shaped i o l -> (0 < o)%nat ->
  Exists (fun row => length row <> i) x ->
  NN.Linear_forward l x = Raise RuntimeError.
Proof.
  intros (Ho & HW & _) Hpos Hx. unfold NN.Linear_forward.
  replace (forallb (NN.accepts (p_data (weight l))) x) with false;
    [reflexivity |].
  symmetry. apply not_true_is_false. intros Hall.
  rewrite forallb_forall in Hall.
  apply Exists_exists in Hx. destruct Hx as (row & Hin & Hne).
  specialize (Hall row Hin). unfold NN.accepts in Hall.
  rewrite forallb_forall in Hall.
  destruct (p_data (weight l)) as [| w' W]; [cbn [length] in Ho; lia |].
  specialize (Hall w' (or_introl eq_refl)). apply Nat.eqb_eq in Hall.
  apply Forall_inv in HW. cbv beta in HW. congruence.
Qed.

Lemma output_of_length (i h o : nat) (m : SimpleClassifier) (x : vector) :
  classifier_shaped i h o m -> length (output_of m x) = o.
Proof.
  intros (_ & (Ho & _ & Hb)). unfold output_of.
  rewrite affine_length by congruence. exact Ho.
Qed.

(** On a batch of the width of its inputs a classifier returns one row of
    outputs per sample. *)
Lemma forward_ok (i h o : nat) (m : SimpleClassifier) (x : matrix) :
  classifier_shaped i h o m ->
  Forall (fun row => length row = i) x ->
  forward m x = Ok (map (output_of m) x).
Proof.
  intros (H1 & H2) Hx. unfold forward.
  rewrite (Linear_forward_ok i h _ _ H1 Hx).
  rewrite (Linear_forward_ok h o (linear2 m)).
  - unfold NN.Tanh_forward. rewrite !map_map. reflexivity.
  - exact H2.
  - unfold NN.Tanh_forward. apply Forall_forall. intros row Hrow.
    rewrite map_map in Hrow. apply in_map_iff in Hrow.
    destruct Hrow as (r & <- & _). rewrite length_map.
    destruct H1 as (Hh & _ & Hb). rewrite affine_length by congruence.
    exact Hh.
Qed.

(** A batch with a row of another width is refused by the first layer. *)
Lemma forward_rejects (i h o : nat) (m : SimpleClassifier) (x : matrix) :
  classifier_shaped i h o m -> (0 < h)%nat ->
  Exists (fun row => length row <> i) x ->
  forward m x = Raise RuntimeError.
Proof.
  intros (H1 & _) Hh Hx. unfold forward.
  now rewrite (Linear_forward_rejects i h _ _ H1 Hh Hx).
Qed.

(** The output of a classifier with one output is squeezed to the logits. *)
Lemma squeeze_logits (i h : nat) (m : SimpleClassifier) (x : matrix)
      (g : option ForwardGraph) :
  classifier_shaped i h 1 m ->
  Calls.squeeze_dim1 {| value := map (output_of m) x; grad_fn := g |}
  = {| value := Tensor1 (map (logit_of m) x); grad_fn := g |}.
Proof.
  intros Hm. unfold Calls.squeeze_dim1. cbn [value grad_fn].
  replace (forallb (fun row => (length row =? 1)%nat) (map (output_of m) x))
    with true.
  - rewrite map_map. reflexivity.
  - symmetry. apply forallb_forall. intros row Hrow.
    apply in_map_iff in Hrow. destruct Hrow as (r & <- & _).
    apply Nat.eqb_eq. now apply (output_of_length i h 1).
Qed.

(** The output of a classifier with several outputs is not squeezed. *)
Lemma squeeze_keeps_wide_outputs (i h o : nat) (m : SimpleClassifier)
      (x : matrix) (g : option ForwardGraph) :
  classifier_shaped i h o m -> o <> 1%nat -> x <> [] ->
  Calls.squeeze_dim1 {| value := map (output_of m) x; grad_fn := g |}
  = {| value := Tensor2 (map (output_of m) x); grad_fn := g |}.
Proof.
  intros Hm Ho Hx. unfold Calls.squeeze_dim1. cbn [value grad_fn].
  destruct x as [| r x]; [contradiction |].
  cbn [map forallb]. rewrite (output_of_length i h o m r Hm).
  apply Nat.eqb_neq in Ho. now rewrite Ho.
Qed.

(** The shapes are those of the values: the gradients play no part. *)
Lemma classifier_shaped_values (i h o : nat) (m m' : SimpleClassifier) :
  map (@length R) (p_data (weight (linear1 m')))
  = map (@length R) (p_data (weight (linear1 m))) ->
  length (p_data (bias (linear1 m'))) = length (p_data (bias (linear1 m))) ->
  map (@length R) (p_data (weight (linear2 m')))
  = map (@length R) (p_data (weight (linear2 m))) ->
  length (p_data (bias (linear2 m'))) = length (p_data (bias (linear2 m))) ->
  classifier_shaped i h o m -> classifier_shaped i h o m'.
Proof.
  assert (Hrows : forall (k : nat) (W W' : matrix),
             map (@length R) W' = map (@length R) W ->
             Forall (fun row => length row = k) W ->
             Forall (fun row => length row = k) W').
  { intros k W W' Hsh HW.
    assert (Hmap : Forall (fun n => n = k) (map (@length R) W')).
    { rewrite Hsh. apply Forall_forall. intros n Hn.
      apply in_map_iff in Hn. destruct Hn as (row & <- & Hrow).
      rewrite Forall_forall in HW. now apply HW. }
    apply Forall_forall. intros row Hrow. rewrite Forall_forall in Hmap.
    apply Hmap. now apply in_map. }
  intros E1 E2 E3 E4 ((A1 & A2 & A3) & (B1 & B2 & B3)).
  repeat split.
  - rewrite <- A1, <- (length_map (@length R)), E1. apply length_map.
  - now apply (Hrows i _ _ E1).
  - congruence.
  - rewrite <- B1, <- (length_map (@length R)), E3. apply length_map.
  - now apply (Hrows h _ _ E3).
  - congruence.
Qed.

(** The shapes of four tensors, one per parameter. *)
Lemma batch_grads_shape (m : SimpleClassifier) (x : matrix) (u : matrix) :
  let g := Backward.batch_grads m x u in
  map (@length R) (g_linear1_weight g)
  = map (@length R) (p_data (weight (linear1 m))) /\
  length (g_linear1_bias g) = length (p_data (bias (linear1 m))) /\
  map (@length R) (g_linear2_weight g)
  = map (@length R) (p_data (weight (linear2 m))) /\
  length (g_linear2_bias g) = length (p_data (bias (linear2 m))).
Proof.
  unfold Backward.batch_grads.
  assert (Hzero :
    let g := Backward.grads_zero m in
    map (@length R) (g_linear1_weight g)
    = map (@length R) (p_data (weight (linear1 m))) /\
    length (g_linear1_bias g) = length (p_data (bias (linear1 m))) /\
    map (@length R) (g_linear2_weight g)
    = map (@length R) (p_data (weight (linear2 m))) /\
    length (g_linear2_bias g) = length (p_data (bias (linear2 m)))).
  { cbv zeta. unfold Backward.grads_zero. cbn [g_linear1_weight g_linear1_bias
      g_linear2_weight g_linear2_bias].
    repeat split; auto using zeros_shape_matrix, zeros_shape_vector. }
  revert Hzero. generalize (Backward.grads_zero m) as acc.
  generalize (combine x u) as samples.
  induction samples as [| s samples IH]; intros acc Hacc; [exact Hacc |].
  cbn [fold_left]. apply IH. cbv zeta in *.
  destruct Hacc as (H1 & H2 & H3 & H4).
  unfold Backward.grads_add. cbn [g_linear1_weight g_linear1_bias
      g_linear2_weight g_linear2_bias].
  rewrite !add_shape_matrix, !add_shape_vector. auto.
Qed.

Lemma accumulate_grads_shaped (i h o : nat) (g : Grads) (m : SimpleClassifier) :
  classifier_shaped i h o m ->
  classifier_shaped i h o (Backward.accumulate_grads g m).
Proof. intros Hm. exact Hm. Qed.

Lemma zero_grad_shaped (i h o : nat) (m : SimpleClassifier) :
  classifier_shaped i h o m ->
  classifier_shaped i h o (parameters_map (fun T _ p => Autograd.zero_ p) m).
Proof. intros Hm. exact Hm. Qed.

Lemma sgd_update_lengths_vector (rate : R) (p : Param vector) :
  length (p_data (Autograd.sgd_update rate p)) = length (p_data p).
Proof.
  unfold Autograd.sgd_update. destruct (p_grad p) as [g |]; [| reflexivity].
  apply zip_left_length.
Qed.

Lemma sgd_update_lengths_matrix (rate : R) (p : Param matrix) :
  map (@length R) (p_data (Autograd.sgd_update rate p))
  = map (@length R) (p_data p).
Proof.
  unfold Autograd.sgd_update. destruct (p_grad p) as [g |]; [| reflexivity].
  cbn [p_data]. apply zip_left_shape. intros x y. apply zip_left_length.
Qed.

Lemma sgd_update_shaped (i h o : nat) (rate : R) (m : SimpleClassifier) :
  classifier_shaped i h o m ->
  classifier_shaped i h o
    (parameters_map (fun T _ p => Autograd.sgd_update rate p) m).
Proof.
  apply classifier_shaped_values;
    unfold parameters_map, Linear_map; cbn [linear1 linear2 weight bias];
    auto using sgd_update_lengths_vector, sgd_update_lengths_matrix.
Qed.

Lemma bce_accepts_equal_sizes : accepts_equal_sizes Loss.BCEWithLogitsLoss.
Proof.
  intros z y Hlen. cbn [loss_forward Loss.BCEWithLogitsLoss].
  rewrite Hlen, Nat.eqb_refl. eexists. reflexivity.
Qed.

(** ** Forward and backward passes *)

Lemma model_call_run (i h o : nat) (x : matrix) (w : World) :
  classifier_shaped i h o (net w) ->
  Forall (fun row => length row = i) x ->
  Calls.model_call x w
  = (Ok {| value := map (output_of (net w)) x;
           grad_fn := if grad_enabled w
                      then Some {| saved_model := net w; saved_input := x |}
                      else None |},
     {| net := net w; grad_enabled := grad_enabled w;
        trace := trace w ++ [EvForward x] |}).
Proof.
  intros Hm Hx. unfold Calls.model_call, bind, log.
  cbn [net grad_enabled trace]. now rewrite (forward_ok i h o _ _ Hm Hx).
Qed.

Lemma model_call_rejects (i h o : nat) (x : matrix) (w : World) :
  classifier_shaped i h o (net w) -> (0 < h)%nat ->
  Exists (fun row => length row <> i) x ->
  Calls.model_call x w
  = (Raise RuntimeError,
     {| net := net w; grad_enabled := grad_enabled w;
        trace := trace w ++ [EvForward x] |}).
Proof.
  intros Hm Hh Hx. unfold Calls.model_call, bind, log.
  cbn [net grad_enabled trace]. now rewrite (forward_rejects i h o _ _ Hm Hh Hx).
Qed.

Lemma forward_backward_run (i h : nat) (lm : LossModule) (x : matrix)
      (y : vector) (w : World) :
  grad_enabled w = true ->
  classifier_shaped i h 1 (net w) ->
  Forall (fun row => length row = i) x ->
  length y = length x ->
  accepts_equal_sizes lm ->
  forward_backward lm x y w
  = (Ok tt,
     {| net := Backward.accumulate_grads (pass_grads lm (net w) x y) (net w);
        grad_enabled := true;
        trace := trace w ++ [EvForward x; EvLoss; EvBackward] |}).
Proof.
  intros Hg Hm Hx Hy Hlm.
  destruct (Hlm (map (logit_of (net w)) x) y) as [l Hl];
    [now rewrite length_map |].
  unfold forward_backward. unfold bind at 1.
  rewrite (model_call_run i h 1 x w Hm Hx), Hg.
  rewrite (squeeze_logits i h _ _ _ Hm).
  unfold Calls.loss_call, Calls.backward, bind, log, lift, ret, update_net.
  cbn [value grad_fn net grad_enabled trace]. rewrite Hl.
  cbn [loss_grad_fn option_map saved_model saved_input net grad_enabled trace].
  unfold pass_grads. rewrite <- !app_assoc. reflexivity.
Qed.

Lemma zero_grad_run (optimizer : SGD) (w : World) :
  Optimizer.zero_grad optimizer w
  = (Ok tt,
     {| net := parameters_map (fun T _ p => Autograd.zero_ p) (net w);
        grad_enabled := grad_enabled w;
        trace := trace w ++ [EvZeroGrad] |}).
Proof. reflexivity. Qed.

Lemma accumulate_cleared_vector (p : Param vector) (g : vector) :
  cleared p -> length g = length (p_data p) ->
  p_grad (Autograd.accumulate p g) = Some g.
Proof.
  intros [Hnone | Hzero] Hsh; unfold Autograd.accumulate; cbn [p_grad].
  - now rewrite Hnone.
  - rewrite Hzero. f_equal. now apply add_zeros_vector.
Qed.

Lemma accumulate_cleared_matrix (p : Param matrix) (g : matrix) :
  cleared p -> map (@length R) g = map (@length R) (p_data p) ->
  p_grad (Autograd.accumulate p g) = Some g.
Proof.
  intros [Hnone | Hzero] Hsh; unfold Autograd.accumulate; cbn [p_grad].
  - now rewrite Hnone.
  - rewrite Hzero. f_equal. now apply add_zeros_matrix.
Qed.

Lemma accumulate_cleared_net (m : SimpleClassifier) (x : matrix) (u : matrix) :
  grads_cleared m ->
  grads_of (Backward.accumulate_grads (Backward.batch_grads m x u) m)
  = some_grads (Backward.batch_grads m x u).
Proof.
  intros (C1 & C2 & C3 & C4).
  destruct (batch_grads_shape m x u) as (S1 & S2 & S3 & S4).
  unfold grads_of, some_grads, Backward.accumulate_grads.
  cbn [linear1 linear2 weight bias].
  rewrite accumulate_cleared_matrix, accumulate_cleared_vector,
    accumulate_cleared_matrix, accumulate_cleared_vector by assumption.
  reflexivity.
Qed.

(** The backward pass reads the parameter values only: the gradients the
    parameters hold do not influence the gradient it computes. *)
Lemma pass_grads_after_accumulate (lm : LossModule) (g : Grads)
      (m : SimpleClassifier) (x : matrix) (y : vector) :
  pass_grads lm (Backward.accumulate_grads g m) x y = pass_grads lm m x y.
Proof. reflexivity. Qed.

Lemma pass_grads_after_zero (lm : LossModule) (m : SimpleClassifier)
      (x : matrix) (y : vector) :
  pass_grads lm (parameters_map (fun T _ p => Autograd.zero_ p) m) x y
  = pass_grads lm m x y.
Proof. reflexivity. Qed.

Lemma pass_grads_shape (lm : LossModule) (m : SimpleClassifier)
      (x : matrix) (y : vector) :
  let g := pass_grads lm m x y in
  map (@length R) (g_linear1_weight g)
  = map (@length R) (p_data (weight (linear1 m))) /\
  length (g_linear1_bias g) = length (p_data (bias (linear1 m))) /\
  map (@length R) (g_linear2_weight g)
  = map (@length R) (p_data (weight (linear2 m))) /\
  length (g_linear2_bias g) = length (p_data (bias (linear2 m))).
Proof. apply batch_grads_shape. Qed.

Lemma grads_of_accumulate (m : SimpleClassifier) (g0 g : Grads) :
  grads_of m = some_grads g0 ->
  grads_of (Backward.accumulate_grads g m)
  = some_grads (Backward.grads_add g0 g).
Proof.
  unfold grads_of, some_grads. intros H. injection H as E1 E2 E3 E4.
  unfold Backward.accumulate_grads, Backward.grads_add, Autograd.accumulate.
  cbn [linear1 linear2 weight bias p_grad g_linear1_weight g_linear1_bias
       g_linear2_weight g_linear2_bias].
  now rewrite E1, E2, E3, E4.
Qed.

Lemma grads_of_zero_accumulate (m : SimpleClassifier) (g0 g : Grads) :
  grads_of m = some_grads g0 ->
  map (@length R) (g_linear1_weight g0) = map (@length R) (g_linear1_weight g) ->
  length (g_linear1_bias g0) = length (g_linear1_bias g) ->
  map (@length R) (g_linear2_weight g0) = map (@length R) (g_linear2_weight g) ->
  length (g_linear2_bias g0) = length (g_linear2_bias g) ->
  grads_of (Backward.accumulate_grads g
              (parameters_map (fun T _ p => Autograd.zero_ p) m))
  = some_grads g.
Proof.
  unfold grads_of, some_grads. intros H S1 S2 S3 S4.
  injection H as E1 E2 E3 E4.
  unfold Backward.accumulate_grads, Autograd.accumulate, parameters_map,
    Linear_map, Autograd.zero_.
  cbn [linear1 linear2 weight bias p_grad].
  rewrite E1, E2, E3, E4. cbn [option_map].
  now rewrite !add_zeros_matrix, !add_zeros_vector by assumption.
Qed.

(** C5.  Gradient accumulation is additive and resettable.  The passes run
    on a classifier with one output, on batches of at least one sample, of
    the width of its inputs, with one label per sample.  Starting from cleared gradients, two
    backward passes on the same parameters without zeroing in between
    leave in every parameter the sum of the gradients of the two
    individual passes; with the gradients zeroed between the passes the
    second pass leaves the gradient of that pass alone.  The backward
    passes do not change the parameter values.  A pass on a batch of
    another width raises at the forward call and leaves the gradients as
    they were. *)
Theorem gradients_accumulate_until_zeroed
        (i h : nat) (w : World) (optimizer : SGD) (lm : LossModule)
        (x1 x2 : matrix) (y1 y2 : vector) :
  grad_enabled w = true ->
  grads_cleared (net w) ->
  classifier_shaped i h 1 (net w) -> (0 < h)%nat ->
  x1 <> [] -> Forall (fun row => length row = i) x1 -> length y1 = length x1 ->
  x2 <> [] -> Forall (fun row => length row = i) x2 -> length y2 = length x2 ->
  accepts_equal_sizes lm ->
  let G1 := pass_grads lm (net w) x1 y1 in
  let G2 := pass_grads lm (net w) x2 y2 in
  (exists w1 w2 w12 w1z2 : World,
      forward_backward lm x1 y1 w = (Ok tt, w1) /\
      forward_backward lm x2 y2 w = (Ok tt, w2) /\
      (forward_backward lm x1 y1 ;; forward_backward lm x2 y2) w
      = (Ok tt, w12) /\
      (forward_backward lm x1 y1 ;; Optimizer.zero_grad optimizer ;;
       forward_backward lm x2 y2) w = (Ok tt, w1z2) /\
      grads_of (net w1) = some_grads G1 /\
      grads_of (net w2) = some_grads G2 /\
      grads_of (net w12) = some_grads (Backward.grads_add G1 G2) /\
      grads_of (net w1z2) = some_grads G2 /\
      values_of (net w12) = values_of (net w) /\
      values_of (net w1z2) = values_of (net w)) /\
  (forall (x : matrix) (y : vector),
      Exists (fun row => length row <> i) x ->
      fst (forward_backward lm x y w) = Raise RuntimeError /\
      net (snd (forward_backward lm x y w)) = net w).
Proof.
  intros Hg Hclear Hm Hh _ Hx1 Hy1 _ Hx2 Hy2 Hlm G1 G2. split.
  - pose proof (forward_backward_run i h lm x1 y1 w Hg Hm Hx1 Hy1 Hlm) as Hrun1.
    pose proof (forward_backward_run i h lm x2 y2 w Hg Hm Hx2 Hy2 Hlm) as Hrun2.
    fold G1 in Hrun1. fold G2 in Hrun2.
    set (w1 := {| net := Backward.accumulate_grads G1 (net w);
                  grad_enabled := true;
                  trace := trace w ++ [EvForward x1; EvLoss; EvBackward] |})
      in Hrun1.
    set (w2 := {| net := Backward.accumulate_grads G2 (net w);
                  grad_enabled := true;
                  trace := trace w ++ [EvForward x2; EvLoss; EvBackward] |})
      in Hrun2.
    pose proof (forward_backward_run i h lm x2 y2 w1 eq_refl
                  (accumulate_grads_shaped i h 1 G1 (net w) Hm) Hx2 Hy2 Hlm)
      as Hrun12.
    pose proof (zero_grad_run optimizer w1) as Hzero.
    set (w1z := {| net := parameters_map (fun T _ p => Autograd.zero_ p) (net w1);
                   grad_enabled := grad_enabled w1;
                   trace := trace w1 ++ [EvZeroGrad] |}) in Hzero.
    pose proof (forward_backward_run i h lm x2 y2 w1z eq_refl
                  (zero_grad_shaped i h 1 _
                     (accumulate_grads_shaped i h 1 G1 (net w) Hm))
                  Hx2 Hy2 Hlm) as Hrun1z2.
    assert (H1 : grads_of (net w1) = some_grads G1)
      by (apply accumulate_cleared_net; exact Hclear).
    assert (H2 : grads_of (net w2) = some_grads G2)
      by (apply accumulate_cleared_net; exact Hclear).
    destruct (pass_grads_shape lm (net w) x1 y1) as (S1 & S2 & S3 & S4).
    destruct (pass_grads_shape lm (net w) x2 y2) as (T1 & T2 & T3 & T4).
    fold G1 in S1, S2, S3, S4. fold G2 in T1, T2, T3, T4.
    eexists. eexists. eexists. eexists.
    split; [exact Hrun1 |]. split; [exact Hrun2 |].
    split; [unfold bind at 1; rewrite Hrun1; exact Hrun12 |].
    split.
    { unfold bind at 1. rewrite Hrun1. unfold bind at 1. rewrite Hzero.
      exact Hrun1z2. }
    split; [exact H1 |]. split; [exact H2 |].
    split; [| split; [| split; reflexivity]].
    + cbn [net]. change (pass_grads lm (net w1) x2 y2) with G2.
      now apply grads_of_accumulate.
    + cbn [net]. change (pass_grads lm (net w1z) x2 y2) with G2.
      apply grads_of_zero_accumulate with (g0 := G1); congruence.
  - intros x y Hx.
    assert (Hrun : forward_backward lm x y w
                   = (Raise RuntimeError,
                      {| net := net w; grad_enabled := grad_enabled w;
                         trace := trace w ++ [EvForward x] |})).
    { unfold forward_backward. unfold bind at 1.
      now rewrite (model_call_rejects i h 1 x w Hm Hh Hx). }
    rewrite Hrun. split; reflexivity.
Qed.

Lemma classifier_example_shaped : classifier_shaped 2 2 1 classifier_example.
Proof. repeat split; repeat constructor. Qed.

Lemma gradients_accumulate_until_zeroed_witness :
  grad_enabled world_example = true /\
  grads_cleared (net world_example) /\
  classifier_shaped 2 2 1 (net world_example) /\
  (exists w12 w1z2 : World,
      (forward_backward Loss.BCEWithLogitsLoss [[0; 1]] [1] ;;
       forward_backward Loss.BCEWithLogitsLoss [[1; 1]] [0]) world_example
      = (Ok tt, w12) /\
      (forward_backward Loss.BCEWithLogitsLoss [[0; 1]] [1] ;;
       Optimizer.zero_grad {| lr := 1 / 10 |} ;;
       forward_backward Loss.BCEWithLogitsLoss [[1; 1]] [0]) world_example
      = (Ok tt, w1z2) /\
      grads_of (net w12)
      = some_grads (Backward.grads_add
                      (pass_grads Loss.BCEWithLogitsLoss (net world_example)
                                  [[0; 1]] [1])
                      (pass_grads Loss.BCEWithLogitsLoss (net world_example)
                                  [[1; 1]] [0])) /\
      grads_of (net w1z2)
      = some_grads (pass_grads Loss.BCEWithLogitsLoss (net world_example)
                               [[1; 1]] [0])) /\
  fst (forward_backward Loss.BCEWithLogitsLoss [[0; 1; 0; 1; 0]] [1]
                        world_example)
  = Raise RuntimeError.
Proof.
  assert (Hclear : grads_cleared (net world_example)).
  { repeat split; left; reflexivity. }
  split; [reflexivity |]. split; [exact Hclear |].
  split; [exact classifier_example_shaped |].
  destruct (gradients_accumulate_until_zeroed
              2 2 world_example {| lr := 1 / 10 |} Loss.BCEWithLogitsLoss
              [[0; 1]] [[1; 1]] [1] [0] eq_refl Hclear
              classifier_example_shaped ltac:(lia)
              ltac:(discriminate) ltac:(repeat constructor) eq_refl
              ltac:(discriminate) ltac:(repeat constructor) eq_refl
              bce_accepts_equal_sizes)
    as ((w1 & w2 & w12 & w1z2 & _ & _ & R12 & R1z2 & _ & _ & G12 & G1z2 & _)
        & Hbad).
  split.
  - exists w12, w1z2. repeat split; assumption.
  - apply Hbad. constructor. cbn [length]. lia.
Defined.

(** ** The training loop *)

Lemma fetch_in_range (ds : XORDataset) (idxs : list nat) :
  Forall (fun i => (i < length (data ds))%nat /\ (i < length (label ds))%nat)
         idxs ->
  Loader.fetch ds idxs
  = Ok (map (fun i => (nth i (data ds) [], nth i (label ds) 0%Z)) idxs).
Proof.
  induction 1 as [| i idxs [Hd Hl] _ IH]; [reflexivity |].
  cbn [Loader.fetch map]. unfold XORDataset_getitem.
  rewrite (nth_error_nth' (data ds) ([] : vector) Hd),
    (nth_error_nth' (label ds) 0%Z Hl), IH.
  reflexivity.
Qed.

Lemma next_batch_run (dl : DataLoader) (idxs : list nat) (w : World) :
  Forall (fun i => (i < length (data (dataset dl)))%nat /\
                   (i < length (label (dataset dl)))%nat) idxs ->
  Calls.next_batch dl idxs w
  = (Ok (batch_of (dataset dl) idxs),
     {| net := net w; grad_enabled := grad_enabled w;
        trace := trace w ++ [EvNextBatch idxs] |}).
Proof.
  intros Hin. unfold Calls.next_batch, bind, log, lift, ret.
  now rewrite (fetch_in_range _ _ Hin).
Qed.

(** The batch at indices of the dataset: one row of features and one label
    per index, the rows as wide as the points of the dataset. *)
Lemma batch_of_shape (i : nat) (ds : XORDataset) (idxs : list nat) :
  features_width i ds ->
  Forall (fun k => (k < length (data ds))%nat /\ (k < length (label ds))%nat)
         idxs ->
  Forall (fun row => length row = i) (fst (batch_of ds idxs)) /\
  length (fst (batch_of ds idxs)) = length idxs /\
  length (snd (batch_of ds idxs)) = length idxs.
Proof.
  intros Hds Hin. unfold batch_of, Loader.collate. cbn [fst snd].
  rewrite !length_map. split; [| split; reflexivity].
  rewrite map_map. cbn [fst]. apply Forall_forall. intros row Hrow.
  apply in_map_iff in Hrow. destruct Hrow as (k & <- & Hk).
  rewrite Forall_forall in Hin. destruct (Hin k Hk) as [Hd _].
  unfold features_width in Hds. rewrite Forall_forall in Hds.
  apply Hds. now apply nth_In.
Qed.

Lemma train_step_run (i h : nat) (optimizer : SGD) (dl : DataLoader)
      (lm : LossModule) (idxs : list nat) (w : World) :
  grad_enabled w = true ->
  classifier_shaped i h 1 (net w) ->
  features_width i (dataset dl) ->
  accepts_equal_sizes lm ->
  Forall (fun k => (k < length (data (dataset dl)))%nat /\
                   (k < length (label (dataset dl)))%nat) idxs ->
  train_step optimizer dl lm idxs w
  = (Ok tt, step_world optimizer lm (dataset dl) w idxs).
Proof.
  intros Hg Hm Hds Hlm Hin.
  destruct (batch_of_shape i (dataset dl) idxs Hds Hin) as (Hrows & Hx & Hy).
  destruct (Hlm (map (logit_of (net w)) (fst (batch_of (dataset dl) idxs)))
                (map IZR (snd (batch_of (dataset dl) idxs)))) as [l Hl];
    [rewrite !length_map; congruence |].
  unfold train_step. unfold bind at 1.
  rewrite (next_batch_run dl idxs w Hin). unfold bind at 1.
  rewrite (model_call_run i h 1); [| exact Hm | exact Hrows].
  cbn [net grad_enabled trace]. rewrite Hg.
  rewrite (squeeze_logits i h _ _ _ Hm).
  unfold Calls.loss_call, Calls.backward, Optimizer.zero_grad, Optimizer.step,
    bind, log, lift, ret, update_net.
  cbn [value grad_fn net grad_enabled trace]. rewrite Hl.
  cbn [loss_grad_fn option_map saved_model saved_input net grad_enabled trace].
  unfold step_world, step_net, step_events, pass_grads.
  rewrite <- !app_assoc. rewrite Hg. reflexivity.
Qed.

(** With a classifier that has not exactly one output the step stops at
    the loss: the output is not squeezed, the loss module refuses it with
    [ValueError], and neither the gradients nor the parameters are
    touched. *)
Lemma train_step_stops_at_the_loss (i h o : nat) (optimizer : SGD)
      (dl : DataLoader) (idxs : list nat) (w : World) :
  classifier_shaped i h o (net w) -> o <> 1%nat ->
  features_width i (dataset dl) ->
  idxs <> [] ->
  Forall (fun k => (k < length (data (dataset dl)))%nat /\
                   (k < length (label (dataset dl)))%nat) idxs ->
  train_step optimizer dl Loss.BCEWithLogitsLoss idxs w
  = (Raise ValueError,
     {| net := net w; grad_enabled := grad_enabled w;
        trace := trace w ++ [EvNextBatch idxs;
                             EvForward (fst (batch_of (dataset dl) idxs));
                             EvLoss] |}).
Proof.
  intros Hm Ho Hds Hne Hin.
  destruct (batch_of_shape i (dataset dl) idxs Hds Hin) as (Hrows & Hx & Hy).
  assert (Hbatch : fst (batch_of (dataset dl) idxs) <> []).
  { intros Hnil. rewrite Hnil in Hx. destruct idxs; [contradiction |].
    discriminate Hx. }
  unfold train_step. unfold bind at 1.
  rewrite (next_batch_run dl idxs w Hin). unfold bind at 1.
  rewrite (model_call_run i h o); [| exact Hm | exact Hrows].
  rewrite (squeeze_keeps_wide_outputs i h o _ _ _ Hm Ho Hbatch).
  unfold Calls.loss_call, bind, log, lift, ret.
  cbn [value grad_fn net grad_enabled trace loss_forward
       Loss.BCEWithLogitsLoss].
  rewrite <- !app_assoc. reflexivity.
Qed.

Lemma for_each_run (X : Type) (body : X -> M unit) (f : World -> X -> World)
      (P : World -> Prop) (l : list X) :
  (forall x w, In x l -> P w -> body x w = (Ok tt, f w x) /\ P (f w x)) ->
  forall w, P w ->
  for_each l body w = (Ok tt, fold_left f l w) /\ P (fold_left f l w).
Proof.
  induction l as [| x l IH]; intros Hbody w Hw.
  - split; [reflexivity | exact Hw].
  - destruct (Hbody x w (or_introl eq_refl) Hw) as [Hrun Hnext].
    cbn [for_each fold_left]. unfold bind. rewrite Hrun.
    apply IH; [| exact Hnext].
    intros x' w' Hin. apply Hbody. now right.
Qed.

Lemma fold_step_world (optimizer : SGD) (lm : LossModule) (ds : XORDataset)
      (l : list (list nat)) (w : World) :
  let w' := fold_left (step_world optimizer lm ds) l w in
  net w' = fold_left (step_net optimizer lm ds) l (net w) /\
  grad_enabled w' = grad_enabled w /\
  trace w' = trace w ++ flat_map (step_events ds) l.
Proof.
  revert w. induction l as [| idxs l IH]; intros w; cbn [fold_left flat_map].
  - now rewrite app_nil_r.
  - destruct (IH (step_world optimizer lm ds w idxs)) as (Hn & Hg & Ht).
    cbv zeta. rewrite Hn, Hg, Ht. cbn [step_world net grad_enabled trace].
    now rewrite <- app_assoc.
Qed.

Lemma step_net_shaped (i h o : nat) (optimizer : SGD) (lm : LossModule)
      (ds : XORDataset) (m : SimpleClassifier) (idxs : list nat) :
  classifier_shaped i h o m ->
  classifier_shaped i h o (step_net optimizer lm ds m idxs).
Proof.
  intros Hm. unfold step_net. cbv zeta.
  apply sgd_update_shaped, accumulate_grads_shaped, zero_grad_shaped, Hm.
Qed.

(** The state in which a training step runs to its end: the gradient mode
    is on and the classifier has one output. *)
Lemma train_step_keeps_ready (i h : nat) (optimizer : SGD) (dl : DataLoader)
      (lm : LossModule) (idxs : list nat) (w : World) :
  grad_enabled w = true /\ classifier_shaped i h 1 (net w) ->
  features_width i (dataset dl) ->
  accepts_equal_sizes lm ->
  Forall (fun k => (k < length (data (dataset dl)))%nat /\
                   (k < length (label (dataset dl)))%nat) idxs ->
  train_step optimizer dl lm idxs w
  = (Ok tt, step_world optimizer lm (dataset dl) w idxs) /\
  (grad_enabled (step_world optimizer lm (dataset dl) w idxs) = true /\
   classifier_shaped i h 1 (net (step_world optimizer lm (dataset dl) w idxs))).
Proof.
  intros [Hg Hm] Hds Hlm Hin.
  split; [now apply (train_step_run i h) |].
  split; [exact Hg |]. cbn [step_world net]. now apply step_net_shaped.
Qed.

Lemma zero_accumulate_vector (p : Param vector) (g : vector) :
  shaped_vector p -> length g = length (p_data p) ->
  p_grad (Autograd.accumulate (Autograd.zero_ p) g) = Some g.
Proof.
  unfold shaped_vector, Autograd.accumulate, Autograd.zero_. cbn [p_grad p_data].
  destruct (p_grad p) as [a |]; cbn [option_map]; intros Ha Hg.
  - f_equal. apply add_zeros_vector. congruence.
  - reflexivity.
Qed.

Lemma zero_accumulate_matrix (p : Param matrix) (g : matrix) :
  shaped_matrix p -> map (@length R) g = map (@length R) (p_data p) ->
  p_grad (Autograd.accumulate (Autograd.zero_ p) g) = Some g.
Proof.
  unfold shaped_matrix, Autograd.accumulate, Autograd.zero_. cbn [p_grad p_data].
  destruct (p_grad p) as [a |]; cbn [option_map]; intros Ha Hg.
  - f_equal. apply add_zeros_matrix. congruence.
  - reflexivity.
Qed.

(** One step from gradients of the right shapes: the parameters end with
    the gradient of this batch alone, and their values have moved against
    it by the learning rate. *)
Lemma step_net_update (optimizer : SGD) (lm : LossModule) (ds : XORDataset)
      (m : SimpleClassifier) (idxs : list nat) :
  grads_shaped m ->
  let batch := batch_of ds idxs in
  let g := pass_grads lm m (fst batch) (map IZR (snd batch)) in
  let m' := step_net optimizer lm ds m idxs in
  grads_of m' = some_grads g /\
  values_of m' = sgd_values (lr optimizer) m g /\
  grads_shaped m'.
Proof.
  intros (H1 & H2 & H3 & H4) batch g m'.
  destruct (pass_grads_shape lm m (fst batch) (map IZR (snd batch)))
    as (S1 & S2 & S3 & S4).
  fold g in S1, S2, S3, S4.
  pose proof (zero_accumulate_matrix _ _ H1 S1) as E1.
  pose proof (zero_accumulate_vector _ _ H2 S2) as E2.
  pose proof (zero_accumulate_matrix _ _ H3 S3) as E3.
  pose proof (zero_accumulate_vector _ _ H4 S4) as E4.
  unfold m', step_net. fold batch. fold g. cbv zeta.
  unfold grads_of, values_of, sgd_values, some_grads, grads_shaped,
    shaped_matrix, shaped_vector, parameters_map, Linear_map,
    Backward.accumulate_grads, Autograd.sgd_update.
  cbn [linear1 linear2 weight bias].
  rewrite E1, E2, E3, E4. cbn [p_grad p_data].
  split; [reflexivity |]. split; [reflexivity |].
  repeat split.
  - rewrite S1. symmetry. apply zip_left_shape. intros x y. apply zip_left_length.
  - rewrite S2. symmetry. apply zip_left_length.
  - rewrite S3. symmetry. apply zip_left_shape. intros x y. apply zip_left_length.
  - rewrite S4. symmetry. apply zip_left_length.
Qed.

Lemma slices_within (fuel b : nat) (order : list nat) :
  Forall (fun c => incl c order) (Loader.slices fuel b order).
Proof.
  revert order. induction fuel as [| fuel IH]; intros order; [constructor |].
  destruct order as [| x rest]; [constructor |].
  cbn [Loader.slices]. constructor.
  - intros i Hi. rewrite <- (firstn_skipn b (x :: rest)).
    apply in_or_app. now left.
  - eapply Forall_impl; [| apply IH].
    intros c Hc i Hi. rewrite <- (firstn_skipn b (x :: rest)).
    apply in_or_app. right. now apply Hc.
Qed.

(** X18.  A loader in natural order over a generated dataset hands out
    indices of the dataset only, whatever the batch size and with or
    without the last batch: fetching a batch never raises [IndexError]. *)
Lemma generated_loader_in_range
      (n : Z) (sigma : R) (g : rng) (ds : XORDataset)
      (b : Z) (drop : bool) (dl : DataLoader) (perm : list nat) :
  XORDataset_init n sigma g = Ok ds ->
  Loader.DataLoader_init ds b false drop = Ok dl ->
  loader_in_range dl perm.
Proof.
  intros Hds Hdl.
  destruct (generated_fields _ _ _ _ Hds) as (_ & Hlabel & Hdata & Hlen).
  destruct (DataLoader_init_fields _ _ _ _ _ Hdl) as (_ & Hd & _ & Hsh & _).
  unfold loader_in_range, Loader.index_batches, Loader.index_order.
  rewrite Hsh, Hd, Hlen, Hdata, Hlabel, !length_map, !length_seq.
  assert (Hall : Forall (Forall (fun i => (i < Z.to_nat n)%nat /\
                                          (i < Z.to_nat n)%nat))
                        (Loader.slices (Z.to_nat n) (Z.to_nat (batch_size dl))
                                       (seq 0 (Z.to_nat n)))).
  { eapply Forall_impl; [| apply slices_within].
    intros c Hc. apply Forall_forall. intros i Hi.
    apply Hc, in_seq in Hi. lia. }
  destruct (drop_last dl); [| exact Hall].
  apply Forall_forall. intros c Hc. apply filter_In in Hc.
  rewrite Forall_forall in Hall. now apply Hall.
Qed.

(** C6.  On a classifier with one output, over a loader with a positive
    batch size on a dataset whose points have the width of its inputs, a
    training step obtains the next batch, runs
    the forward pass, computes the loss against the labels of the batch,
    zeroes the gradients, runs the backward pass through the two affine
    layers and the tanh, and applies the optimizer step to the parameters,
    in this order; the steps of an epoch follow the order in which the
    loader yields the batches, and the epochs follow one another. *)
Theorem training_runs_the_steps_in_order
        (i h : nat) (w : World) (optimizer : SGD) (dl : DataLoader)
        (lm : LossModule) (num_epochs : Z) (perms : nat -> list nat) :
  grad_enabled w = true ->
  classifier_shaped i h 1 (net w) -> (0 < h)%nat ->
  features_width i (dataset dl) ->
  (0 < batch_size dl)%Z ->
  accepts_equal_sizes lm ->
  (forall epoch, loader_in_range dl (perms epoch)) ->
  let ds := dataset dl in
  let epochs := seq 0 (Z.to_nat num_epochs) in
  let batches := fun epoch => Loader.index_batches dl (perms epoch) in
  (forall (idxs : list nat) (w0 : World) (epoch : nat),
      In idxs (batches epoch) -> grad_enabled w0 = true ->
      classifier_shaped i h 1 (net w0) ->
      train_step optimizer dl lm idxs w0
      = (Ok tt, step_world optimizer lm ds w0 idxs)) /\
  (forall (m : SimpleClassifier) (idxs : list nat),
      grads_shaped m ->
      let g := pass_grads lm m (fst (batch_of ds idxs))
                          (map IZR (snd (batch_of ds idxs))) in
      grads_of (step_net optimizer lm ds m idxs) = some_grads g /\
      values_of (step_net optimizer lm ds m idxs)
      = sgd_values (lr optimizer) m g) /\
  exists w' : World,
    train_model optimizer dl lm num_epochs perms w = (Ok tt, w') /\
    trace w'
    = trace w ++ flat_map (fun epoch => flat_map (step_events ds) (batches epoch))
                          epochs /\
    net w'
    = fold_left (fun m epoch =>
                   fold_left (step_net optimizer lm ds) (batches epoch) m)
                epochs (Calls.set_training true (net w)).
Proof.
  intros Hg Hm Hh Hds _ Hlm Hrange ds epochs batches.
  set (ready := fun w0 : World =>
         grad_enabled w0 = true /\ classifier_shaped i h 1 (net w0)).
  assert (Hstep : forall idxs w0 epoch,
             In idxs (batches epoch) -> ready w0 ->
             train_step optimizer dl lm idxs w0
             = (Ok tt, step_world optimizer lm ds w0 idxs)
             /\ ready (step_world optimizer lm ds w0 idxs)).
  { intros idxs w0 epoch Hin Hw0.
    apply train_step_keeps_ready; try assumption.
    specialize (Hrange epoch). unfold loader_in_range in Hrange.
    rewrite Forall_forall in Hrange. now apply Hrange. }
  split.
  { intros idxs w0 epoch Hin Hg0 Hm0.
    now apply (Hstep idxs w0 epoch Hin (conj Hg0 Hm0)). }
  split.
  { intros m idxs Hshaped g.
    destruct (step_net_update optimizer lm ds m idxs Hshaped) as (Hgr & Hval & _).
    split; assumption. }
  set (epoch_world := fun w0 epoch =>
         fold_left (step_world optimizer lm ds) (batches epoch) w0).
  assert (Hepoch : forall epoch w0,
             ready w0 ->
             for_each (batches epoch) (train_step optimizer dl lm) w0
             = (Ok tt, epoch_world w0 epoch)
             /\ ready (epoch_world w0 epoch)).
  { intros epoch w0 Hw0.
    apply (for_each_run _ (train_step optimizer dl lm)
             (step_world optimizer lm ds) ready); [| exact Hw0].
    intros idxs w1 Hin Hw1. now apply (Hstep idxs w1 epoch). }
  set (w_train := {| net := Calls.set_training true (net w);
                     grad_enabled := grad_enabled w; trace := trace w |}).
  destruct (for_each_run _
              (fun epoch => for_each (batches epoch) (train_step optimizer dl lm))
              epoch_world ready epochs
              (fun epoch w1 _ Hw1 => Hepoch epoch w1 Hw1) w_train
              (conj Hg Hm))
    as [Hrun _].
  exists (fold_left epoch_world epochs w_train).
  split; [exact Hrun |].
  assert (Hfold : forall l w0,
             trace (fold_left epoch_world l w0)
             = trace w0 ++ flat_map (fun epoch =>
                                       flat_map (step_events ds) (batches epoch)) l
             /\ net (fold_left epoch_world l w0)
                = fold_left (fun m epoch =>
                               fold_left (step_net optimizer lm ds)
                                         (batches epoch) m) l (net w0)).
  { induction l as [| epoch l IH]; intros w0; cbn [fold_left flat_map].
    - now rewrite app_nil_r.
    - destruct (IH (epoch_world w0 epoch)) as [Ht Hn].
      destruct (fold_step_world optimizer lm ds (batches epoch) w0)
        as (Hn0 & _ & Ht0).
      unfold epoch_world in *. rewrite Ht, Hn, Hn0, Ht0.
      now rewrite <- app_assoc. }
  apply (Hfold epochs w_train).
Qed.

Lemma dataset_example_width : features_width 2 dataset_example.
Proof. unfold features_width. cbn. repeat constructor. Qed.

Lemma training_runs_the_steps_in_order_witness :
  grad_enabled world_example = true /\
  classifier_shaped 2 2 1 (net world_example) /\
  features_width 2 (dataset loader_example) /\
  (0 < batch_size loader_example)%Z /\
  (forall epoch : nat, loader_in_range loader_example []) /\
  exists w' : World,
    train_model {| lr := 1 / 10 |} loader_example Loss.BCEWithLogitsLoss 2
                (fun _ => []) world_example = (Ok tt, w') /\
    trace w'
    = flat_map (fun _ : nat =>
                  flat_map (step_events dataset_example)
                           [[0; 1; 2; 3]; [4; 5; 6; 7]; [8; 9]]%nat)
               [0; 1]%nat.
Proof.
  assert (Hrange : forall epoch : nat, loader_in_range loader_example []).
  { intros _. unfold loader_in_range. cbn.
    repeat constructor. }
  split; [reflexivity |]. split; [exact classifier_example_shaped |].
  split; [exact dataset_example_width |]. split; [reflexivity |].
  split; [exact Hrange |].
  destruct (training_runs_the_steps_in_order
              2 2 world_example {| lr := 1 / 10 |} loader_example
              Loss.BCEWithLogitsLoss 2 (fun _ => []) eq_refl
              classifier_example_shaped ltac:(lia) dataset_example_width
              eq_refl bce_accepts_equal_sizes Hrange)
    as (_ & _ & w' & Hrun & Htrace & _).
  exists w'. split; [exact Hrun |]. exact Htrace.
Defined.

(** ** The evaluation loop *)

Lemma for_fold_run (X S : Type) (body : S -> X -> M S) (g : S -> X -> S)
      (f : World -> X -> World) (P : World -> Prop) (l : list X) :
  (forall x s w, In x l -> P w ->
                 body s x w = (Ok (g s x), f w x) /\ P (f w x)) ->
  forall s w, P w ->
  for_fold l s body w = (Ok (fold_left g l s), fold_left f l w).
Proof.
  induction l as [| x l IH]; intros Hbody s w Hw; [reflexivity |].
  cbn [for_fold fold_left]. unfold bind.
  destruct (Hbody x s w (or_introl eq_refl) Hw) as [Hrun Hnext].
  rewrite Hrun. apply IH; [| exact Hnext].
  intros x' s' w' Hin. apply Hbody. now right.
Qed.

(** On a batch of logits, one per label, the comparison counts the samples
    whose predicted class is their label. *)
Lemma count_equal_batch (m : SimpleClassifier) (ds : XORDataset)
      (idxs : list nat) :
  eq_sum (tensor_map binarize
            (tensor_map (map NN.sigmoid)
               (Tensor1 (map (logit_of m) (fst (batch_of ds idxs))))))
         (snd (batch_of ds idxs))
  = Ok (length (filter (correct_at m ds) idxs)).
Proof.
  cbn [tensor_map eq_sum]. unfold count_equal.
  replace (length (binarize (map NN.sigmoid
                               (map (logit_of m) (fst (batch_of ds idxs)))))
           =? length (snd (batch_of ds idxs)))%nat with true
    by (symmetry; apply Nat.eqb_eq; unfold binarize, batch_of, Loader.collate;
        cbn [fst snd]; now rewrite !length_map).
  f_equal. unfold batch_of, Loader.collate, binarize.
  cbn [fst snd]. rewrite !map_map. cbn [fst snd].
  induction idxs as [| k idxs IH]; [reflexivity |].
  cbn [map combine filter fst snd].
  unfold correct_at at 1, predict.
  destruct (Z.eqb _ _); cbn [length]; now rewrite IH.
Qed.

Lemma eval_batch_run (i h : nat) (dl : DataLoader) (counts : scalar * R)
      (idxs : list nat) (w : World) :
  classifier_shaped i h 1 (net w) ->
  features_width i (dataset dl) ->
  Forall (fun k => (k < length (data (dataset dl)))%nat /\
                   (k < length (label (dataset dl)))%nat) idxs ->
  eval_batch dl counts idxs w
  = (Ok (eval_counts (net w) (dataset dl) counts idxs),
     eval_world (dataset dl) w idxs).
Proof.
  intros Hm Hds Hin.
  destruct (batch_of_shape i (dataset dl) idxs Hds Hin) as (Hrows & Hx & Hy).
  unfold eval_batch. unfold bind at 1.
  rewrite (next_batch_run dl idxs w Hin). unfold bind at 1.
  rewrite (model_call_run i h 1); [| exact Hm | exact Hrows].
  rewrite (squeeze_logits i h _ _ _ Hm).
  cbn [value net grad_enabled trace]. unfold bind, lift, ret.
  rewrite (count_equal_batch (net w) (dataset dl) idxs).
  unfold eval_counts, eval_world, eval_events.
  rewrite Hy, <- app_assoc. reflexivity.
Qed.

Lemma fold_eval_world (ds : XORDataset) (l : list (list nat)) (w : World) :
  fold_left (eval_world ds) l w
  = {| net := net w; grad_enabled := grad_enabled w;
       trace := trace w ++ flat_map (eval_events ds) l |}.
Proof.
  revert w. induction l as [| idxs l IH]; intros w; cbn [fold_left flat_map].
  - rewrite app_nil_r. now destruct w.
  - rewrite IH. cbn [eval_world net grad_enabled trace].
    now rewrite <- app_assoc.
Qed.

Lemma fold_eval_counts (m : SimpleClassifier) (ds : XORDataset)
      (l : list (list nat)) (counts : scalar * R) :
  let counts' := fold_left (eval_counts m ds) l counts in
  scalar_value (fst counts')
  = scalar_value (fst counts)
    + INR (length (filter (correct_at m ds) (concat l))) /\
  snd counts' = snd counts + INR (length (concat l)) /\
  (l <> [] -> fst counts' = Tensor0 (scalar_value (fst counts'))).
Proof.
  revert counts. induction l as [| idxs l IH]; intros counts.
  - cbn. repeat split; try lra. congruence.
  - cbn [fold_left concat]. cbv zeta.
    destruct (IH (eval_counts m ds counts idxs)) as (Ht & Hn & Hk).
    assert (E1 : scalar_value (fst (eval_counts m ds counts idxs))
                 = scalar_value (fst counts)
                   + INR (length (filter (correct_at m ds) idxs)))
      by reflexivity.
    assert (E2 : snd (eval_counts m ds counts idxs)
                 = snd counts + INR (length idxs)) by reflexivity.
    split; [| split].
    + rewrite Ht, E1, filter_app, length_app, plus_INR. lra.
    + rewrite Hn, E2, length_app, plus_INR. lra.
    + intros _. destruct l as [| idxs' l].
      * reflexivity.
      * apply Hk. discriminate.
Qed.

Lemma eval_model_run (i h : nat) (dl : DataLoader) (perm : list nat)
      (w : World) :
  classifier_shaped i h 1 (net w) ->
  features_width i (dataset dl) ->
  loader_in_range dl perm ->
  let batches := Loader.index_batches dl perm in
  let counts := fold_left (eval_counts (net w) (dataset dl)) batches
                          (PyFloat 0, 0) in
  let w1 := {| net := Calls.set_training false (net w);
               grad_enabled := grad_enabled w;
               trace := trace w ++ flat_map (eval_events (dataset dl)) batches |} in
  eval_model dl perm w
  = match true_divide (fst counts) (snd counts) with
    | Ok acc => (Ok tt, {| net := net w1; grad_enabled := grad_enabled w1;
                           trace := trace w1 ++ [EvPrint acc] |})
    | Raise e => (Raise e, w1)
    end.
Proof.
  intros Hm Hds Hrange batches counts w1.
  unfold eval_model, Calls.model_eval, update_net, with_no_grad.
  unfold bind at 1. cbn [set_grad_enabled net grad_enabled trace].
  unfold bind at 1.
  rewrite (for_fold_run _ _ (eval_batch dl)
             (eval_counts (net w) (dataset dl)) (eval_world (dataset dl))
             (fun w0 => net w0 = Calls.set_training false (net w))
             batches).
  - fold counts. rewrite fold_eval_world.
    cbn [set_grad_enabled net grad_enabled trace].
    unfold bind, lift, print_accuracy, log. fold w1.
    destruct (true_divide (fst counts) (snd counts)); reflexivity.
  - intros idxs s0 w0 Hin Hnet.
    unfold loader_in_range in Hrange. rewrite Forall_forall in Hrange.
    rewrite (eval_batch_run i h dl s0 idxs w0);
      [| rewrite Hnet; exact Hm | exact Hds | exact (Hrange idxs Hin)].
    split; [| exact Hnet]. rewrite Hnet. reflexivity.
  - reflexivity.
Qed.

Lemma sigmoid_bounds (z : R) : 0 < NN.sigmoid z < 1.
Proof.
  unfold NN.sigmoid. pose proof (exp_pos (- z)) as He.
  split.
  - apply Rdiv_lt_0_compat; lra.
  - apply (Rmult_lt_reg_r (1 + exp (- z))); [lra |].
    unfold Rdiv. rewrite Rmult_assoc, Rinv_l by lra. lra.
Qed.

(** C7, as amended.  For a classifier with one output, over a dataset
    whose points have the width of its inputs, when the loader yields at
    least one sample, the evaluator computes and prints an accuracy of
    [0, 1]: the number of samples seen whose predicted class equals their
    label, divided by the number of samples seen over all the batches,
    each batch counted at its true size.  The predicted class is 1 when
    the sigmoid of the logit is at least 0.5 and 0 otherwise. *)
Theorem eval_reports_accuracy
        (i h : nat) (w : World) (dl : DataLoader) (perm : list nat) :
  classifier_shaped i h 1 (net w) -> (0 < h)%nat ->
  features_width i (dataset dl) ->
  loader_in_range dl perm ->
  concat (Loader.index_batches dl perm) <> [] ->
  let ds := dataset dl in
  let batches := Loader.index_batches dl perm in
  let seen := concat batches in
  let correct := filter (correct_at (net w) ds) seen in
  (forall x : vector,
      (NN.sigmoid (logit_of (net w) x) >= 1 / 2 -> predict (net w) x = 1%Z) /\
      (NN.sigmoid (logit_of (net w) x) < 1 / 2 -> predict (net w) x = 0%Z) /\
      0 < NN.sigmoid (logit_of (net w) x) < 1) /\
  exists (acc : R) (w' : World),
    eval_model dl perm w = (Ok tt, w') /\
    trace w'
    = trace w ++ flat_map (eval_events ds) batches ++ [EvPrint (Finite acc)] /\
    acc = INR (length correct) / INR (length seen) /\
    0 <= acc <= 1.
Proof.
  intros Hm Hh Hds Hrange Hseen ds batches seen correct.
  split.
  { intros x. unfold predict.
    destruct (Rge_dec (NN.sigmoid (logit_of (net w) x)) (1 / 2)) as [Hge | Hlt].
    - repeat split; try reflexivity; try apply sigmoid_bounds. intros; lra.
    - repeat split; try reflexivity; try apply sigmoid_bounds. intros; lra. }
  pose proof (eval_model_run i h dl perm w Hm Hds Hrange) as Hrun.
  cbv zeta in Hrun.
  destruct (fold_eval_counts (net w) ds batches (PyFloat 0, 0))
    as (Ht & Hn & Hk).
  fold ds batches in Hrun.
  set (counts := fold_left (eval_counts (net w) ds) batches (PyFloat 0, 0)) in *.
  cbn [fst snd scalar_value] in Ht, Hn.
  fold seen in Ht, Hn. fold correct in Ht.
  assert (Hne : batches <> []).
  { intros Hnil. apply Hseen. fold batches. now rewrite Hnil. }
  assert (Hpos : 0 < INR (length seen)).
  { apply lt_0_INR.
    assert (length seen <> 0)%nat
      by (intros H0; apply Hseen; now apply length_zero_iff_nil).
    lia. }
  assert (Hle : INR (length correct) <= INR (length seen)).
  { apply le_INR. apply filter_length_le. }
  rewrite (Hk Hne), Ht, Hn in Hrun. cbn [true_divide] in Hrun.
  destruct (Req_dec_T (0 + INR (length seen)) 0) as [Hz | _]; [lra |].
  cbn [net grad_enabled trace] in Hrun.
  eexists. eexists. split; [exact Hrun |].
  cbn [trace]. rewrite !Rplus_0_l.
  split; [now rewrite <- app_assoc |].
  split; [reflexivity |]. split.
  - unfold Rdiv. apply Rmult_le_pos; [apply pos_INR |].
    left. now apply Rinv_0_lt_compat.
  - apply (Rmult_le_reg_r (INR (length seen))); [exact Hpos |].
    unfold Rdiv. rewrite Rmult_assoc, Rinv_l by lra. lra.
Qed.

Lemma loader_example_in_range : loader_in_range loader_example [].
Proof. unfold loader_in_range. cbn. repeat constructor. Qed.

Lemma eval_reports_accuracy_witness :
  classifier_shaped 2 2 1 (net world_example) /\
  features_width 2 (dataset loader_example) /\
  loader_in_range loader_example [] /\
  concat (Loader.index_batches loader_example []) <> [] /\
  exists (acc : R) (w' : World),
    eval_model loader_example [] world_example = (Ok tt, w') /\
    last (trace w') EvStep = EvPrint (Finite acc) /\
    0 <= acc <= 1.
Proof.
  assert (Hseen : concat (Loader.index_batches loader_example []) <> [])
    by discriminate.
  split; [exact classifier_example_shaped |].
  split; [exact dataset_example_width |].
  split; [exact loader_example_in_range |]. split; [exact Hseen |].
  destruct (eval_reports_accuracy 2 2 world_example loader_example []
              classifier_example_shaped ltac:(lia) dataset_example_width
              loader_example_in_range Hseen)
    as (_ & acc & w' & Hrun & Htrace & _ & Hacc).
  exists acc, w'. split; [exact Hrun |]. split; [| exact Hacc].
  rewrite Htrace, app_assoc. apply last_last.
Defined.

(** Without a batch the evaluator raises [ZeroDivisionError] before it
    prints. *)
Lemma eval_model_without_batches (dl : DataLoader) (perm : list nat)
      (w : World) :
  Loader.index_batches dl perm = [] ->
  eval_model dl perm w
  = (Raise ZeroDivisionError,
     {| net := Calls.set_training false (net w);
        grad_enabled := grad_enabled w;
        trace := trace w |}).
Proof.
  intros Hnil.
  unfold eval_model, Calls.model_eval, update_net, with_no_grad, bind.
  rewrite Hnil. cbn.
  destruct (Req_dec_T 0 0) as [_ | Hne]; [reflexivity | exfalso; lra].
Qed.

(** C7 fails as stated: over the dataset without samples, which the
    constructor accepts, the evaluator raises and reports no accuracy. *)
Lemma eval_reports_nothing_on_empty_dataset :
  XORDataset_init 0 (1 / 10) rng_example = Ok dataset_empty /\
  Loader.DataLoader_init dataset_empty 128 false false = Ok loader_empty /\
  fst (eval_model loader_empty [] world_example) = Raise ZeroDivisionError /\
  trace (snd (eval_model loader_empty [] world_example)) = [] /\
  ~ (exists (acc : R) (w' : World),
        eval_model loader_empty [] world_example = (Ok tt, w') /\
        In (EvPrint (Finite acc)) (trace w') /\
        0 <= acc <= 1).
Proof.
  assert (Hrun : eval_model loader_empty [] world_example
                 = (Raise ZeroDivisionError,
                    {| net := Calls.set_training false (net world_example);
                       grad_enabled := grad_enabled world_example;
                       trace := trace world_example |}))
    by now apply eval_model_without_batches.
  split; [reflexivity |]. split; [reflexivity |].
  rewrite Hrun. split; [reflexivity |]. split; [reflexivity |].
  intros (acc & w' & Heq & _). discriminate Heq.
Qed.

(** C10.  When the loader yields no batch, as it does over an empty
    dataset, the evaluator divides the count 0 of correct predictions by
    the count 0 of samples: the division is not guarded, it raises, and no
    accuracy is produced. *)
Theorem eval_divides_by_zero_without_batches
        (w : World) (dl : DataLoader) (perm : list nat) :
  Loader.index_batches dl perm = [] ->
  fst (eval_model dl perm w) = Raise ZeroDivisionError /\
  true_divide (PyFloat 0) 0 = Raise ZeroDivisionError /\
  trace (snd (eval_model dl perm w)) = trace w /\
  ~ (exists w' : World, eval_model dl perm w = (Ok tt, w')).
Proof.
  intros Hnil.
  rewrite (eval_model_without_batches dl perm w Hnil). cbn [fst snd trace].
  split; [reflexivity |]. split; [| split; [reflexivity |]].
  - cbn. destruct (Req_dec_T 0 0) as [_ | Hne]; [reflexivity | exfalso; lra].
  - intros (w' & Heq). discriminate Heq.
Qed.

Lemma eval_divides_by_zero_without_batches_witness :
  XORDataset_len (dataset loader_empty) = 0%Z /\
  Loader.index_batches loader_empty [] = [] /\
  fst (eval_model loader_empty [] world_example) = Raise ZeroDivisionError.
Proof.
  split; [reflexivity |]. split; [reflexivity |].
  exact (proj1 (eval_divides_by_zero_without_batches
                  world_example loader_empty [] eq_refl)).
Defined.

(** ** Evaluation reads only *)

Lemma read_only_refl (w : World) : read_only w w.
Proof.
  repeat split. exists []. split; [now rewrite app_nil_r | constructor].
Qed.

Lemma read_only_trans (w1 w2 w3 : World) :
  read_only w1 w2 -> read_only w2 w3 -> read_only w1 w3.
Proof.
  intros (A1 & A2 & e1 & T1 & F1) (B1 & B2 & e2 & T2 & F2).
  split; [congruence |]. split; [congruence |].
  exists (e1 ++ e2). split.
  - rewrite T2, T1. now rewrite app_assoc.
  - apply Forall_app. now split.
Qed.

Lemma eval_batch_read_only (dl : DataLoader) (counts : scalar * R)
      (idxs : list nat) (w : World) :
  let w' := snd (eval_batch dl counts idxs w) in
  read_only w w' /\ grad_enabled w' = grad_enabled w.
Proof.
  unfold eval_batch, Calls.next_batch, Calls.model_call, bind, log, ret, lift.
  cbn -[forward eq_sum].
  destruct (Loader.fetch (dataset dl) idxs) as [samples | e];
    cbn -[forward eq_sum].
  - assert (Hread : read_only w
                      {| net := net w; grad_enabled := grad_enabled w;
                         trace := (trace w ++ [EvNextBatch idxs])
                                  ++ [EvForward (map fst samples)] |}).
    { repeat split.
      exists [EvNextBatch idxs; EvForward (map fst samples)].
      split; [now rewrite <- app_assoc | repeat constructor]. }
    destruct (forward (net w) (map fst samples)) as [out | e];
      cbn -[eq_sum]; [| now split].
    destruct (eq_sum _ _) as [n | e]; cbn; now split.
  - repeat split.
    exists [EvNextBatch idxs]. split; [reflexivity | repeat constructor].
Qed.

Lemma for_fold_read_only (dl : DataLoader) (l : list (list nat))
      (counts : scalar * R) (w : World) :
  let w' := snd (for_fold l counts (eval_batch dl) w) in
  read_only w w' /\ grad_enabled w' = grad_enabled w.
Proof.
  revert counts w. induction l as [| idxs l IH]; intros counts w.
  - split; [apply read_only_refl | reflexivity].
  - cbn [for_fold]. unfold bind.
    pose proof (eval_batch_read_only dl counts idxs w) as [Hr Hg].
    cbv zeta in Hr, Hg.
    destruct (eval_batch dl counts idxs w) as [[counts' | e] w1];
      cbn [snd] in *.
    + destruct (IH counts' w1) as [Hr' Hg']. cbv zeta in Hr', Hg'.
      split; [eapply read_only_trans; eassumption | congruence].
    + split; assumption.
Qed.

(** C8.  Evaluation is read-only with respect to the model: whatever the
    model and the loader, and whether or not the run succeeds, the
    evaluator fetches batches, makes forward passes and prints, nothing
    else; the forward passes record no graph, no gradient is computed, and
    both weight matrices and both bias vectors, with their gradients, are
    left as they were before the call. *)
Theorem eval_leaves_parameters_unchanged
        (w : World) (dl : DataLoader) (perm : list nat) :
  let w' := snd (eval_model dl perm w) in
  values_of (net w') = values_of (net w) /\
  grads_of (net w') = grads_of (net w) /\
  grad_enabled w' = grad_enabled w /\
  (exists evs : list event,
      trace w' = trace w ++ evs /\ Forall is_read_event evs) /\
  (forall (x : matrix) (w0 : World),
      fst (Calls.model_call x (set_grad_enabled false w0))
      = match forward (net w0) x with
        | Ok out => Ok {| value := out; grad_fn := None |}
        | Raise e => Raise e
        end).
Proof.
  cbv zeta.
  set (w0 := {| net := Calls.set_training false (net w);
                grad_enabled := grad_enabled w; trace := trace w |}).
  pose proof (for_fold_read_only dl (Loader.index_batches dl perm)
                (PyFloat 0, 0) (set_grad_enabled false w0)) as [Hr Hg].
  cbv zeta in Hr, Hg.
  set (w_loop := snd (for_fold (Loader.index_batches dl perm) (PyFloat 0, 0)
                               (eval_batch dl) (set_grad_enabled false w0)))
    in *.
  assert (Hw : exists evs : list event,
             Forall is_read_event evs /\
             snd (eval_model dl perm w)
             = {| net := net w_loop; grad_enabled := grad_enabled w;
                  trace := trace w_loop ++ evs |}).
  { unfold eval_model, Calls.model_eval, update_net, with_no_grad.
    unfold bind at 1. fold w0. unfold bind at 1. unfold w_loop.
    destruct (for_fold (Loader.index_batches dl perm) (PyFloat 0, 0)
                       (eval_batch dl) (set_grad_enabled false w0))
      as [[counts | e] w1]; cbn [snd grad_enabled w0 set_grad_enabled].
    - unfold bind, lift, print_accuracy, log.
      destruct (true_divide (fst counts) (snd counts)) as [acc | e];
        cbn [snd net grad_enabled trace].
      + exists [EvPrint acc]. split; [repeat constructor | reflexivity].
      + exists []. split; [constructor | now rewrite app_nil_r].
    - exists []. split; [constructor | now rewrite app_nil_r]. }
  destruct Hw as (evs' & Hev' & ->).
  destruct Hr as (L1 & L2 & evs & Ht & Hev).
  cbn [set_grad_enabled net grad_enabled trace w0] in *.
  unfold values_of, grads_of. rewrite L1, L2.
  split; [reflexivity |]. split; [reflexivity |]. split; [reflexivity |].
  split.
  - exists (evs ++ evs'). split.
    + now rewrite Ht, app_assoc.
    + apply Forall_app. now split.
  - intros x w1. unfold Calls.model_call, bind, log.
    cbn [set_grad_enabled net grad_enabled trace].
    destruct (forward (net w1) x); reflexivity.
Qed.

(** ** Saving and loading the parameters *)

Lemma shape_eqb_refl (s : list nat) : Persist.shape_eqb s s = true.
Proof.
  unfold Persist.shape_eqb. destruct (list_eq_dec Nat.eq_dec s s); congruence.
Qed.

Lemma fresh_classifiers_share_shapes
      (num_inputs num_hidden num_outputs : nat) (d1 d2 d1' d2' : init_draw) :
  parameter_shapes (SimpleClassifier_init num_inputs num_hidden num_outputs d1 d2)
  = parameter_shapes
      (SimpleClassifier_init num_inputs num_hidden num_outputs d1' d2').
Proof.
  unfold parameter_shapes, Persist.state_dict, SimpleClassifier_init,
    NN.Linear_init.
  cbn [map fst snd shape linear1 linear2 weight bias p_data].
  rewrite !length_map, !length_seq.
  destruct num_hidden, num_outputs; cbn [seq map hd length];
    rewrite ?length_map, ?length_seq; reflexivity.
Qed.

(** C9.  Saving the parameters of a model, as the mapping from the four
    parameter names to their tensors, and loading that mapping into
    another model of the same architecture succeeds and reproduces the
    parameters exactly; the loaded model then computes the same outputs as
    the original on every input batch. *)
Theorem save_then_load_round_trips
        (model new_model : SimpleClassifier) (filename : string)
        (fs : Persist.files) :
  parameter_shapes model = parameter_shapes new_model ->
  let fs' := Persist.torch_save (Persist.state_dict model) filename fs in
  map fst (Persist.state_dict model) = Persist.keys /\
  Persist.torch_load filename fs' = Ok (Persist.state_dict model) /\
  exists loaded : SimpleClassifier,
    match Persist.torch_load filename fs' with
    | Ok state_dict => Persist.load_state_dict new_model state_dict
    | Raise e => Raise e
    end = Ok loaded /\
    Persist.state_dict loaded = Persist.state_dict model /\
    values_of loaded = values_of model /\
    grads_of loaded = grads_of new_model /\
    (forall x : matrix, forward loaded x = forward model x).
Proof.
  intros Hshapes fs'.
  assert (Hload : Persist.torch_load filename fs' = Ok (Persist.state_dict model)).
  { unfold fs', Persist.torch_save. cbn [Persist.torch_load].
    now rewrite String.eqb_refl. }
  split; [reflexivity |]. split; [exact Hload |].
  rewrite Hload.
  assert (S1 : shape (Tensor2 (p_data (weight (linear1 model))))
               = shape (Tensor2 (p_data (weight (linear1 new_model)))))
    by exact (f_equal (fun l => nth 0 (map snd l) []) Hshapes).
  assert (S2 : shape (Tensor1 (p_data (bias (linear1 model))))
               = shape (Tensor1 (p_data (bias (linear1 new_model)))))
    by exact (f_equal (fun l => nth 1 (map snd l) []) Hshapes).
  assert (S3 : shape (Tensor2 (p_data (weight (linear2 model))))
               = shape (Tensor2 (p_data (weight (linear2 new_model)))))
    by exact (f_equal (fun l => nth 2 (map snd l) []) Hshapes).
  assert (S4 : shape (Tensor1 (p_data (bias (linear2 model))))
               = shape (Tensor1 (p_data (bias (linear2 new_model)))))
    by exact (f_equal (fun l => nth 3 (map snd l) []) Hshapes).
  unfold Persist.load_state_dict, Persist.state_dict.
  cbn [forallb existsb fst Persist.keys String.eqb Ascii.eqb Bool.eqb
       orb andb negb].
  unfold Persist.load_matrix, Persist.load_vector.
  cbn [Persist.lookup String.eqb Ascii.eqb Bool.eqb].
  rewrite S1, S2, S3, S4, !shape_eqb_refl.
  eexists. split; [reflexivity |].
  repeat split.
Qed.

Lemma save_then_load_round_trips_witness :
  parameter_shapes classifier_example
  = parameter_shapes (SimpleClassifier_init 2 2 1 init_example_3 init_example_3)
  /\
  exists loaded : SimpleClassifier,
    Persist.load_state_dict
      (SimpleClassifier_init 2 2 1 init_example_3 init_example_3)
      (Persist.state_dict classifier_example) = Ok loaded /\
    forall x : matrix, forward loaded x = forward classifier_example x.
Proof.
  assert (Hsh : parameter_shapes classifier_example
                = parameter_shapes
                    (SimpleClassifier_init 2 2 1 init_example_3 init_example_3))
    by reflexivity.
  split; [exact Hsh |].
  destruct (save_then_load_round_trips
              classifier_example
              (SimpleClassifier_init 2 2 1 init_example_3 init_example_3)
              "our_model.tar" [] Hsh)
    as (_ & Hload & loaded & Hrun & _ & _ & _ & Hfwd).
  rewrite Hload in Hrun.
  exists loaded. split; [exact Hrun | exact Hfwd].
Defined.

(** * Further properties of the notebooks *)

(** ** Indexing the dataset *)

(** X1.  A generated dataset answers [__getitem__] exactly at the indices
    below its size: there it returns a point of two features and a label
    that is 0 or 1; at the size and beyond it raises [IndexError]. *)
Theorem getitem_within_bounds
        (n : Z) (sigma : R) (g : rng) (ds : XORDataset) (idx : nat) :
  XORDataset_init n sigma g = Ok ds ->
  ((idx < Z.to_nat (XORDataset_len ds))%nat ->
   exists (x0 x1 : R) (l : Z),
     XORDataset_getitem ds idx = Ok ([x0; x1], l) /\ (l = 0%Z \/ l = 1%Z)) /\
  ((Z.to_nat (XORDataset_len ds) <= idx)%nat ->
   XORDataset_getitem ds idx = Raise IndexError).
Proof.
  intros Hinit.
  destruct (generated_fields _ _ _ _ Hinit) as (_ & Hlabel & Hdata & Hlen).
  unfold XORDataset_getitem.
  rewrite Hlen, Hlabel, Hdata, !nth_error_map_seq.
  split; intros Hidx.
  - apply Nat.ltb_lt in Hidx. rewrite Hidx.
    eexists. eexists. eexists. split; [reflexivity |].
    unfold xor_label. destruct (xorb _ _); auto.
  - apply Nat.ltb_ge in Hidx. now rewrite Hidx.
Qed.

Lemma getitem_within_bounds_witness :
  exists ds : XORDataset,
    XORDataset_init 2 (1 / 10) rng_example = Ok ds /\
    (exists (x0 x1 : R) (l : Z),
        XORDataset_getitem ds 1 = Ok ([x0; x1], l) /\ (l = 0%Z \/ l = 1%Z)) /\
    XORDataset_getitem ds 2 = Raise IndexError.
Proof.
  eexists. split; [reflexivity |].
  pose proof (getitem_within_bounds 2 (1 / 10) rng_example _ 1 eq_refl) as H1.
  pose proof (getitem_within_bounds 2 (1 / 10) rng_example _ 2 eq_refl) as H2.
  split.
  - apply (proj1 H1). cbn. lia.
  - apply (proj2 H2). cbn. lia.
Defined.

(** X2.  Without noise ([std = 0]) the features of every sample are its two
    clean bits, so the stored label is the XOR of the stored features: it
    is 1 exactly when the two features sum to 1. *)
Theorem noiseless_features_are_the_bits
        (n : Z) (g : rng) (ds : XORDataset) (idx : nat)
        (data_point : vector) (data_label : Z) :
  XORDataset_init n 0 g = Ok ds ->
  XORDataset_getitem ds idx = Ok (data_point, data_label) ->
  data_point = [clean_bit g idx 0; clean_bit g idx 1] /\
  (nth 0 data_point 0 = 0 \/ nth 0 data_point 0 = 1) /\
  (nth 1 data_point 0 = 0 \/ nth 1 data_point 0 = 1) /\
  (data_label = 1%Z <-> nth 0 data_point 0 + nth 1 data_point 0 = 1) /\
  (data_label = 0%Z <-> nth 0 data_point 0 = nth 1 data_point 0).
Proof.
  intros Hinit Hget.
  destruct (generated_fields _ _ _ _ Hinit) as (_ & Hlabel & Hdata & _).
  unfold XORDataset_getitem in Hget.
  rewrite Hlabel, Hdata, !nth_error_map_seq in Hget.
  destruct (idx <? Z.to_nat n)%nat; [| discriminate].
  injection Hget as <- <-.
  rewrite !Rmult_0_l, !Rplus_0_r. cbn [nth].
  unfold clean_bit, Torch.bit_to_float, xor_label.
  split; [reflexivity |].
  destruct (randint_draw g idx 0), (randint_draw g idx 1); cbn;
    repeat split; auto; intros; try discriminate; try lra.
Qed.

Lemma noiseless_features_are_the_bits_witness :
  exists (ds : XORDataset) (data_point : vector) (data_label : Z),
    XORDataset_init 2 0 rng_example = Ok ds /\
    XORDataset_getitem ds 0 = Ok (data_point, data_label) /\
    data_point = [0; 1].
Proof.
  eexists. eexists. eexists.
  split; [reflexivity |]. split; [reflexivity |].
  exact (proj1 (noiseless_features_are_the_bits 2 rng_example _ 0%nat _ _
                  eq_refl eq_refl)).
Defined.

(** ** Plotting the samples *)












Lemma generated_dataset_is_plottable
      (n : Z) (sigma : R) (g : rng) (ds : XORDataset) :
  XORDataset_init n sigma g = Ok ds ->
  length (data ds) = length (label ds) /\
  Forall (fun row => length row = 2%nat) (data ds) /\
  Forall (fun l => l = 0%Z \/ l = 1%Z) (label ds).
Proof.
  intros Hinit.
  destruct (generated_fields _ _ _ _ Hinit) as (_ & Hlabel & Hdata & _).
  rewrite Hlabel, Hdata, !length_map. split; [reflexivity |]. split.
  - apply Forall_forall. intros row Hrow. apply in_map_iff in Hrow.
    destruct Hrow as (k & <- & _). reflexivity.
  - apply Forall_forall. intros l Hl. apply in_map_iff in Hl.
    destruct Hl as (k & <- & _). unfold xor_label. destruct (xorb _ _); auto.
Qed.

(** ** What every run of a loop keeps *)

Lemma keeps_ret (I : SimpleClassifier -> Prop) (A : Type) (a : A) :
  keeps I (ret a).
Proof. intros w Hw. exact Hw. Qed.

Lemma keeps_lift (I : SimpleClassifier -> Prop) (A : Type) (r : result A) :
  keeps I (lift r).
Proof. intros w Hw. exact Hw. Qed.

Lemma keeps_raise (I : SimpleClassifier -> Prop) (A : Type) (e : exn) :
  keeps I (@raise A e).
Proof. intros w Hw. exact Hw. Qed.

Lemma keeps_log (I : SimpleClassifier -> Prop) (e : event) : keeps I (log e).
Proof. intros w Hw. exact Hw. Qed.

Lemma keeps_update_net (I : SimpleClassifier -> Prop)
      (f : SimpleClassifier -> SimpleClassifier) :
  (forall m, I m -> I (f m)) -> keeps I (update_net f).
Proof. intros Hf w Hw. now apply Hf. Qed.

Lemma keeps_bind (I : SimpleClassifier -> Prop) (A B : Type)
      (c : M A) (k : A -> M B) :
  keeps I c -> (forall a, keeps I (k a)) -> keeps I (bind c k).
Proof.
  intros Hc Hk w Hw. unfold bind. specialize (Hc w Hw).
  destruct (c w) as [[a | e] w1]; cbn [snd] in *.
  - now apply Hk.
  - exact Hc.
Qed.

Lemma keeps_for_each (I : SimpleClassifier -> Prop) (X : Type)
      (l : list X) (body : X -> M unit) :
  (forall x, keeps I (body x)) -> keeps I (for_each l body).
Proof.
  intros Hbody. induction l as [| x l IH]; cbn [for_each].
  - apply keeps_ret.
  - apply keeps_bind; [apply Hbody | intros _; exact IH].
Qed.

Lemma keeps_model_call (I : SimpleClassifier -> Prop) (x : matrix) :
  keeps I (Calls.model_call x).
Proof.
  intros w Hw. unfold Calls.model_call, bind, log.
  cbn [net grad_enabled trace]. destruct (forward (net w) x); exact Hw.
Qed.

(** A training step keeps every property that zeroing the gradients,
    accumulating a gradient and the SGD update keep. *)
Lemma keeps_train_step (I : SimpleClassifier -> Prop) (optimizer : SGD)
      (dl : DataLoader) (lm : LossModule) (idxs : list nat) :
  (forall m, I m -> I (parameters_map (fun T _ p => Autograd.zero_ p) m)) ->
  (forall g m, I m -> I (Backward.accumulate_grads g m)) ->
  (forall m, I m ->
             I (parameters_map
                  (fun T _ p => Autograd.sgd_update (lr optimizer) p) m)) ->
  keeps I (train_step optimizer dl lm idxs).
Proof.
  intros Hzero Hacc Hsgd. unfold train_step.
  apply keeps_bind.
  { unfold Calls.next_batch.
    apply keeps_bind; [apply keeps_log | intros _].
    apply keeps_bind; [apply keeps_lift | intros samples; apply keeps_ret]. }
  intros batch.
  apply keeps_bind; [apply keeps_model_call | intros preds].
  apply keeps_bind.
  { unfold Calls.loss_call.
    apply keeps_bind; [apply keeps_log | intros _].
    apply keeps_bind; [apply keeps_lift | intros l; apply keeps_ret]. }
  intros loss.
  apply keeps_bind.
  { unfold Optimizer.zero_grad.
    apply keeps_bind; [apply keeps_log | intros _].
    now apply keeps_update_net. }
  intros _.
  apply keeps_bind.
  { unfold Calls.backward.
    apply keeps_bind; [apply keeps_log | intros _].
    destruct (loss_grad_fn loss) as [[g u] |]; [| apply keeps_raise].
    apply keeps_update_net. intros m. apply Hacc. }
  intros _. unfold Optimizer.step.
  apply keeps_bind; [apply keeps_log | intros _].
  now apply keeps_update_net.
Qed.

Lemma keeps_train_loops (I : SimpleClassifier -> Prop) (optimizer : SGD)
      (dl : DataLoader) (lm : LossModule) (num_epochs : Z)
      (perms : nat -> list nat) :
  (forall m, I m -> I (parameters_map (fun T _ p => Autograd.zero_ p) m)) ->
  (forall g m, I m -> I (Backward.accumulate_grads g m)) ->
  (forall m, I m ->
             I (parameters_map
                  (fun T _ p => Autograd.sgd_update (lr optimizer) p) m)) ->
  keeps I (for_each (seq 0 (Z.to_nat num_epochs)) (fun epoch =>
             for_each (Loader.index_batches dl (perms epoch))
                      (train_step optimizer dl lm))).
Proof.
  intros Hzero Hacc Hsgd.
  apply keeps_for_each. intros epoch.
  apply keeps_for_each. intros idxs.
  now apply keeps_train_step.
Qed.

(** ** What training keeps *)

Lemma sgd_update_shape_vector (rate : R) (p : Param vector) :
  shape (Tensor1 (p_data (Autograd.sgd_update rate p)))
  = shape (Tensor1 (p_data p)).
Proof.
  unfold Autograd.sgd_update. destruct (p_grad p) as [g |]; [| reflexivity].
  cbn [p_data shape]. f_equal. apply zip_left_length.
Qed.

Lemma sgd_update_shape_matrix (rate : R) (p : Param matrix) :
  shape (Tensor2 (p_data (Autograd.sgd_update rate p)))
  = shape (Tensor2 (p_data p)).
Proof.
  unfold Autograd.sgd_update. destruct (p_grad p) as [g |]; [| reflexivity].
  cbn [p_data shape sub_scaled_ Elementwise_list].
  rewrite zip_left_length. do 2 f_equal.
  destruct (p_data p) as [| row rows]; [reflexivity |].
  destruct g as [| grow grows]; [reflexivity |].
  cbn [zip_left hd]. apply zip_left_length.
Qed.

Lemma sgd_update_keeps_shapes (rate : R) (m : SimpleClassifier) :
  parameter_shapes
    (parameters_map (fun T _ p => Autograd.sgd_update rate p) m)
  = parameter_shapes m.
Proof.
  unfold parameter_shapes, Persist.state_dict, parameters_map, Linear_map.
  cbn [map fst snd linear1 linear2 weight bias].
  now rewrite !sgd_update_shape_matrix, !sgd_update_shape_vector.
Qed.

(** X4.  Training never changes the architecture: after [train_model],
    whether it ran to the end or raised on the way, the four parameters
    have the names and shapes they had before, and the module is in
    training mode. *)
Theorem training_keeps_the_architecture
        (w : World) (optimizer : SGD) (dl : DataLoader) (lm : LossModule)
        (num_epochs : Z) (perms : nat -> list nat) :
  let w' := snd (train_model optimizer dl lm num_epochs perms w) in
  parameter_shapes (net w') = parameter_shapes (net w) /\
  training (net w') = true.
Proof.
  cbv zeta. split.
  - assert (Hkeeps : keeps (fun m => parameter_shapes m
                                     = parameter_shapes (net w))
                           (train_model optimizer dl lm num_epochs perms)).
    { unfold train_model. apply keeps_bind.
      - apply keeps_update_net. intros m Hm. exact Hm.
      - intros _. apply keeps_train_loops.
        + intros m Hm. exact Hm.
        + intros g m Hm. exact Hm.
        + intros m Hm. now rewrite sgd_update_keeps_shapes. }
    now apply Hkeeps.
  - apply (keeps_train_loops (fun m => training m = true)
             optimizer dl lm num_epochs perms
             (fun m Hm => Hm) (fun g m Hm => Hm) (fun m Hm => Hm)
             {| net := Calls.set_training true (net w);
                grad_enabled := grad_enabled w; trace := trace w |}).
    reflexivity.
Qed.

Lemma zip_left_keeps_left (T : Type) (f : T -> T -> T) :
  (forall x y, f x y = x) -> forall a b, zip_left f a b = a.
Proof.
  intros Hf a. induction a as [| x a IH]; intros [| y b]; cbn [zip_left];
    try reflexivity.
  now rewrite Hf, IH.
Qed.

Lemma sgd_update_rate_0 (T : Type) (E : Elementwise T) (p : Param T) :
  (forall x g : T, sub_scaled_ 0 x g = x) ->
  p_data (Autograd.sgd_update 0 p) = p_data p.
Proof.
  intros H0. unfold Autograd.sgd_update.
  destruct (p_grad p) as [g |]; [apply H0 | reflexivity].
Qed.

Lemma sub_scaled_0_vector (x g : vector) : sub_scaled_ 0 x g = x.
Proof.
  apply zip_left_keeps_left. intros a b. cbn. ring.
Qed.

Lemma sub_scaled_0_matrix (x g : matrix) : sub_scaled_ 0 x g = x.
Proof.
  apply zip_left_keeps_left. intros a b. apply sub_scaled_0_vector.
Qed.

(** X5.  With the learning rate 0 training moves no parameter: after
    [train_model], whether it ran to the end or raised on the way, the two
    weight matrices and the two bias vectors have the values they had
    before. *)
Theorem zero_learning_rate_moves_nothing
        (w : World) (optimizer : SGD) (dl : DataLoader) (lm : LossModule)
        (num_epochs : Z) (perms : nat -> list nat) :
  lr optimizer = 0 ->
  values_of (net (snd (train_model optimizer dl lm num_epochs perms w)))
  = values_of (net w).
Proof.
  intros Hlr.
  assert (Hkeeps : keeps (fun m => values_of m = values_of (net w))
                         (train_model optimizer dl lm num_epochs perms)).
  { unfold train_model. apply keeps_bind.
    - apply keeps_update_net. intros m Hm. exact Hm.
    - intros _. apply keeps_train_loops.
      + intros m Hm. exact Hm.
      + intros g m Hm. exact Hm.
      + intros m Hm. rewrite <- Hm, Hlr.
        unfold values_of, parameters_map, Linear_map.
        cbn [linear1 linear2 weight bias].
        rewrite !(sgd_update_rate_0 _ _ _ sub_scaled_0_matrix).
        rewrite !(sgd_update_rate_0 _ _ _ sub_scaled_0_vector).
        reflexivity. }
  now apply Hkeeps.
Qed.

Lemma zero_learning_rate_moves_nothing_witness :
  lr {| lr := 0 |} = 0 /\
  values_of (net (snd (train_model {| lr := 0 |} loader_example
                                   Loss.BCEWithLogitsLoss 3 (fun _ => [])
                                   world_example)))
  = values_of classifier_example.
Proof.
  split; [reflexivity |].
  exact (zero_learning_rate_moves_nothing
           world_example {| lr := 0 |} loader_example Loss.BCEWithLogitsLoss 3
           (fun _ => []) eq_refl).
Defined.

(** ** Training without a step *)

Lemma for_each_without_batches (X : Type) (l : list X)
      (batches : X -> list (list nat)) (body : list nat -> M unit) (w : World) :
  (forall x, In x l -> batches x = []) ->
  for_each l (fun x => for_each (batches x) body) w = (Ok tt, w).
Proof.
  induction l as [| x l IH]; intros Hnil; [reflexivity |].
  cbn [for_each]. unfold bind.
  rewrite (Hnil x (or_introl eq_refl)). cbn [for_each]. unfold ret.
  apply IH. intros x' Hin. apply Hnil. now right.
Qed.

(** X6.  When the number of epochs is not positive, or the loader yields
    no batch, [train_model] only switches the module to training mode: it
    makes no call, and the values and the gradients of the parameters stay
    as they were. *)
Theorem training_without_a_batch_is_idle
        (w : World) (optimizer : SGD) (dl : DataLoader) (lm : LossModule)
        (num_epochs : Z) (perms : nat -> list nat) :
  (num_epochs <= 0)%Z \/
  (forall epoch, Loader.index_batches dl (perms epoch) = []) ->
  train_model optimizer dl lm num_epochs perms w
  = (Ok tt, {| net := Calls.set_training true (net w);
               grad_enabled := grad_enabled w; trace := trace w |}) /\
  values_of (net (snd (train_model optimizer dl lm num_epochs perms w)))
  = values_of (net w) /\
  grads_of (net (snd (train_model optimizer dl lm num_epochs perms w)))
  = grads_of (net w).
Proof.
  intros Hidle.
  assert (Hrun : train_model optimizer dl lm num_epochs perms w
                 = (Ok tt, {| net := Calls.set_training true (net w);
                              grad_enabled := grad_enabled w;
                              trace := trace w |})).
  { unfold train_model, Calls.model_train, update_net. unfold bind at 1.
    apply for_each_without_batches.
    destruct Hidle as [Hneg | Hnil].
    - replace (Z.to_nat num_epochs) with 0%nat by lia. intros x [].
    - intros epoch _. apply Hnil. }
  rewrite Hrun. repeat split.
Qed.

Lemma training_without_a_batch_is_idle_witness :
  ((0 <= 0)%Z \/
   (forall epoch : nat, Loader.index_batches loader_example [] = [])) /\
  train_model {| lr := 1 / 10 |} loader_example Loss.BCEWithLogitsLoss 0
              (fun _ => []) world_example
  = (Ok tt, {| net := Calls.set_training true classifier_example;
               grad_enabled := true; trace := [] |}).
Proof.
  assert (H : (0 <= 0)%Z \/
              (forall epoch : nat, Loader.index_batches loader_example [] = []))
    by (left; lia).
  split; [exact H |].
  exact (proj1 (training_without_a_batch_is_idle
                  world_example {| lr := 1 / 10 |} loader_example
                  Loss.BCEWithLogitsLoss 0 (fun _ => []) H)).
Defined.

(** ** The number of updates *)

Lemma train_model_run (i h : nat) (w : World) (optimizer : SGD)
      (dl : DataLoader) (lm : LossModule) (num_epochs : Z)
      (perms : nat -> list nat) :
  grad_enabled w = true ->
  classifier_shaped i h 1 (net w) ->
  features_width i (dataset dl) ->
  accepts_equal_sizes lm ->
  (forall epoch, loader_in_range dl (perms epoch)) ->
  train_model optimizer dl lm num_epochs perms w
  = (Ok tt, train_world optimizer lm dl num_epochs perms w).
Proof.
  intros Hg Hm Hds Hlm Hrange.
  unfold train_model, Calls.model_train, update_net. unfold bind at 1.
  unfold train_world.
  apply (for_each_run _
           (fun epoch => for_each (Loader.index_batches dl (perms epoch))
                                  (train_step optimizer dl lm))
           (epoch_world optimizer lm dl perms)
           (fun w1 => grad_enabled w1 = true /\
                      classifier_shaped i h 1 (net w1)));
    [| split; [exact Hg | exact Hm]].
  intros epoch w1 _ Hw1. unfold epoch_world.
  apply (for_each_run _ (train_step optimizer dl lm)
           (step_world optimizer lm (dataset dl))
           (fun w2 => grad_enabled w2 = true /\
                      classifier_shaped i h 1 (net w2))); [| exact Hw1].
  intros idxs w2 Hin Hw2.
  apply train_step_keeps_ready; try assumption.
  specialize (Hrange epoch). unfold loader_in_range in Hrange.
  rewrite Forall_forall in Hrange. now apply Hrange.
Qed.

(** With a classifier that has not exactly one output the run ends at the
    loss of its first step, before any gradient is zeroed or computed and
    before any update. *)
Lemma train_model_stops_at_the_first_loss (i h o : nat) (w : World)
      (optimizer : SGD) (dl : DataLoader) (num_epochs : Z)
      (perms : nat -> list nat) (idxs : list nat) (rest : list (list nat)) :
  classifier_shaped i h o (net w) -> o <> 1%nat ->
  features_width i (dataset dl) ->
  (0 < num_epochs)%Z ->
  Loader.index_batches dl (perms 0%nat) = idxs :: rest ->
  idxs <> [] ->
  Forall (fun k => (k < length (data (dataset dl)))%nat /\
                   (k < length (label (dataset dl)))%nat) idxs ->
  train_model optimizer dl Loss.BCEWithLogitsLoss num_epochs perms w
  = (Raise ValueError,
     {| net := Calls.set_training true (net w);
        grad_enabled := grad_enabled w;
        trace := trace w ++ [EvNextBatch idxs;
                             EvForward (fst (batch_of (dataset dl) idxs));
                             EvLoss] |}).
Proof.
  intros Hm Ho Hds Hpos Hbatches Hne Hin.
  unfold train_model, Calls.model_train, update_net. unfold bind at 1.
  destruct (Z.to_nat num_epochs) as [| k] eqn:Hk; [lia |].
  cbn [seq for_each]. unfold bind at 1. rewrite Hbatches.
  cbn [for_each]. unfold bind at 1.
  rewrite (train_step_stops_at_the_loss i h o); try assumption.
  reflexivity.
Qed.

Lemma train_world_trace (w : World) (optimizer : SGD) (dl : DataLoader)
      (lm : LossModule) (num_epochs : Z) (perms : nat -> list nat) :
  trace (train_world optimizer lm dl num_epochs perms w)
  = trace w
    ++ flat_map (fun epoch => flat_map (step_events (dataset dl))
                                       (Loader.index_batches dl (perms epoch)))
                (seq 0 (Z.to_nat num_epochs)).
Proof.
  unfold train_world.
  assert (Hfold : forall epochs w0,
             trace (fold_left (epoch_world optimizer lm dl perms) epochs w0)
             = trace w0
               ++ flat_map (fun epoch =>
                              flat_map (step_events (dataset dl))
                                       (Loader.index_batches dl (perms epoch)))
                           epochs).
  { induction epochs as [| epoch epochs IH]; intros w0;
      cbn [fold_left flat_map].
    - now rewrite app_nil_r.
    - rewrite IH. unfold epoch_world at 1.
      destruct (fold_step_world optimizer lm (dataset dl)
                  (Loader.index_batches dl (perms epoch)) w0) as (_ & _ & Ht).
      cbv zeta in Ht. rewrite Ht. now rewrite <- app_assoc. }
  exact (Hfold _ _).
Qed.

Lemma count_events_app (p : event -> bool) (a b : list event) :
  count_events p (a ++ b) = (count_events p a + count_events p b)%nat.
Proof. unfold count_events. now rewrite filter_app, length_app. Qed.

Lemma count_events_steps (p : event -> bool) (ds : XORDataset)
      (l : list (list nat)) :
  (forall idxs, count_events p (step_events ds idxs) = 1%nat) ->
  count_events p (flat_map (step_events ds) l) = length l.
Proof.
  intros Hone. induction l as [| idxs l IH]; [reflexivity |].
  cbn [flat_map length]. now rewrite count_events_app, Hone, IH.
Qed.

Lemma count_events_epochs (p : event -> bool) (ds : XORDataset)
      (batches : list (list nat)) (epochs : list nat) :
  (forall idxs, count_events p (step_events ds idxs) = 1%nat) ->
  count_events p (flat_map (fun _ : nat => flat_map (step_events ds) batches)
                           epochs)
  = (length epochs * length batches)%nat.
Proof.
  intros Hone. induction epochs as [| epoch epochs IH]; [reflexivity |].
  cbn [flat_map length]. rewrite count_events_app, IH.
  rewrite (count_events_steps p ds batches Hone). lia.
Qed.

(** X7.  A training run of a classifier with one output, over a loader in
    natural order, with a positive batch size, on a dataset whose points
    have the width of its inputs,
    zeroes the gradients once, runs the backward pass once and applies the
    optimizer once for every batch of every epoch: each of the three is
    called epochs times batches-per-traversal times, no more and no less. *)
Theorem one_update_per_batch
        (i h : nat) (w : World) (optimizer : SGD) (dl : DataLoader)
        (lm : LossModule) (num_epochs : Z) (perms : nat -> list nat) :
  grad_enabled w = true ->
  classifier_shaped i h 1 (net w) -> (0 < h)%nat ->
  features_width i (dataset dl) ->
  (0 < batch_size dl)%Z ->
  accepts_equal_sizes lm ->
  (forall epoch, loader_in_range dl (perms epoch)) ->
  shuffle dl = false ->
  let w' := snd (train_model optimizer dl lm num_epochs perms w) in
  let updates :=
    (Z.to_nat num_epochs * length (Loader.index_batches dl []))%nat in
  count_events is_zero_grad (trace w')
  = (count_events is_zero_grad (trace w) + updates)%nat /\
  count_events is_backward (trace w')
  = (count_events is_backward (trace w) + updates)%nat /\
  count_events is_step (trace w')
  = (count_events is_step (trace w) + updates)%nat.
Proof.
  intros Hg Hm Hh Hds _ Hlm Hrange Hsh. cbv zeta.
  rewrite (train_model_run i h w optimizer dl lm num_epochs perms
             Hg Hm Hds Hlm Hrange).
  cbn [snd]. rewrite train_world_trace.
  assert (Hsame : forall epoch,
             Loader.index_batches dl (perms epoch)
             = Loader.index_batches dl []).
  { intros epoch. unfold Loader.index_batches, Loader.index_order.
    now rewrite Hsh. }
  rewrite (flat_map_ext _ (fun _ : nat =>
             flat_map (step_events (dataset dl)) (Loader.index_batches dl [])))
    by (intros epoch; now rewrite Hsame).
  rewrite !count_events_app, !count_events_epochs, length_seq
    by (intros idxs; reflexivity).
  repeat split.
Qed.

Lemma one_update_per_batch_witness :
  grad_enabled world_example = true /\
  classifier_shaped 2 2 1 (net world_example) /\
  features_width 2 (dataset loader_example) /\
  (0 < batch_size loader_example)%Z /\
  (forall epoch : nat, loader_in_range loader_example []) /\
  shuffle loader_example = false /\
  count_events is_step
    (trace (snd (train_model {| lr := 1 / 10 |} loader_example
                             Loss.BCEWithLogitsLoss 100 (fun _ => [])
                             world_example)))
  = 300%nat.
Proof.
  assert (Hrange : forall epoch : nat, loader_in_range loader_example [])
    by (intros _; exact loader_example_in_range).
  split; [reflexivity |]. split; [exact classifier_example_shaped |].
  split; [exact dataset_example_width |]. split; [reflexivity |].
  split; [exact Hrange |]. split; [reflexivity |].
  exact (proj2 (proj2 (one_update_per_batch
                         2 2 world_example {| lr := 1 / 10 |} loader_example
                         Loss.BCEWithLogitsLoss 100 (fun _ => [])
                         eq_refl classifier_example_shaped ltac:(lia)
                         dataset_example_width eq_refl
                         bce_accepts_equal_sizes Hrange eq_refl))).
Defined.

(** ** More on the evaluation *)

Lemma sigmoid_half_iff (z : R) : NN.sigmoid z >= 1 / 2 <-> 0 <= z.
Proof.
  unfold NN.sigmoid. pose proof (exp_pos (- z)) as He.
  assert (Hiff : 1 / (1 + exp (- z)) >= 1 / 2 <-> exp (- z) <= 1).
  { split; intros H.
    - apply Rge_le in H.
      apply (Rmult_le_compat_r (2 * (1 + exp (- z)))) in H; [| lra].
      field_simplify in H; lra.
    - apply Rle_ge.
      apply (Rmult_le_reg_r (2 * (1 + exp (- z)))); [lra |].
      field_simplify; lra. }
  rewrite Hiff. rewrite <- exp_0. split; intros H.
  - destruct (Rle_lt_dec 0 z) as [Hz | Hz]; [exact Hz |].
    assert (exp 0 < exp (- z)) by (apply exp_increasing; lra). lra.
  - destruct H as [Hlt | <-].
    + left. apply exp_increasing. lra.
    + right. f_equal. ring.
Qed.


Lemma eval_model_prints (i h : nat) (w : World) (dl : DataLoader)
      (perm : list nat) :
  classifier_shaped i h 1 (net w) ->
  features_width i (dataset dl) ->
  loader_in_range dl perm ->
  concat (Loader.index_batches dl perm) <> [] ->
  eval_model dl perm w
  = (Ok tt,
     {| net := Calls.set_training false (net w);
        grad_enabled := grad_enabled w;
        trace := trace w
                 ++ flat_map (eval_events (dataset dl))
                             (Loader.index_batches dl perm)
                 ++ [EvPrint (Finite (accuracy (net w) (dataset dl)
                                (concat (Loader.index_batches dl perm))))] |}).
Proof.
  intros Hm Hds Hrange Hseen.
  pose proof (eval_model_run i h dl perm w Hm Hds Hrange) as Hrun.
  cbv zeta in Hrun.
  destruct (fold_eval_counts (net w) (dataset dl)
              (Loader.index_batches dl perm) (PyFloat 0, 0)) as (Ht & Hn & Hk).
  cbv zeta in Ht, Hn, Hk. cbn [fst snd scalar_value] in Ht, Hn.
  assert (Hne : Loader.index_batches dl perm <> []).
  { intros Hnil. apply Hseen. now rewrite Hnil. }
  assert (Hpos : 0 < INR (length (concat (Loader.index_batches dl perm)))).
  { apply lt_0_INR.
    assert (length (concat (Loader.index_batches dl perm)) <> 0)%nat
      by (intros H0; apply Hseen; now apply length_zero_iff_nil).
    lia. }
  rewrite (Hk Hne), Ht, Hn in Hrun. cbn [true_divide] in Hrun.
  destruct (Req_dec_T (0 + INR (length (concat (Loader.index_batches dl perm))))
                      0) as [Hz | _]; [lra |].
  rewrite Hrun. cbn [net grad_enabled trace]. unfold accuracy.
  rewrite !Rplus_0_l, <- app_assoc. reflexivity.
Qed.

Lemma filter_length_permutation (A : Type) (f : A -> bool) (l l' : list A) :
  Permutation l l' -> length (filter f l) = length (filter f l').
Proof.
  induction 1 as [| x l l' _ IH | x y l | l l' l'' _ IH1 _ IH2];
    cbn [filter].
  - reflexivity.
  - destruct (f x); cbn [length]; now rewrite IH.
  - destruct (f x), (f y); reflexivity.
  - now rewrite IH1.
Qed.

Lemma concat_index_batches (dl : DataLoader) (perm : list nat) :
  (0 < batch_size dl)%Z -> drop_last dl = false ->
  concat (Loader.index_batches dl perm) = Loader.index_order dl perm.
Proof.
  intros Hb Hdrop. unfold Loader.index_batches. rewrite Hdrop.
  apply concat_slices; lia.
Qed.

(** X9.  For a classifier with one output, on a dataset whose points have
    the width of its inputs, the accuracy the evaluator prints depends
    neither on the batch size nor on the order of the samples: two loaders
    over the same dataset that keep the last batch and traverse the same
    indices, in any order and with any batch sizes, make it print the same
    value. *)
Theorem accuracy_ignores_batching_and_order
        (i h : nat) (w : World) (dl1 dl2 : DataLoader)
        (perm1 perm2 : list nat) :
  classifier_shaped i h 1 (net w) -> (0 < h)%nat ->
  features_width i (dataset dl1) ->
  dataset dl1 = dataset dl2 ->
  (0 < batch_size dl1)%Z -> (0 < batch_size dl2)%Z ->
  drop_last dl1 = false -> drop_last dl2 = false ->
  Permutation (Loader.index_order dl1 perm1) (Loader.index_order dl2 perm2) ->
  loader_in_range dl1 perm1 -> loader_in_range dl2 perm2 ->
  Loader.index_order dl1 perm1 <> [] ->
  exists (acc : R) (w1 w2 : World),
    eval_model dl1 perm1 w = (Ok tt, w1) /\
    eval_model dl2 perm2 w = (Ok tt, w2) /\
    last (trace w1) EvStep = EvPrint (Finite acc) /\
    last (trace w2) EvStep = EvPrint (Finite acc).
Proof.
  intros Hm Hh Hwidth Hds Hb1 Hb2 Hd1 Hd2 Hperm Hr1 Hr2 Hne.
  assert (Hwidth2 : features_width i (dataset dl2)) by now rewrite <- Hds.
  pose proof (concat_index_batches dl1 perm1 Hb1 Hd1) as Hc1.
  pose proof (concat_index_batches dl2 perm2 Hb2 Hd2) as Hc2.
  assert (Hne2 : Loader.index_order dl2 perm2 <> []).
  { intros Hnil. rewrite Hnil in Hperm.
    apply Permutation_sym, Permutation_nil in Hperm. contradiction. }
  pose proof (eval_model_prints i h w dl1 perm1 Hm Hwidth Hr1
                ltac:(now rewrite Hc1)) as Hrun1.
  pose proof (eval_model_prints i h w dl2 perm2 Hm Hwidth2 Hr2
                ltac:(now rewrite Hc2)) as Hrun2.
  rewrite Hc1 in Hrun1. rewrite Hc2 in Hrun2.
  exists (accuracy (net w) (dataset dl1) (Loader.index_order dl1 perm1)).
  eexists. eexists.
  split; [exact Hrun1 |]. split; [exact Hrun2 |].
  cbn [trace]. rewrite !app_assoc, !last_last.
  split; [reflexivity |].
  unfold accuracy. rewrite Hds.
  rewrite (filter_length_permutation _ _ _ _ Hperm).
  now rewrite (Permutation_length Hperm).
Qed.

Lemma accuracy_ignores_batching_and_order_witness :
  classifier_shaped 2 2 1 (net world_example) /\
  features_width 2 (dataset loader_example) /\
  Permutation (Loader.index_order loader_example [])
              (Loader.index_order loader_shuffled_example (rev (seq 0 10))) /\
  exists (acc : R) (w1 w2 : World),
    eval_model loader_example [] world_example = (Ok tt, w1) /\
    eval_model loader_shuffled_example (rev (seq 0 10)) world_example
    = (Ok tt, w2) /\
    last (trace w1) EvStep = EvPrint (Finite acc) /\
    last (trace w2) EvStep = EvPrint (Finite acc).
Proof.
  assert (Hperm : Permutation
                    (Loader.index_order loader_example [])
                    (Loader.index_order loader_shuffled_example
                                        (rev (seq 0 10))))
    by apply Permutation_rev.
  assert (Hr2 : loader_in_range loader_shuffled_example (rev (seq 0 10))).
  { unfold loader_in_range. cbn. repeat constructor. }
  split; [exact classifier_example_shaped |].
  split; [exact dataset_example_width |].
  split; [exact Hperm |].
  apply (accuracy_ignores_batching_and_order
           2 2 world_example loader_example loader_shuffled_example
           [] (rev (seq 0 10)) classifier_example_shaped ltac:(lia)
           dataset_example_width eq_refl eq_refl eq_refl eq_refl eq_refl
           Hperm loader_example_in_range Hr2).
  discriminate.
Defined.





(** ** Evaluating a reloaded model *)

Lemma forward_reads_values (m1 m2 : SimpleClassifier) (x : matrix) :
  values_of m1 = values_of m2 -> forward m1 x = forward m2 x.
Proof.
  unfold values_of. intros H. injection H as H1 H2 H3 H4.
  unfold forward, NN.Linear_forward. now rewrite H1, H2, H3, H4.
Qed.

Lemma add_events_app (e1 e2 : list event) (w : World) :
  add_events e2 (add_events e1 w) = add_events (e1 ++ e2) w.
Proof. unfold add_events. cbn. now rewrite app_assoc. Qed.

Lemma eval_batch_reads_values (dl : DataLoader) (counts : scalar * R)
      (idxs : list nat) (w1 w2 : World) :
  values_of (net w1) = values_of (net w2) ->
  exists (r : result (scalar * R)) (evs : list event),
    eval_batch dl counts idxs w1 = (r, add_events evs w1) /\
    eval_batch dl counts idxs w2 = (r, add_events evs w2).
Proof.
  intros Hv.
  unfold eval_batch, Calls.next_batch, Calls.model_call, bind, log, ret, lift.
  cbn -[forward eq_sum].
  destruct (Loader.fetch (dataset dl) idxs) as [samples | e];
    cbn -[forward eq_sum].
  - rewrite (forward_reads_values (net w1) (net w2) _ Hv).
    unfold add_events. rewrite <- !app_assoc.
    destruct (forward (net w2) (map fst samples)) as [out | e];
      cbn -[eq_sum].
    + destruct (eq_sum _ _) as [n | e];
        eexists; exists [EvNextBatch idxs; EvForward (map fst samples)];
        split; reflexivity.
    + eexists. exists [EvNextBatch idxs; EvForward (map fst samples)].
      split; reflexivity.
  - eexists. exists [EvNextBatch idxs]. split; reflexivity.
Qed.

Lemma for_fold_reads_values (dl : DataLoader) (l : list (list nat))
      (counts : scalar * R) (w1 w2 : World) :
  values_of (net w1) = values_of (net w2) ->
  exists (r : result (scalar * R)) (evs : list event),
    for_fold l counts (eval_batch dl) w1 = (r, add_events evs w1) /\
    for_fold l counts (eval_batch dl) w2 = (r, add_events evs w2).
Proof.
  revert counts w1 w2. induction l as [| idxs l IH]; intros counts w1 w2 Hv.
  - exists (Ok counts), []. unfold add_events. rewrite !app_nil_r.
    split; [now destruct w1 | now destruct w2].
  - cbn [for_fold]. unfold bind.
    destruct (eval_batch_reads_values dl counts idxs w1 w2 Hv)
      as (r & evs & H1 & H2).
    rewrite H1, H2. destruct r as [counts' | e].
    + destruct (IH counts' (add_events evs w1) (add_events evs w2) Hv)
        as (r' & evs' & H1' & H2').
      rewrite H1', H2', !add_events_app. now exists r', (evs ++ evs').
    + now exists (Raise e), evs.
Qed.

Lemma eval_model_unfold (dl : DataLoader) (perm : list nat) (w : World) :
  eval_model dl perm w
  = match for_fold (Loader.index_batches dl perm) (PyFloat 0, 0)
                   (eval_batch dl)
                   (set_grad_enabled false
                      {| net := Calls.set_training false (net w);
                         grad_enabled := grad_enabled w; trace := trace w |})
    with
    | (Ok counts, w1) =>
        match true_divide (fst counts) (snd counts) with
        | Ok acc => (Ok tt, add_events [EvPrint acc]
                                       (set_grad_enabled (grad_enabled w) w1))
        | Raise e => (Raise e, set_grad_enabled (grad_enabled w) w1)
        end
    | (Raise e, w1) => (Raise e, set_grad_enabled (grad_enabled w) w1)
    end.
Proof.
  unfold eval_model, Calls.model_eval, update_net, with_no_grad.
  unfold bind at 1. cbn [grad_enabled]. unfold bind at 1.
  destruct (for_fold (Loader.index_batches dl perm) (PyFloat 0, 0)
                     (eval_batch dl) _) as [[counts | e] w1]; [| reflexivity].
  unfold bind, lift, print_accuracy, log.
  destruct (true_divide (fst counts) (snd counts)); reflexivity.
Qed.

(** With two outputs the output is not squeezed, and the comparison with
    the labels broadcasts them over both columns of predictions: on the
    one sample of [loader_one] the evaluator counts two matches and prints
    an accuracy of 200%. *)
Lemma eval_model_counts_every_output :
  eval_model loader_one []
             {| net := classifier_two_outputs; grad_enabled := true;
                trace := [] |}
  = (Ok tt,
     {| net := Calls.set_training false classifier_two_outputs;
        grad_enabled := true;
        trace := [EvNextBatch [0%nat]; EvForward [[0; 1]];
                  EvPrint (Finite 2)] |}).
Proof.
  set (m := Calls.set_training false classifier_two_outputs).
  assert (Hm : classifier_shaped 2 2 2 m) by (repeat split; repeat constructor).
  assert (Hout : output_of m [0; 1] = [0; 0]).
  { unfold output_of, NN.affine, dot. cbn -[tanh]. f_equal; [ring |].
    f_equal. ring. }
  assert (Hhalf : binarize (map NN.sigmoid [0; 0]) = [1%Z; 1%Z]).
  { unfold binarize. cbn [map].
    destruct (Rge_dec (NN.sigmoid 0) (1 / 2)) as [_ | Hlt]; [reflexivity |].
    exfalso. apply Hlt. apply sigmoid_half_iff. lra. }
  assert (Hin : Forall (fun k => (k < length (data (dataset loader_one)))%nat /\
                                 (k < length (label (dataset loader_one)))%nat)
                       [0%nat]) by (repeat constructor).
  rewrite eval_model_unfold.
  change (Loader.index_batches loader_one []) with [[0%nat]].
  cbn [for_fold]. unfold bind at 1. unfold eval_batch. unfold bind at 1.
  rewrite (next_batch_run loader_one [0%nat] _ Hin).
  change (batch_of (dataset loader_one) [0%nat]) with ([[0; 1]], [1%Z]).
  cbn [fst snd]. unfold bind at 1.
  rewrite (model_call_run 2 2 2); [| exact Hm | repeat constructor].
  rewrite (squeeze_keeps_wide_outputs 2 2 2 _ _ _ Hm);
    [| discriminate | discriminate].
  cbn [value tensor_map map]. rewrite Hout, Hhalf.
  unfold bind, lift, ret, add_events, set_grad_enabled, true_divide.
  cbn -[Req_dec_T Rplus Rdiv].
  destruct (Req_dec_T (0 + 1) 0) as [Hz | _]; [exfalso; lra |].
  replace ((0 + (1 + 1)) / (0 + 1)) with 2 by field. reflexivity.
Qed.

Lemma eval_model_reads_values (dl : DataLoader) (perm : list nat)
      (w1 w2 : World) :
  values_of (net w1) = values_of (net w2) ->
  exists (r : result unit) (evs : list event),
    fst (eval_model dl perm w1) = r /\
    fst (eval_model dl perm w2) = r /\
    trace (snd (eval_model dl perm w1)) = trace w1 ++ evs /\
    trace (snd (eval_model dl perm w2)) = trace w2 ++ evs.
Proof.
  intros Hv. rewrite !eval_model_unfold.
  set (v1 := set_grad_enabled false
               {| net := Calls.set_training false (net w1);
                  grad_enabled := grad_enabled w1; trace := trace w1 |}).
  set (v2 := set_grad_enabled false
               {| net := Calls.set_training false (net w2);
                  grad_enabled := grad_enabled w2; trace := trace w2 |}).
  destruct (for_fold_reads_values dl (Loader.index_batches dl perm)
              (PyFloat 0, 0) v1 v2 Hv) as (r & evs & H1 & H2).
  rewrite H1, H2. destruct r as [counts | e].
  - destruct (true_divide (fst counts) (snd counts)) as [acc | e];
      cbn [fst snd trace set_grad_enabled add_events net grad_enabled v1 v2].
    + exists (Ok tt), (evs ++ [EvPrint acc]). rewrite <- !app_assoc.
      repeat split.
    + exists (Raise e), evs. repeat split.
  - cbn [fst snd trace set_grad_enabled add_events net grad_enabled v1 v2].
    exists (Raise e), evs. repeat split.
Qed.

Lemma load_state_dict_values (model new_model loaded : SimpleClassifier) :
  Persist.load_state_dict new_model (Persist.state_dict model) = Ok loaded ->
  values_of loaded = values_of model /\
  grads_of loaded = grads_of new_model /\
  parameter_shapes new_model = parameter_shapes model.
Proof.
  unfold Persist.load_state_dict, Persist.state_dict.
  cbn [forallb existsb fst Persist.keys String.eqb Ascii.eqb Bool.eqb
       orb andb negb].
  unfold Persist.load_matrix, Persist.load_vector.
  cbn [Persist.lookup String.eqb Ascii.eqb Bool.eqb].
  unfold Persist.shape_eqb.
  repeat match goal with
         | |- context [list_eq_dec Nat.eq_dec ?a ?b] =>
             destruct (list_eq_dec Nat.eq_dec a b); [| discriminate]
         end.
  intros H. injection H as <-.
  unfold parameter_shapes, Persist.state_dict. cbn [map fst snd].
  repeat split; congruence.
Qed.

(** X11.  A model reloaded from a state dict evaluates like the model that
    was saved: when [load_state_dict] accepts the saved parameters, the
    evaluator makes the same calls, prints the same accuracy and ends the
    same way on both, over every loader. *)
Theorem reloaded_model_evaluates_alike
        (model new_model loaded : SimpleClassifier)
        (dl : DataLoader) (perm : list nat) (g : bool) (t : list event) :
  Persist.load_state_dict new_model (Persist.state_dict model) = Ok loaded ->
  let w_saved := {| net := model; grad_enabled := g; trace := t |} in
  let w_loaded := {| net := loaded; grad_enabled := g; trace := t |} in
  fst (eval_model dl perm w_loaded) = fst (eval_model dl perm w_saved) /\
  trace (snd (eval_model dl perm w_loaded))
  = trace (snd (eval_model dl perm w_saved)) /\
  (forall x : matrix, forward loaded x = forward model x).
Proof.
  intros Hload w_saved w_loaded.
  destruct (load_state_dict_values model new_model loaded Hload) as (Hv & _).
  destruct (eval_model_reads_values dl perm w_loaded w_saved Hv)
    as (r & evs & H1 & H2 & H3 & H4).
  rewrite H1, H2, H3, H4. repeat split.
  intros x. now apply forward_reads_values.
Qed.

Lemma reloaded_model_evaluates_alike_witness :
  exists loaded : SimpleClassifier,
    Persist.load_state_dict
      (SimpleClassifier_init 2 2 1 init_example_3 init_example_3)
      (Persist.state_dict classifier_example) = Ok loaded /\
    fst (eval_model loader_example []
                    {| net := loaded; grad_enabled := true; trace := [] |})
    = fst (eval_model loader_example [] world_example).
Proof.
  assert (Hload : exists loaded,
             Persist.load_state_dict
               (SimpleClassifier_init 2 2 1 init_example_3 init_example_3)
               (Persist.state_dict classifier_example) = Ok loaded).
  { eexists. reflexivity. }
  destruct Hload as [loaded Hload]. exists loaded. split; [exact Hload |].
  exact (proj1 (reloaded_model_evaluates_alike
                  classifier_example _ loaded loader_example [] true []
                  Hload)).
Defined.

(** ** The sign of the loss *)

Lemma stable_bce_nonneg (z y : R) :
  0 <= y <= 1 -> 0 <= Loss.bce_with_logits_stable z y.
Proof.
  intros [Hy0 Hy1]. unfold Loss.bce_with_logits_stable.
  assert (Hln : 0 <= ln (1 + exp (- Rabs z))).
  { rewrite <- ln_1. pose proof (exp_pos (- Rabs z)) as He.
    destruct (Rle_lt_or_eq_dec 1 (1 + exp (- Rabs z))) as [Hlt | Heq];
      [lra | | lra].
    left. apply ln_increasing; lra. }
  destruct (Rle_lt_dec 0 z) as [Hpos | Hneg].
  - rewrite Rmax_left by lra. nra.
  - rewrite Rmax_right by lra. nra.
Qed.

Lemma sum_nonneg (v : vector) :
  Forall (fun t => 0 <= t) v -> 0 <= fold_right Rplus 0 v.
Proof.
  induction 1 as [| t v Ht _ IH]; cbn [fold_right]; lra.
Qed.

Lemma mean_nonneg (v : vector) : Forall (fun t => 0 <= t) v -> 0 <= mean v.
Proof.
  intros Hv. unfold mean, Rdiv.
  apply Rmult_le_pos; [now apply sum_nonneg |].
  destruct (length v) as [| k]; [cbn [INR]; rewrite Rinv_0; lra |].
  left. apply Rinv_0_lt_compat. apply lt_0_INR. lia.
Qed.

(** X12.  The loss of a batch is never negative when the targets lie in
    [0, 1], as the 0/1 labels of the dataset do: the loss module returns a
    value for logits with one target each, and every value it returns is
    at least 0. *)
Theorem loss_is_never_negative (z y : vector) :
  Forall (fun t => 0 <= t <= 1) y ->
  (length z = length y ->
   exists l : R,
     loss_forward Loss.BCEWithLogitsLoss (Tensor1 z) y = Ok l /\ 0 <= l) /\
  (forall (input : Tensor) (l : R),
      loss_forward Loss.BCEWithLogitsLoss input y = Ok l -> 0 <= l).
Proof.
  intros Hy.
  assert (Hpos : forall z0 : vector,
             0 <= mean (map (fun zy => Loss.bce (NN.sigmoid (fst zy)) (snd zy))
                            (combine z0 y))).
  { intros z0. apply mean_nonneg. apply Forall_forall. intros t Ht.
    apply in_map_iff in Ht. destruct Ht as ([zi yi] & <- & Hin).
    cbn [fst snd]. rewrite bce_sigmoid_is_stable_form.
    apply stable_bce_nonneg.
    apply in_combine_r in Hin. rewrite Forall_forall in Hy. now apply Hy. }
  split.
  - intros Hlen. cbn [loss_forward Loss.BCEWithLogitsLoss].
    rewrite Hlen, Nat.eqb_refl. eexists. split; [reflexivity | apply Hpos].
  - intros [z0 | m] l; cbn [loss_forward Loss.BCEWithLogitsLoss];
      [| discriminate].
    destruct (length z0 =? length y)%nat; [| discriminate].
    intros H. injection H as <-. apply Hpos.
Qed.

Lemma loss_is_never_negative_witness :
  Forall (fun t => 0 <= t <= 1) [1; 0] /\
  exists l : R,
    loss_forward Loss.BCEWithLogitsLoss (Tensor1 [3; -2]) [1; 0] = Ok l /\
    0 <= l.
Proof.
  assert (Hy : Forall (fun t => 0 <= t <= 1) [1; 0])
    by (repeat constructor; lra).
  split; [exact Hy |].
  exact (proj1 (loss_is_never_negative [3; -2] [1; 0] Hy) eq_refl).
Defined.

(** ** Shuffled and truncated traversals *)

Lemma firstn_plus (A : Type) (a b : nat) (l : list A) :
  firstn (a + b) l = firstn a l ++ firstn b (skipn a l).
Proof.
  revert l. induction a as [| a IH]; intros l; [reflexivity |].
  destruct l as [| x l]; cbn [Nat.add firstn skipn app].
  - now rewrite firstn_nil.
  - now rewrite IH.
Qed.

Lemma concat_full_slices (b : nat) (order : list nat) (k : nat) :
  concat (map (fun i => firstn b (skipn (i * b) order)) (seq 0 k))
  = firstn (k * b) order.
Proof.
  induction k as [| k IH]; [reflexivity |].
  rewrite seq_S, map_app, concat_app, IH. cbn [map concat Nat.add].
  rewrite app_nil_r. cbn [Nat.mul].
  rewrite (Nat.add_comm b (k * b)). symmetry. apply firstn_plus.
Qed.

(** X13.  A loader with a positive batch size visits the indices in the
    order of the traversal, each one once: keeping the last batch, its
    batches put end to end are the whole order, so that a shuffling loader
    whose draw is a permutation of 0..n-1 yields every sample exactly once
    per epoch; dropping the last batch, they are the longest prefix of the
    order whose length is a multiple of the batch size.  No batch is empty
    and none exceeds the batch size. *)
Theorem loader_visits_each_index_once (dl : DataLoader) (perm : list nat) :
  (0 < batch_size dl)%Z ->
  let b := Z.to_nat (batch_size dl) in
  let order := Loader.index_order dl perm in
  let batches := Loader.index_batches dl perm in
  concat batches
  = (if drop_last dl then firstn (length order / b * b) order else order) /\
  Forall (fun c => (0 < length c <= b)%nat) batches /\
  (shuffle dl = true -> drop_last dl = false ->
   Permutation perm (seq 0 (Z.to_nat (XORDataset_len (dataset dl)))) ->
   Permutation (concat batches)
               (seq 0 (Z.to_nat (XORDataset_len (dataset dl))))).
Proof.
  intros Hb b order batches.
  assert (Hbn : (0 < b)%nat) by (unfold b; lia).
  assert (Hform : Loader.slices (length order) b order
                  = map (fun i => firstn b (skipn (i * b) order))
                        (seq 0 (ceil_div b (length order))))
    by (apply slices_closed_form; [exact Hbn | reflexivity]).
  assert (Hlen : forall i, length (firstn b (skipn (i * b) order))
                           = Nat.min b (length order - i * b))
    by (intros i; now rewrite length_firstn, length_skipn).
  assert (Hconcat : concat batches
                    = if drop_last dl
                      then firstn (length order / b * b) order else order).
  { unfold batches, Loader.index_batches. fold b order.
    destruct (drop_last dl).
    - rewrite Hform, filter_map_swap.
      rewrite (filter_ext _ (fun i => (i <? length order / b)%nat))
        by (intros i; rewrite Hlen; now apply full_chunk_iff).
      rewrite filter_ltb_seq.
      replace (Nat.min (length order / b) (ceil_div b (length order)))
        with (length order / b)%nat
        by (pose proof (floor_le_ceil b Hbn (length order)); lia).
      apply concat_full_slices.
    - apply concat_slices; [exact Hbn | reflexivity]. }
  split; [exact Hconcat |]. split.
  - unfold batches, Loader.index_batches. fold b order.
    assert (Hall : Forall (fun c => (0 < length c <= b)%nat)
                          (Loader.slices (length order) b order)).
    { rewrite Hform. apply Forall_forall. intros c Hc.
      apply in_map_iff in Hc. destruct Hc as (i & <- & Hi).
      apply in_seq in Hi. rewrite Hlen.
      assert (ceil_div b (length order) * b < length order + b)%nat.
      { unfold ceil_div.
        pose proof (Nat.Div0.mul_div_le (length order + b - 1) b). lia. }
      assert (i * b < length order)%nat by nia. lia. }
    destruct (drop_last dl); [| exact Hall].
    apply Forall_forall. intros c Hc. apply filter_In in Hc.
    rewrite Forall_forall in Hall. now apply Hall.
  - intros Hsh Hdrop Hperm. rewrite Hconcat, Hdrop.
    unfold order, Loader.index_order. now rewrite Hsh.
Qed.

Lemma loader_visits_each_index_once_witness :
  (0 < batch_size loader_shuffled_example)%Z /\
  map (@length nat)
      (Loader.index_batches loader_shuffled_example (rev (seq 0 10)))
  = [3; 3; 3; 1]%nat /\
  concat (Loader.index_batches loader_shuffled_example (rev (seq 0 10)))
  = rev (seq 0 10).
Proof.
  split; [reflexivity |]. split; [reflexivity |].
  exact (proj1 (loader_visits_each_index_once
                  loader_shuffled_example (rev (seq 0 10)) eq_refl)).
Defined.

(** ** The shapes of the classifier *)

Lemma Linear_init_shaped (in_features out_features : nat) (d : init_draw) :
  Linear_shaped in_features out_features
                (NN.Linear_init in_features out_features d).
Proof.
  unfold Linear_shaped, NN.Linear_init. cbn [weight bias p_data].
  rewrite !length_map, !length_seq. repeat split.
  apply Forall_forall. intros row Hrow. apply in_map_iff in Hrow.
  destruct Hrow as (j & <- & _). now rewrite length_map, length_seq.
Qed.

Lemma fresh_classifier_shaped
      (num_inputs num_hidden num_outputs : nat) (d1 d2 : init_draw) :
  classifier_shaped num_inputs num_hidden num_outputs
    (SimpleClassifier_init num_inputs num_hidden num_outputs d1 d2).
Proof. split; apply Linear_init_shaped. Qed.

Lemma Linear_shaped_shape (i o : nat) (l : Linear) :
  Linear_shaped i o l -> (0 < o)%nat ->
  shape (Tensor2 (p_data (weight l))) = [o; i] /\
  shape (Tensor1 (p_data (bias l))) = [o].
Proof.
  intros (Ho & HW & Hb) Hpos. cbn [shape].
  split; [| f_equal; exact Hb].
  f_equal; [exact Ho | f_equal].
  destruct (p_data (weight l)) as [| row W]; [cbn [length] in Ho; lia |].
  apply Forall_inv in HW. exact HW.
Qed.

(** X14.  A classifier built for I inputs, H > 0 hidden units and O > 0
    outputs has, fresh or trained, the four parameters linear1.weight of
    shape [H, I], linear1.bias of shape [H], linear2.weight of shape
    [O, H] and linear2.bias of shape [O]; on a batch of rows of I entries
    its forward pass returns one row of O outputs for every row of the
    batch, and a batch with a row of another width is refused with
    [RuntimeError]. *)
Theorem classifier_shapes
        (num_inputs num_hidden num_outputs : nat) (d1 d2 : init_draw)
        (m : SimpleClassifier) (x : matrix) :
  classifier_shaped num_inputs num_hidden num_outputs m ->
  (0 < num_hidden)%nat -> (0 < num_outputs)%nat ->
  classifier_shaped num_inputs num_hidden num_outputs
    (SimpleClassifier_init num_inputs num_hidden num_outputs d1 d2) /\
  (forall (optimizer : SGD) (lm : LossModule) (ds : XORDataset)
          (idxs : list nat),
      classifier_shaped num_inputs num_hidden num_outputs
                        (step_net optimizer lm ds m idxs)) /\
  parameter_shapes m
  = [("linear1.weight"%string, [num_hidden; num_inputs]);
     ("linear1.bias"%string, [num_hidden]);
     ("linear2.weight"%string, [num_outputs; num_hidden]);
     ("linear2.bias"%string, [num_outputs])] /\
  (Forall (fun row => length row = num_inputs) x ->
   exists out : matrix,
     forward m x = Ok out /\
     length out = length x /\
     Forall (fun row => length row = num_outputs) out) /\
  (Exists (fun row => length row <> num_inputs) x ->
   forward m x = Raise RuntimeError).
Proof.
  intros Hm Hh Ho.
  split; [apply fresh_classifier_shaped |].
  split; [intros optimizer lm ds idxs; now apply step_net_shaped |].
  split; [| split].
  - destruct Hm as [H1 H2].
    destruct (Linear_shaped_shape _ _ _ H1 Hh) as [S1 S2].
    destruct (Linear_shaped_shape _ _ _ H2 Ho) as [S3 S4].
    unfold parameter_shapes, Persist.state_dict. cbn [map fst snd].
    now rewrite S1, S2, S3, S4.
  - intros Hx. exists (map (output_of m) x).
    split; [now apply (forward_ok num_inputs num_hidden num_outputs) |].
    split; [apply length_map |].
    apply Forall_forall. intros row Hrow. apply in_map_iff in Hrow.
    destruct Hrow as (r & <- & _).
    now apply (output_of_length num_inputs num_hidden num_outputs).
  - intros Hx.
    now apply (forward_rejects num_inputs num_hidden num_outputs).
Qed.

Lemma classifier_shapes_witness :
  classifier_shaped 2 2 1 classifier_example /\
  parameter_shapes classifier_example
  = [("linear1.weight"%string, [2; 2]%nat); ("linear1.bias"%string, [2]%nat);
     ("linear2.weight"%string, [1; 2]%nat); ("linear2.bias"%string, [1]%nat)] /\
  (exists out : matrix,
      forward classifier_example [[0; 1]; [1; 1]; [0; 0]] = Ok out /\
      Forall (fun row => length row = 1%nat) out) /\
  forward classifier_example [[0; 1]; [1; 1; 1]] = Raise RuntimeError.
Proof.
  destruct (classifier_shapes 2 2 1 init_example_1 init_example_2
              classifier_example [[0; 1]; [1; 1]; [0; 0]]
              classifier_example_shaped ltac:(lia) ltac:(lia))
    as (_ & _ & Hs & Hok & _).
  destruct (classifier_shapes 2 2 1 init_example_1 init_example_2
              classifier_example [[0; 1]; [1; 1; 1]]
              classifier_example_shaped ltac:(lia) ltac:(lia))
    as (_ & _ & _ & _ & Hbad).
  split; [exact classifier_example_shaped |]. split; [exact Hs |]. split.
  - destruct (Hok ltac:(repeat constructor)) as (out & Hrun & _ & Hrows).
    exists out. split; [exact Hrun | exact Hrows].
  - apply Hbad. right. left. cbn [length]. lia.
Defined.

(** ** The gradient of the introductory graph *)

Lemma sum_app (a b : vector) :
  fold_right Rplus 0 (a ++ b) = fold_right Rplus 0 a + fold_right Rplus 0 b.
Proof.
  induction a as [| t a IH]; cbn [app fold_right]; [lra | rewrite IH; lra].
Qed.

Lemma set_entry_length (i : nat) (t : R) (x : vector) :
  (i < length x)%nat -> length (set_entry i t x) = length x.
Proof.
  intros Hi. unfold set_entry.
  rewrite length_app, length_firstn. cbn [length]. rewrite length_skipn. lia.
Qed.

Lemma graph_example_at_entry (i : nat) (t : R) (x : vector) :
  (i < length x)%nat ->
  graph_example (set_entry i t x)
  = / INR (length x)
    * ((fold_right Rplus 0
          (map (fun s => (s + 2) ^ 2 + 3) (firstn i x))
        + 3
        + fold_right Rplus 0
            (map (fun s => (s + 2) ^ 2 + 3) (skipn (S i) x)))
       + (t + 2) ^ 2).
Proof.
  intros Hi. unfold graph_example, mean.
  rewrite !map_map, !length_map, set_entry_length by exact Hi.
  unfold set_entry. rewrite map_app, sum_app. cbn [map fold_right].
  unfold Rdiv. ring.
Qed.

(** X15.  For the graph a = x + 2, b = a ** 2, c = b + 3, y = c.mean() the
    partial derivative of y with respect to the entry i of x is
    2 (x_i + 2) / n, with n the number of entries: this is the gradient
    that the backward pass stores in [x.grad]. *)
Theorem graph_example_gradient (x : vector) (i : nat) :
  (i < length x)%nat ->
  set_entry i (nth i x 0) x = x /\
  derivable_pt_lim (fun t => graph_example (set_entry i t x)) (nth i x 0)
                   (2 * (nth i x 0 + 2) / INR (length x)).
Proof.
  intros Hi. split.
  - unfold set_entry. clear -Hi. revert i Hi.
    induction x as [| s x IH]; intros [| i] Hi; cbn [length] in Hi;
      try lia; [reflexivity |].
    cbn [firstn skipn nth app] in *. f_equal. apply IH. lia.
  - set (k := fold_right Rplus 0
                (map (fun s => (s + 2) ^ 2 + 3) (firstn i x))
              + 3
              + fold_right Rplus 0
                  (map (fun s => (s + 2) ^ 2 + 3) (skipn (S i) x))).
    apply (derivable_pt_lim_ext
             (mult_real_fct (/ INR (length x))
                (plus_fct (fct_cte k)
                          (comp (fun s => s ^ 2) (plus_fct id (fct_cte 2)))))).
    + intros t. rewrite (graph_example_at_entry i t x Hi). reflexivity.
    + replace (2 * (nth i x 0 + 2) / INR (length x))
        with (/ INR (length x)
              * (0 + INR 2 * (nth i x 0 + 2) ^ Nat.pred 2 * (1 + 0)))
        by (cbn [INR Nat.pred pow]; unfold Rdiv; ring).
      apply derivable_pt_lim_scal.
      apply derivable_pt_lim_plus; [apply derivable_pt_lim_const |].
      apply derivable_pt_lim_comp.
      * apply derivable_pt_lim_plus;
          [apply derivable_pt_lim_id | apply derivable_pt_lim_const].
      * apply (derivable_pt_lim_pow (plus_fct id (fct_cte 2) (nth i x 0)) 2).
Qed.

Lemma graph_example_gradient_witness :
  graph_example [0; 1; 2] = 38 / 3 /\
  derivable_pt_lim (fun t => graph_example (set_entry 2 t [0; 1; 2])) 2 (8 / 3).
Proof.
  split.
  - unfold graph_example, mean. cbn [map fold_right length INR]. field.
  - replace (8 / 3) with (2 * (nth 2 [0; 1; 2] 0 + 2) / INR (length [0; 1; 2]))
      by (cbn [nth length INR]; field).
    apply (graph_example_gradient [0; 1; 2] 2). cbn [length]. lia.
Defined.

(** ** The download of the pretrained files *)

Lemma isfile_In (d : Disk) (path : string) :
  isfile d path = true <-> In path (files_on_disk d).
Proof.
  unfold isfile. rewrite existsb_exists. split.
  - intros (p & Hin & Heq). apply String.eqb_eq in Heq. now subst.
  - intros Hin. exists path. split; [exact Hin | apply String.eqb_refl].
Qed.

Lemma download_one_files (urlretrieve : string -> retrieve_outcome)
      (d d' : Disk) (file_name : string) :
  download_one urlretrieve d file_name = Some d' ->
  let file_path := path_join CHECKPOINT_PATH file_name in
  (files_on_disk d' = files_on_disk d /\
   (In file_path (files_on_disk d) \/
    urlretrieve (base_url ++ file_name)%string = HTTPError)) \/
  (files_on_disk d' = file_path :: files_on_disk d /\
   ~ In file_path (files_on_disk d) /\
   urlretrieve (base_url ++ file_name)%string = Retrieved).
Proof.
  unfold download_one. cbv zeta.
  destruct (isfile d (path_join CHECKPOINT_PATH file_name)) eqn:Hfile;
    cbn [negb].
  - intros H. injection H as <-. left. split; [reflexivity |].
    left. now apply isfile_In.
  - destruct (urlretrieve (base_url ++ file_name)%string) eqn:Hu;
      intros H; try discriminate; injection H as <-; cbn [files_on_disk].
    + right. split; [reflexivity |]. split; [| reflexivity].
      intros Hin. apply isfile_In in Hin. congruence.
    + left. split; [reflexivity |]. now right.
Qed.

Lemma download_all_files (urlretrieve : string -> retrieve_outcome)
      (names : list string) (d d' : Disk) :
  download_all urlretrieve names d = Some d' ->
  (forall path,
      In path (files_on_disk d') <->
      In path (files_on_disk d) \/
      exists file_name,
        In file_name names /\ path = path_join CHECKPOINT_PATH file_name /\
        urlretrieve (base_url ++ file_name)%string = Retrieved) /\
  (NoDup (files_on_disk d) -> NoDup (files_on_disk d')).
Proof.
  revert d. induction names as [| file_name names IH]; intros d Hrun.
  - injection Hrun as <-. split.
    + intros path. split; [now left |]. intros [H | (n & [] & _)]. exact H.
    + intros H. exact H.
  - cbn [download_all] in Hrun.
    destruct (download_one urlretrieve d file_name) as [d1 |] eqn:Hone;
      [| discriminate].
    destruct (IH d1 Hrun) as (Hfiles & Hnodup).
    pose proof (download_one_files urlretrieve d d1 file_name Hone) as Hcase.
    cbv zeta in Hcase.
    split.
    + intros path. rewrite Hfiles.
      destruct Hcase as [[Heq [Hthere | Hhttp]] | (Heq & Habsent & Hret)];
        rewrite Heq; split.
      * intros [H | (n & Hn & Hp & Hr)]; [now left |].
        right. exists n. split; [now right | now split].
      * intros [H | (n & [<- | Hn] & Hp & Hr)]; [now left | | ].
        -- left. now subst.
        -- right. exists n. now split.
      * intros [H | (n & Hn & Hp & Hr)]; [now left |].
        right. exists n. split; [now right | now split].
      * intros [H | (n & [<- | Hn] & Hp & Hr)]; [now left | congruence |].
        right. exists n. now split.
      * intros [[<- | H] | (n & Hn & Hp & Hr)].
        -- right. exists file_name. split; [now left | now split].
        -- now left.
        -- right. exists n. split; [now right | now split].
      * intros [H | (n & [<- | Hn] & Hp & Hr)].
        -- left. now right.
        -- left. left. now subst.
        -- right. exists n. now split.
    + intros Hd. apply Hnodup.
      destruct Hcase as [[Heq _] | (Heq & Habsent & _)]; rewrite Heq;
        [exact Hd | now constructor].
Qed.

Lemma download_all_covers (urlretrieve : string -> retrieve_outcome)
      (names : list string) (d d' : Disk) :
  download_all urlretrieve names d = Some d' ->
  forall file_name,
    In file_name names ->
    In (path_join CHECKPOINT_PATH file_name) (files_on_disk d') \/
    urlretrieve (base_url ++ file_name)%string = HTTPError.
Proof.
  revert d. induction names as [| name names IH]; intros d Hrun n Hn;
    [destruct Hn |].
  cbn [download_all] in Hrun.
  destruct (download_one urlretrieve d name) as [d1 |] eqn:Hone;
    [| discriminate].
  destruct Hn as [<- | Hn]; [| now apply (IH d1)].
  destruct (download_all_files urlretrieve names d1 d' Hrun) as [Hfiles _].
  pose proof (download_one_files urlretrieve d d1 name Hone) as Hcase.
  cbv zeta in Hcase.
  destruct Hcase as [[Heq [Hthere | Hhttp]] | (Heq & _ & _)].
  - left. apply Hfiles. left. now rewrite Heq.
  - now right.
  - left. apply Hfiles. left. rewrite Heq. now left.
Qed.

Lemma download_all_present (urlretrieve : string -> retrieve_outcome)
      (names : list string) (d : Disk) :
  (forall file_name,
      In file_name names ->
      In (path_join CHECKPOINT_PATH file_name) (files_on_disk d)) ->
  download_all urlretrieve names d = Some d.
Proof.
  induction names as [| name names IH]; intros Hall; [reflexivity |].
  cbn [download_all]. unfold download_one. cbv zeta.
  assert (Hfile : isfile d (path_join CHECKPOINT_PATH name) = true)
    by (apply isfile_In, Hall; now left).
  rewrite Hfile. cbn [negb]. apply IH.
  intros n Hn. apply Hall. now right.
Qed.

(** X16.  The download loop only adds files: when it ends, the files on
    disk are those that were there before together with the pretrained
    files whose retrieval succeeded; a file that is on disk is not
    retrieved again, so that no path is stored twice. *)
Theorem download_only_adds_missing_files
        (urlretrieve : string -> retrieve_outcome) (d d' : Disk) :
  download_pretrained urlretrieve d = Some d' ->
  (forall path,
      In path (files_on_disk d') <->
      In path (files_on_disk d) \/
      exists file_name,
        In file_name pretrained_files /\
        path = path_join CHECKPOINT_PATH file_name /\
        urlretrieve (base_url ++ file_name)%string = Retrieved) /\
  (NoDup (files_on_disk d) -> NoDup (files_on_disk d')) /\
  (forall file_name,
      In file_name pretrained_files ->
      isfile d' (path_join CHECKPOINT_PATH file_name) = true \/
      urlretrieve (base_url ++ file_name)%string = HTTPError).
Proof.
  intros Hrun. unfold download_pretrained in Hrun.
  destruct (download_all_files urlretrieve pretrained_files d d' Hrun)
    as [Hfiles Hnodup].
  split; [exact Hfiles |]. split; [exact Hnodup |].
  intros n Hn.
  destruct (download_all_covers urlretrieve pretrained_files d d' Hrun n Hn)
    as [Hin | Hhttp]; [left; now apply isfile_In | now right].
Qed.

Lemma download_only_adds_missing_files_witness :
  download_pretrained (fun _ => Retrieved) disk_empty = Some disk_downloaded /\
  length (files_on_disk disk_downloaded) = 12%nat /\
  NoDup (files_on_disk disk_downloaded).
Proof.
  assert (Hrun : download_pretrained (fun _ => Retrieved) disk_empty
                 = Some disk_downloaded) by (vm_compute; reflexivity).
  split; [exact Hrun |]. split; [reflexivity |].
  apply (download_only_adds_missing_files
           (fun _ => Retrieved) disk_empty disk_downloaded Hrun).
  constructor.
Defined.

(** X17.  Running the download loop again changes nothing once every
    pretrained file is on disk: after a run in which no retrieval ended in
    an HTTP error, a second run retrieves nothing, prints nothing and
    leaves the disk as it is. *)
Theorem download_is_idempotent
        (urlretrieve : string -> retrieve_outcome) (d d' : Disk) :
  download_pretrained urlretrieve d = Some d' ->
  (forall file_name,
      In file_name pretrained_files ->
      urlretrieve (base_url ++ file_name)%string <> HTTPError) ->
  (forall file_name,
      In file_name pretrained_files ->
      isfile d' (path_join CHECKPOINT_PATH file_name) = true) /\
  forall urlretrieve' : string -> retrieve_outcome,
    download_pretrained urlretrieve' d' = Some d'.
Proof.
  intros Hrun Hok. unfold download_pretrained in *.
  assert (Hall : forall file_name,
             In file_name pretrained_files ->
             In (path_join CHECKPOINT_PATH file_name) (files_on_disk d')).
  { intros n Hn.
    destruct (download_all_covers urlretrieve pretrained_files d d' Hrun n Hn)
      as [Hin | Hhttp]; [exact Hin |].
    now elim (Hok n Hn). }
  split.
  - intros n Hn. now apply isfile_In, Hall.
  - intros urlretrieve'. now apply download_all_present.
Qed.

Lemma download_is_idempotent_witness :
  download_pretrained (fun _ => Retrieved) disk_empty = Some disk_downloaded /\
  download_pretrained (fun _ => OtherError) disk_downloaded
  = Some disk_downloaded.
Proof.
  assert (Hrun : download_pretrained (fun _ => Retrieved) disk_empty
                 = Some disk_downloaded) by (vm_compute; reflexivity).
  split; [exact Hrun |].
  apply (download_is_idempotent
           (fun _ => Retrieved) disk_empty disk_downloaded Hrun).
  intros n _. discriminate.
Defined.

Lemma generated_loader_in_range_witness :
  exists (ds : XORDataset) (dl : DataLoader),
    XORDataset_init 3 (1 / 10) rng_example = Ok ds /\
    Loader.DataLoader_init ds 2 false false = Ok dl /\
    loader_in_range dl [].
Proof.
  eexists. eexists. split; [reflexivity |]. split; [reflexivity |].
  apply (generated_loader_in_range 3 (1 / 10) rng_example _ 2 false _ []
           eq_refl eq_refl).
Defined.
